(** * Order-type classification and revenue attribution pipeline

    A shallow embedding of the invoice pipeline of the tracker application:

    - [tracker/utils/order_type_detector.py]: the category normalizer
      [_normalize_category_to_order_type] and the detector
      [determine_order_type_from_codes];
    - [tracker/views_invoice_upload.py]: the registry helper
      [_get_item_code_categories];
    - [tracker/views_invoice.py]: the line-item aggregator [_aggregate_items]
      and the loop that builds the invoice line items from its output;
    - [tracker/utils/revenue_utils.py]: the reduction of
      [get_revenue_by_order_type].

    Modelling conventions.

    - A Python [str] is a Rocq [string]; each character is read as the code
      point of the same number (0..255).
    - A [decimal.Decimal] is an exact rational ([Qc], canonical fractions, so
      that Leibniz equality is numeric equality).  Sums and quotients are
      exact, except in the definitions named [.._ctx], which round each sum
      and each quotient as the decimal context does (28 significant digits)
      and carry the properties that depend on the rounding.  The special
      values NaN and Infinity are not modelled.
    - A numeric value read from an extracted item with [dict.get] is a
      [pyval]: [None], a number or a string; a text value (code, description,
      unit) is [None] or a string.
    - Python sets are [gset]s, dicts whose order is not observed are [gmap]s,
      and the aggregator's [bucket], whose insertion order is the order of the
      output, is an association list. *)

From Stdlib Require Import Ascii String QArith Qcanon.
From stdpp Require Import gmap strings list sorting.

Open Scope string_scope.

(** ** Python strings *)

Module PyStr.

(** [str.isspace] on one character, for code points below 256. *)
Definition isspace (c : ascii) : bool :=
  let n := N_of_ascii c in
  ((9 <=? n) && (n <=? 13) || (28 <=? n) && (n <=? 32)
   || (n =? 133) || (n =? 160))%N.

(** [str.lower] on one character, for code points below 256. *)
Definition lower_char (c : ascii) : ascii :=
  let n := N_of_ascii c in
  if ((65 <=? n) && (n <=? 90)
      || (192 <=? n) && (n <=? 222) && negb (n =? 215))%N
  then ascii_of_N (n + 32) else c.

Fixpoint lower (s : string) : string :=
  match s with
  | EmptyString => EmptyString
  | String c r => String (lower_char c) (lower r)
  end.

Fixpoint lstrip (s : string) : string :=
  match s with
  | EmptyString => EmptyString
  | String c r => if isspace c then lstrip r else s
  end.

Fixpoint rstrip (s : string) : string :=
  match s with
  | EmptyString => EmptyString
  | String c r =>
      match rstrip r with
      | EmptyString => if isspace c then EmptyString else String c EmptyString
      | r' => String c r'
      end
  end.

(** [s.strip()] *)
Definition strip (s : string) : string := rstrip (lstrip s).

(** [s.split()]: the maximal runs of non-space characters.  [cur] is the
    run being read. *)
Fixpoint split_from (cur : string) (s : string) : list string :=
  match s with
  | EmptyString => if decide (cur = "") then [] else [cur]
  | String c r =>
      if isspace c
      then (if decide (cur = "") then split_from "" r
            else cur :: split_from "" r)
      else split_from (cur ++ String c "") r
  end.

Definition split (s : string) : list string := split_from "" s.

(** [sep.join(l)] *)
Definition join (sep : string) (l : list string) : string :=
  String.concat sep l.

(** [sub in s] *)
Fixpoint contains (sub s : string) : bool :=
  String.prefix sub s
  || match s with
     | EmptyString => false
     | String _ r => contains sub r
     end.

(** [s.replace(c, '')] for a single character [c]. *)
Fixpoint remove_char (c : ascii) (s : string) : string :=
  match s with
  | EmptyString => EmptyString
  | String a r =>
      if decide (a = c) then remove_char c r else String a (remove_char c r)
  end.

(** Truth value of a string: non-empty. *)
Definition truthy (s : string) : bool := negb (String.eqb s "").

(** [x or default] for a value that is [None] or a string. *)
Definition or_str (x : option string) (default : string) : string :=
  match x with
  | Some s => if truthy s then s else default
  | None => default
  end.

(** [sorted(l)] on strings: code-point lexicographic order. *)
Definition str_le (a b : string) : Prop := String.leb a b = true.

#[global] Instance str_le_dec : RelDecision str_le :=
  fun a b => decide (String.leb a b = true).

Definition sorted (l : list string) : list string := merge_sort str_le l.

End PyStr.

(** ** Decimals and raw extracted values *)

Abbreviation Decimal := Qc (only parsing).

Definition dec (z : Z) : Decimal := Q2Qc (inject_Z z).

Module PyDecimal.

Definition is_digit (c : ascii) : bool :=
  let n := N_of_ascii c in ((48 <=? n) && (n <=? 57))%N.

(** Longest prefix of decimal digits, and the rest. *)
Fixpoint take_digits (s : string) : string * string :=
  match s with
  | EmptyString => ("", "")
  | String c r =>
      if is_digit c
      then let '(d, rest) := take_digits r in (String c d, rest)
      else ("", s)
  end.

Fixpoint digits_value (acc : Z) (s : string) : Z :=
  match s with
  | EmptyString => acc
  | String c r => digits_value (10 * acc + (Z.of_N (N_of_ascii c) - 48)) r
  end.

Definition take_sign (s : string) : bool * string :=
  match s with
  | String "-" r => (true, r)
  | String "+" r => (false, r)
  | _ => (false, s)
  end.

(** The optional exponent part: [e] or [E], an optional sign, digits. *)
Definition exponent (s : string) : option Z :=
  match s with
  | EmptyString => Some 0%Z
  | String c r =>
      if decide (c = "e"%char \/ c = "E"%char) then
        let '(neg, r1) := take_sign r in
        let '(ds, rest) := take_digits r1 in
        if decide (ds = "" \/ rest <> "") then None
        else Some (if neg then (- digits_value 0 ds)%Z else digits_value 0 ds)
      else None
  end.

(** [Decimal(s)] for a string: [Some] of the value of a finite numeral
    ([sign] digits [.digits] [exponent], surrounding white space and
    underscores removed), [None] where the constructor raises.  The texts
    of NaN and Infinity, which the constructor accepts, have no value here
    and are read as [None] too. *)
Definition of_str (s : string) : option Decimal :=
  let s0 := PyStr.remove_char "_"%char (PyStr.strip s) in
  let '(neg, s1) := take_sign s0 in
  let '(ip, s2) := take_digits s1 in
  let '(fp, s3) :=
    match s2 with
    | String "." r => take_digits r
    | _ => ("", s2)
    end in
  if decide (ip = "" /\ fp = "") then None
  else
    match exponent s3 with
    | None => None
    | Some ex =>
        let m := digits_value 0 (ip ++ fp) in
        let m' := if neg then (- m)%Z else m in
        Some (Q2Qc (inject_Z m' * Qpower (inject_Z 10)
                                    (ex - Z.of_nat (String.length fp))))
    end.

End PyDecimal.

(** A value found in an extracted item. *)
Inductive pyval : Type :=
| PyNone
| PyNum (d : Decimal)
| PyStr (s : string).

(** Truth value: [None], zero and the empty string are false. *)
Definition py_truthy (v : pyval) : bool :=
  match v with
  | PyNone => false
  | PyNum d => negb (Qc_eq_bool d 0)
  | PyStr s => PyStr.truthy s
  end.

(** [v or w] *)
Definition py_or (v w : pyval) : pyval := if py_truthy v then v else w.

(** [Decimal(str(v))]; [None] where it raises ([str(None)] is no numeral;
    the text of a number is its own decimal numeral). *)
Definition Decimal_of_str_of (v : pyval) : option Decimal :=
  match v with
  | PyNone => None
  | PyNum d => Some d
  | PyStr s => PyDecimal.of_str s
  end.

(** Truth value of a [Decimal] that may be [None]. *)
Definition dec_truthy (d : option Decimal) : bool :=
  match d with
  | Some q => negb (Qc_eq_bool q 0)
  | None => false
  end.

(** [0 < d] as a test. *)
Definition dec_pos (d : Decimal) : bool := bool_decide (0 < d)%Qc.

(** [sum(l)]: Python adds from the left, starting at 0. *)
Definition dec_sum (l : list Decimal) : Decimal := foldl Qcplus 0%Qc l.

(** ** Category normalizer (order_type_detector.py) *)

Definition _normalize_category_to_order_type (category : option string)
  : string :=
  match category with
  | None => "unspecified"
  | Some c =>
      if negb (PyStr.truthy c) then "unspecified"
      else
        let category_lower := PyStr.strip (PyStr.lower c) in
        if decide (category_lower = "labour") then "labour"
        else if PyStr.contains "tyre" category_lower
                || PyStr.contains "service" category_lower
             then "service"
             else "labour"
  end.

(** ** Code registry and order-type detector (order_type_detector.py) *)

(** A row of the [LabourCode] table, the code registry. *)
Record LabourCode : Type := {
  lc_code : string;
  lc_category : string;
  lc_is_active : bool;
}.

(** The third component of the detector's result. *)
Record mapping_info : Type := {
  mapped : gmap string string;
  unmapped : list string;
  categories_found : list string;
  order_types_found : list string;
}.

Definition empty_mapping_info : mapping_info :=
  {| mapped := ∅; unmapped := []; categories_found := [];
     order_types_found := [] |}.

(** [[str(code).strip() for code in item_codes if code]] *)
Definition clean_codes (item_codes : list (option string)) : list string :=
  omap (fun code =>
          match code with
          | Some s => if PyStr.truthy s then Some (PyStr.strip s) else None
          | None => None
          end) item_codes.

(** [LabourCode.objects.filter(code__in=cleaned_codes, is_active=True)] *)
Definition found_rows (registry : list LabourCode) (cleaned_codes : list string)
  : list LabourCode :=
  filter (fun r => lc_code r ∈ cleaned_codes /\ lc_is_active r = true) registry.

(** The [code_to_category] dict filled by the loop over the rows. *)
Definition code_to_category_of (rows : list LabourCode) : gmap string string :=
  foldl (fun m r => <[lc_code r := lc_category r]> m) ∅ rows.

(** The set [found_code_set] after the loop over the rows. *)
Definition found_code_set_of (rows : list LabourCode) : gset string :=
  list_to_set (lc_code <$> rows).

(** The list [unmapped_codes]: the cleaned codes that no row has. *)
Definition unmapped_codes_of (rows : list LabourCode)
    (cleaned_codes : list string) : list string :=
  filter (fun code => code ∉ found_code_set_of rows) cleaned_codes.

(** [has_unmapped = len(unmapped_codes) > 0] *)
Definition has_unmapped_of (rows : list LabourCode)
    (cleaned_codes : list string) : bool :=
  bool_decide (0 < length (unmapped_codes_of rows cleaned_codes)).

(** The set [categories_found], with "sales" added for unmapped codes. *)
Definition categories_found_of (rows : list LabourCode)
    (cleaned_codes : list string) : gset string :=
  let categories_found : gset string := list_to_set (lc_category <$> rows) in
  if has_unmapped_of rows cleaned_codes
  then categories_found ∪ {["sales"]} else categories_found.

(** The set [order_types_found]: the normalized categories of the rows,
    with "sales" added for unmapped codes. *)
Definition order_types_found_of (rows : list LabourCode)
    (cleaned_codes : list string) : gset string :=
  let categories_found : gset string := list_to_set (lc_category <$> rows) in
  let order_types_found : gset string :=
    set_map (fun category =>
               _normalize_category_to_order_type (Some category))
            categories_found in
  if has_unmapped_of rows cleaned_codes
  then order_types_found ∪ {["sales"]} else order_types_found.

Definition determine_order_type_from_codes
    (registry : list LabourCode) (item_codes : list (option string))
  : string * list string * mapping_info :=
  match item_codes with
  | [] => ("unspecified", [], empty_mapping_info)
  | _ =>
      let cleaned_codes := clean_codes item_codes in
      match cleaned_codes with
      | [] => ("sales", [], empty_mapping_info)
      | _ =>
          let found_codes := found_rows registry cleaned_codes in
          let code_to_category := code_to_category_of found_codes in
          let unmapped_codes := unmapped_codes_of found_codes cleaned_codes in
          let order_types_found :=
            order_types_found_of found_codes cleaned_codes in
          let categories_found :=
            categories_found_of found_codes cleaned_codes in
          let '(final_order_type, final_categories) :=
            if decide (size order_types_found = 0) then ("sales", ["sales"])
            else if decide (size order_types_found = 1)
                 then (hd "" (elements order_types_found),
                       PyStr.sorted (elements categories_found))
                 else ("mixed", PyStr.sorted (elements categories_found)) in
          (final_order_type, final_categories,
           {| mapped := code_to_category;
              unmapped := unmapped_codes;
              categories_found := final_categories;
              order_types_found :=
                PyStr.sorted (elements order_types_found) |})
      end
  end.

(** ** Per-code category information (views_invoice_upload.py) *)

Record code_info : Type := {
  ci_category : string;
  ci_order_type : string;
  ci_color_class : string;
}.

(** [color_map.get(order_type, 'badge-secondary')] *)
Definition color_class_of (order_type : string) : string :=
  if decide (order_type = "labour") then "badge-labour"
  else if decide (order_type = "service") then "badge-service"
  else if decide (order_type = "sales") then "badge-sales"
  else "badge-secondary".

Definition _get_item_code_categories
    (registry : list LabourCode) (item_codes : list (option string))
  : gmap string code_info :=
  match item_codes with
  | [] => ∅
  | _ =>
      let cleaned_codes := clean_codes item_codes in
      match cleaned_codes with
      | [] => ∅
      | _ =>
          let found_codes := found_rows registry cleaned_codes in
          let result0 : gmap string code_info :=
            foldl (fun result row =>
                     let order_type :=
                       _normalize_category_to_order_type
                         (Some (lc_category row)) in
                     <[lc_code row :=
                         {| ci_category := lc_category row;
                            ci_order_type := order_type;
                            ci_color_class := color_class_of order_type |}]>
                       result)
                  ∅ found_codes in
          let found_code_set : gset string :=
            list_to_set (lc_code <$> found_codes) in
          foldl (fun result code =>
                   if decide (code ∉ found_code_set)
                   then <[code := {| ci_category := "Sales";
                                     ci_order_type := "sales";
                                     ci_color_class := "badge-sales" |}]>
                          result
                   else result)
                result0 cleaned_codes
      end
  end.

(** ** Line-item aggregator (views_invoice.py) *)

(** An extracted item: the values [it.get(key)] of its dict. *)
Module Extracted.
Record item : Type := {
  item_code : option string;
  code : option string;
  description : option string;
  qty : pyval;
  unit : option string;
  rate : pyval;
  value : pyval;
}.
End Extracted.

(** A value of the aggregator's [bucket]. *)
Module Bucket.
Record entry : Type := {
  code : option string;
  description : string;
  qty : Decimal;
  unit : option string;
  rates : list Decimal;
  values : list Decimal;
}.
End Bucket.

(** An element of the aggregator's output list. *)
Module Agg.
Record line : Type := {
  code : option string;
  description : string;
  qty : Decimal;
  unit : option string;
  unit_price : Decimal;
}.
End Agg.

(** A dict that keeps the insertion order of its keys. *)
Module ODict.
Section ODict.
Context {V : Type}.

Fixpoint get (k : string) (d : list (string * V)) : option V :=
  match d with
  | [] => None
  | (k', v) :: d' => if decide (k = k') then Some v else get k d'
  end.

(** [d[k] = v]: in place when the key is present, at the end otherwise. *)
Fixpoint set (k : string) (v : V) (d : list (string * V))
  : list (string * V) :=
  match d with
  | [] => [(k, v)]
  | (k', v') :: d' =>
      if decide (k = k') then (k', v) :: d' else (k', v') :: set k v d'
  end.

Definition keys (d : list (string * V)) : list string := fst <$> d.

Definition values (d : list (string * V)) : list V := snd <$> d.

End ODict.
End ODict.

(** The first of two values, each [None] or a string, that is true. *)
Definition or_opt (x y : option string) : option string :=
  match x with
  | Some s => if PyStr.truthy s then x else y
  | None => y
  end.

(** [desc = (it.get('description') or 'Item').strip()] *)
Definition item_desc (it : Extracted.item) : string :=
  PyStr.strip (PyStr.or_str (Extracted.description it) "Item").

(** [code = (it.get('item_code') or it.get('code') or '').strip()] *)
Definition item_code_of (it : Extracted.item) : string :=
  PyStr.strip
    (PyStr.or_str (or_opt (Extracted.item_code it) (Extracted.code it)) "").

(** [desc_normalized = ' '.join(desc.lower().split())] *)
Definition desc_normalized (desc : string) : string :=
  PyStr.join " " (PyStr.split (PyStr.lower desc)).

(** [key = code if code else desc_normalized] *)
Definition item_key (it : Extracted.item) : string :=
  let code := item_code_of it in
  if PyStr.truthy code then code else desc_normalized (item_desc it).

(** [qty = Decimal(str(it.get('qty') or 1))], and 1 where that raises. *)
Definition item_qty (it : Extracted.item) : Decimal :=
  match Decimal_of_str_of (py_or (Extracted.qty it) (PyNum 1%Qc)) with
  | Some d => d
  | None => 1%Qc
  end.

(** [(x or '').strip() or None] *)
Definition strip_or_none (x : option string) : option string :=
  let u := PyStr.strip (PyStr.or_str x "") in
  if PyStr.truthy u then Some u else None.

(** [unit = (it.get('unit') or '').strip() or None] *)
Definition item_unit (it : Extracted.item) : option string :=
  strip_or_none (Extracted.unit it).

(** [rate = Decimal(str(rate)) if rate else None], and [None] where the
    conversion raises. *)
Definition item_rate (it : Extracted.item) : option Decimal :=
  if py_truthy (Extracted.rate it) then Decimal_of_str_of (Extracted.rate it)
  else None.

(** [value = Decimal(str(value)) if value is not None else None], and [None]
    where the conversion raises. *)
Definition item_value (it : Extracted.item) : option Decimal :=
  match Extracted.value it with
  | PyNone => None
  | v => Decimal_of_str_of v
  end.

(** Truth value of a value that is [None] or a string. *)
Definition opt_truthy (x : option string) : bool :=
  match x with
  | Some s => PyStr.truthy s
  | None => false
  end.

(** [x or None] for a string. *)
Definition str_or_none (s : string) : option string :=
  if PyStr.truthy s then Some s else None.

(** The entry stored under a key that is not yet in the bucket. *)
Definition bucket_init (it : Extracted.item) : Bucket.entry :=
  {| Bucket.code := str_or_none (item_code_of it);
     Bucket.description := item_desc it;
     Bucket.qty := 0%Qc;
     Bucket.unit := item_unit it;
     Bucket.rates := [];
     Bucket.values := [] |}.

(** [l.append(x)] under the guard [if x:]. *)
Definition append_if_truthy (l : list Decimal) (x : option Decimal)
  : list Decimal :=
  match x with
  | Some d => if dec_truthy x then l ++ [d] else l
  | None => l
  end.

(** "Accumulate quantities and values": the updates of [bucket[key]]. *)
Definition bucket_acc (it : Extracted.item) (e : Bucket.entry) : Bucket.entry :=
  {| Bucket.code := Bucket.code e;
     Bucket.description := Bucket.description e;
     Bucket.qty := (Bucket.qty e + item_qty it)%Qc;
     Bucket.unit :=
       if opt_truthy (item_unit it) && negb (opt_truthy (Bucket.unit e))
       then item_unit it else Bucket.unit e;
     Bucket.rates := append_if_truthy (Bucket.rates e) (item_rate it);
     Bucket.values := append_if_truthy (Bucket.values e) (item_value it) |}.

(** One iteration of [for it in items_list].  The entry of a new key is
    created and updated in the same iteration, hence stored once. *)
Definition aggregate_step (bucket : list (string * Bucket.entry))
    (it : Extracted.item) : list (string * Bucket.entry) :=
  let key := item_key it in
  let e :=
    match ODict.get key bucket with
    | Some e => e
    | None => bucket_init it
    end in
  ODict.set key (bucket_acc it e) bucket.

(** The bucket after the first loop. *)
Definition aggregate_bucket (items_list : list Extracted.item)
  : list (string * Bucket.entry) :=
  foldl aggregate_step [] items_list.

(** [final_qty = v['qty'] if v['qty'] > 0 else Decimal('1')] *)
Definition final_qty_of (v : Bucket.entry) : Decimal :=
  if dec_pos (Bucket.qty v) then Bucket.qty v else 1%Qc.

Definition unit_price_of (v : Bucket.entry) : Decimal :=
  let final_qty := final_qty_of v in
  match Bucket.rates v, Bucket.values v with
  | _ :: _, _ =>
      (dec_sum (Bucket.rates v)
       / dec (Z.of_nat (length (Bucket.rates v))))%Qc
  | [], _ :: _ =>
      let total_value := dec_sum (Bucket.values v) in
      if dec_pos final_qty then (total_value / final_qty)%Qc else 0%Qc
  | [], [] => 0%Qc
  end.

(** One iteration of [for v in bucket.values()]: the dict appended to [out]. *)
Definition finalize (v : Bucket.entry) : Agg.line :=
  {| Agg.code := Bucket.code v;
     Agg.description := Bucket.description v;
     Agg.qty := final_qty_of v;
     Agg.unit := Bucket.unit v;
     Agg.unit_price := unit_price_of v |}.

(** The output with the bucket key of each element kept next to it. *)
Definition aggregate_keyed (items_list : list Extracted.item)
  : list (string * Agg.line) :=
  prod_map id finalize <$> aggregate_bucket items_list.

Definition _aggregate_items (items_list : list Extracted.item)
  : list Agg.line :=
  finalize <$> ODict.values (aggregate_bucket items_list).

(** An output element read again as an input item: its dict has the keys
    [code], [description], [qty], [unit] and [unit_price], so [item_code],
    [rate] and [value] are absent. *)
Definition as_item (a : Agg.line) : Extracted.item :=
  {| Extracted.item_code := None;
     Extracted.code := Agg.code a;
     Extracted.description := Some (Agg.description a);
     Extracted.qty := PyNum (Agg.qty a);
     Extracted.unit := Agg.unit a;
     Extracted.rate := PyNone;
     Extracted.value := PyNone |}.

(** ** Invoice line items built from the extraction (views_invoice.py) *)

(** A row of the [InvoiceLineItem] table, with the fields the pipeline
    writes and the revenue report reads. *)
Record InvoiceLineItem : Type := {
  li_invoice_id : Z;
  li_code : option string;
  li_description : string;
  li_quantity : Decimal;
  li_unit : option string;
  li_unit_price : Decimal;
  li_tax_rate : Decimal;
  li_line_total : Decimal;
  li_tax_amount : option Decimal;
  li_order_type : option string;
}.

(** [Decimal(str(d or default))] for a [Decimal] [d]. *)
Definition dec_or (d default : Decimal) : Decimal :=
  if Qc_eq_bool d 0 then default else d.

(** One iteration of [for it in aggregated], the row appended to
    [to_create]. *)
Definition line_item_of (inv : Z) (code_order_types : gmap string code_info)
    (it : Agg.line) : InvoiceLineItem :=
  let qty := dec_or (Agg.qty it) 1%Qc in
  let price := dec_or (Agg.unit_price it) 0%Qc in
  let line_total := (qty * price)%Qc in
  let code := Agg.code it in
  let order_type :=
    match code with
    | Some c =>
        if PyStr.truthy c then
          match code_order_types !! c with
          | Some info => ci_order_type info
          | None => "unspecified"
          end
        else "unspecified"
    | None => "unspecified"
    end in
  {| li_invoice_id := inv;
     li_code := match code with Some c => str_or_none c | None => None end;
     li_description := PyStr.or_str (Some (Agg.description it)) "Item";
     li_quantity := qty;
     li_unit := match Agg.unit it with Some u => str_or_none u | None => None end;
     li_unit_price := price;
     li_tax_rate := 0%Qc;
     li_line_total := line_total;
     li_tax_amount := Some 0%Qc;
     li_order_type := Some order_type |}.

(** [[it.get('code') for it in aggregated if it.get('code')]] *)
Definition codes_of (aggregated : list Agg.line) : list (option string) :=
  filter (fun c => opt_truthy c = true) (Agg.code <$> aggregated).

(** The part of [api_upload_extract_invoice] from the aggregation to the
    rows handed to [bulk_create]; [inv] is the id of the saved invoice. *)
Definition extracted_line_items (registry : list LabourCode) (inv : Z)
    (items : list Extracted.item) : list InvoiceLineItem :=
  let aggregated :=
    match items with
    | [] => []
    | _ => _aggregate_items items
    end in
  let item_codes := codes_of aggregated in
  let code_order_types := _get_item_code_categories registry item_codes in
  line_item_of inv code_order_types <$> aggregated.

(** ** Revenue by order type (revenue_utils.py) *)

(** The result dict before the loop; [count] is [len(invoice_ids)]. *)
Definition revenue_init (count : nat) : gmap string Decimal :=
  <["sales" := 0%Qc]> (<["service" := 0%Qc]> (<["labour" := 0%Qc]>
  (<["unknown" := 0%Qc]> (<["total" := 0%Qc]>
  (<["count" := dec (Z.of_nat count)]> ∅))))).

(** [order_type = item.order_type or 'unknown'] *)
Definition revenue_tag (item : InvoiceLineItem) : string :=
  PyStr.or_str (li_order_type item) "unknown".

(** [line_value = item.line_total + item.tax_amount if item.tax_amount
    else item.line_total] *)
Definition line_value (item : InvoiceLineItem) : Decimal :=
  match li_tax_amount item with
  | Some tax =>
      if dec_truthy (li_tax_amount item)
      then (li_line_total item + tax)%Qc else li_line_total item
  | None => li_line_total item
  end.

(** One iteration of [for item in line_items]: the test
    [order_type in result] is made on the result dict itself. *)
Definition revenue_step (result : gmap string Decimal)
    (item : InvoiceLineItem) : gmap string Decimal :=
  let order_type := revenue_tag item in
  match result !! order_type with
  | Some cur => <[order_type := (cur + line_value item)%Qc]> result
  | None =>
      <["unknown" :=
          (default 0%Qc (result !! "unknown") + line_value item)%Qc]> result
  end.

(** [result[k]] for a key of the result dict. *)
Definition bucket_of (k : string) (result : gmap string Decimal) : Decimal :=
  default 0%Qc (result !! k).

(** [get_revenue_by_order_type], from the ids of the selected invoices
    ([invoice_ids]) and the rows of the line-item table. *)
Definition get_revenue_by_order_type (invoice_ids : list Z)
    (table : list InvoiceLineItem) : gmap string Decimal :=
  match invoice_ids with
  | [] => revenue_init 0
  | _ =>
      let line_items :=
        filter (fun item => li_invoice_id item ∈ invoice_ids) table in
      let result := foldl revenue_step (revenue_init (length invoice_ids))
                          line_items in
      <["total" := (bucket_of "sales" result + bucket_of "service" result
                    + bucket_of "labour" result
                    + bucket_of "unknown" result)%Qc]> result
  end.

(** ** Scenarios *)

Definition mk_item (code description : option string) (qty rate value : pyval)
  : Extracted.item :=
  {| Extracted.item_code := None;
     Extracted.code := code;
     Extracted.description := description;
     Extracted.qty := qty;
     Extracted.unit := None;
     Extracted.rate := rate;
     Extracted.value := value |}.

(** The extracted items and the registry of the end-to-end scenario. *)
Definition scenario_items : list Extracted.item :=
  [ mk_item (Some "L100") (Some "Oil filter replace")
            (PyNum (dec 1)) PyNone (PyNum (dec 50000));
    mk_item None (Some "Tire X") (PyNum (dec 2)) (PyNum (dec 75000)) PyNone ].

Definition scenario_registry : list LabourCode :=
  [ {| lc_code := "L100"; lc_category := "labour"; lc_is_active := true |} ].

(** The codes of the aggregated scenario items, the codeless one included. *)
Definition scenario_codes : list (option string) :=
  Agg.code <$> _aggregate_items scenario_items.

(** A line item that carries only what the revenue report reads. *)
Definition mk_line (inv : Z) (order_type : option string)
    (line_total : Decimal) (tax_amount : option Decimal) : InvoiceLineItem :=
  {| li_invoice_id := inv;
     li_code := None;
     li_description := "Item";
     li_quantity := 1%Qc;
     li_unit := None;
     li_unit_price := line_total;
     li_tax_rate := 0%Qc;
     li_line_total := line_total;
     li_tax_amount := tax_amount;
     li_order_type := order_type |}.

(** ** Groups of items *)

(** The items of one key, in input order. *)
Definition group (k : string) (items : list Extracted.item)
  : list Extracted.item :=
  filter (fun it => item_key it = k) items.

(** The entry the bucket holds for a group: created for its first item and
    updated by each of its items in turn. *)
Definition entry_of_group (g : list Extracted.item) : option Bucket.entry :=
  match g with
  | [] => None
  | it :: _ => Some (foldl (fun e x => bucket_acc x e) (bucket_init it) g)
  end.

(** A parsed value that passes the guard [if x:]. *)
Definition nonzero (x : option Decimal) : option Decimal :=
  if dec_truthy x then x else None.

Definition collected_rates (g : list Extracted.item) : list Decimal :=
  omap (fun it => nonzero (item_rate it)) g.

Definition collected_values (g : list Extracted.item) : list Decimal :=
  omap (fun it => nonzero (item_value it)) g.

Definition qty_sum (g : list Extracted.item) : Decimal :=
  dec_sum (item_qty <$> g).

(** The first unit of a group that is not [None]. *)
Definition first_unit (g : list Extracted.item) : option string :=
  head (omap item_unit g).

(** [q] when positive, else 1. *)
Definition clamp_qty (q : Decimal) : Decimal := if dec_pos q then q else 1%Qc.

(** The arithmetic mean of a non-empty list. *)
Definition mean (l : list Decimal) : Decimal :=
  (dec_sum l / dec (Z.of_nat (length l)))%Qc.

(** An item with no code and no description: each of [item_code], [code]
    and [description] is [None] or the empty string. *)
Definition is_blank (it : Extracted.item) : bool :=
  negb (opt_truthy (Extracted.item_code it))
  && negb (opt_truthy (Extracted.code it))
  && negb (opt_truthy (Extracted.description it)).




(** The quantity rule in the words of the specification: each quantity is
    clamped to 1 when zero or negative before it is added. *)
Definition spec_qty (g : list Extracted.item) : Decimal :=
  dec_sum ((fun it => clamp_qty (item_qty it)) <$> g).

(** An output line with its unit price set to zero. *)
Definition zero_price (a : Agg.line) : Agg.line :=
  {| Agg.code := Agg.code a;
     Agg.description := Agg.description a;
     Agg.qty := Agg.qty a;
     Agg.unit := Agg.unit a;
     Agg.unit_price := 0%Qc |}.



Definition qty_items : list Extracted.item :=
  [ mk_item (Some "A") (Some "Part") (PyNum (dec 3)) PyNone PyNone;
    mk_item (Some "A") (Some "Part") (PyNum (dec (-5))) PyNone PyNone ].

Definition desc_items : list Extracted.item :=
  [ mk_item (Some "A") (Some "Front pad") (PyNum (dec 1)) (PyNum (dec 10))
            PyNone;
    mk_item (Some "A") (Some "Rear pad") (PyNum (dec 2)) (PyNum (dec 20))
            PyNone ].

Definition blank_items : list Extracted.item :=
  [ mk_item None None (PyNum (dec 2)) (PyNum (dec 10)) PyNone;
    mk_item (Some "") (Some "") (PyNum (dec 3)) PyNone PyNone;
    mk_item (Some "B7") (Some "Bolt") (PyNum (dec 1)) PyNone PyNone ].

Definition blank_negative_items : list Extracted.item :=
  [ mk_item None None (PyNum (dec 2)) PyNone PyNone;
    mk_item None (Some "") (PyNum (dec (-5))) PyNone PyNone ].

Definition space_desc_items : list Extracted.item :=
  [ mk_item (Some "A") (Some "  ") (PyNum (dec 1)) PyNone PyNone ].

Definition mk_item_unit (code description unit : option string) (qty : pyval)
  : Extracted.item :=
  {| Extracted.item_code := None;
     Extracted.code := code;
     Extracted.description := description;
     Extracted.qty := qty;
     Extracted.unit := unit;
     Extracted.rate := PyNone;
     Extracted.value := PyNone |}.

Definition unit_items : list Extracted.item :=
  [ mk_item_unit (Some "A") (Some "Pad") (Some "PCS") (PyNum (dec 1));
    mk_item_unit (Some "A") (Some "Pad") (Some "BOX") (PyNum (dec 2)) ].

(** What a permutation of the input leaves unchanged in an output line. *)
Definition qty_and_price (a : Agg.line) : Decimal * Decimal :=
  (Agg.qty a, Agg.unit_price a).

(** ** Order-type tags, in the words of the specification *)

(** [t] is one of the distinct normalized order-type tags of the codes: the
    normalized category of an active registry row whose code is among the
    cleaned codes, or "sales" when a cleaned code has no active row. *)
Definition tag_present (registry : list LabourCode)
    (item_codes : list (option string)) (t : string) : Prop :=
  (exists r, r ∈ registry /\ lc_is_active r = true
             /\ lc_code r ∈ clean_codes item_codes
             /\ _normalize_category_to_order_type (Some (lc_category r)) = t)
  \/ (t = "sales"
      /\ exists c, c ∈ clean_codes item_codes
                   /\ forall r, r ∈ registry -> lc_is_active r = true ->
                                lc_code r <> c).

(** A registry whose only row has an empty category. *)
Definition empty_category_registry : list LabourCode :=
  [ {| lc_code := "X"; lc_category := ""; lc_is_active := true |} ].

(** ** Revenue buckets, in the words of the specification *)

Definition known_keys : list string := ["sales"; "service"; "labour"; "unknown"].

(** The bucket of a line item: its order type when that is one of the four
    known keys, else unknown. *)
Definition spec_bucket_key (item : InvoiceLineItem) : string :=
  if decide (revenue_tag item ∈ known_keys) then revenue_tag item
  else "unknown".

(** The sum of the values of the line items of one bucket. *)
Definition spec_bucket (k : string) (line_items : list InvoiceLineItem)
  : Decimal :=
  dec_sum (line_value <$> filter (fun item => spec_bucket_key item = k)
                                 line_items).

(** The keys of the result dict. *)
Definition result_keys : gset string :=
  {["sales"; "service"; "labour"; "unknown"; "total"; "count"]}.

(** ** Further scenarios *)

Definition sample_registry : list LabourCode :=
  [ {| lc_code := "L1"; lc_category := "labour"; lc_is_active := true |};
    {| lc_code := "S1"; lc_category := "tyre service"; lc_is_active := true |};
    {| lc_code := "OLD"; lc_category := "service"; lc_is_active := false |} ].

Definition sample_codes : list (option string) :=
  [Some "S1"; Some " L1 "; None; Some "X9"; Some "L1"].

(** The four order-type tags and the five order types. *)
Definition order_type_tags : list string :=
  ["labour"; "service"; "sales"; "unspecified"].

Definition order_types : list string :=
  ["labour"; "service"; "sales"; "unspecified"; "mixed"].

Definition sample_codes_reordered : list (option string) :=
  [Some "X9"; Some "L1"; Some "S1"; Some "S1"].

Definition sample_registry_active : list LabourCode :=
  [ {| lc_code := "S1"; lc_category := "tyre service"; lc_is_active := true |};
    {| lc_code := "L1"; lc_category := "labour"; lc_is_active := true |} ].

(** The information [_get_item_code_categories] stores for a registry row,
    and for a code that no row has. *)
Definition info_of_row (row : LabourCode) : code_info :=
  let order_type :=
    _normalize_category_to_order_type (Some (lc_category row)) in
  {| ci_category := lc_category row;
     ci_order_type := order_type;
     ci_color_class := color_class_of order_type |}.

Definition sales_info : code_info :=
  {| ci_category := "Sales"; ci_order_type := "sales";
     ci_color_class := "badge-sales" |}.

(** Scenario items: two rows of one code priced by value, one by rate. *)
Definition value_items : list Extracted.item :=
  [ mk_item (Some "V1") (Some "Valve") (PyNum (dec 2)) PyNone (PyNum (dec 40));
    mk_item (Some "V1") (Some "Valve") (PyNum (dec 3)) PyNone (PyNum (dec 60));
    mk_item None (Some "Wiper") (PyNum (dec 1)) PyNone (PyNum (dec 15)) ].

(** The key of the result dict that a line item is added to: its order type
    when the result dict has that key, else unknown. *)
Definition revenue_target (item : InvoiceLineItem) : string :=
  if decide (revenue_tag item ∈ result_keys) then revenue_tag item
  else "unknown".

(** Line items of two invoices, one of them not selected. *)
Definition revenue_table : list InvoiceLineItem :=
  [ mk_line 1 (Some "labour") (dec 100) (Some (dec 18));
    mk_line 1 None (dec 40) None;
    mk_line 2 (Some "sales") (dec 999) (Some 0%Qc);
    mk_line 1 (Some "unspecified") (dec 5) (Some 0%Qc);
    mk_line 1 (Some "sales") (dec 60) (Some (dec 2)) ].

(** ** Invoice totals (views_invoice.py) *)

(** [ensure_decimal(value, default)]: [None] gives the default, a number is
    kept, a string is stripped, cleared of commas and spaces and parsed; an
    empty, "." or "-" text, or one that does not parse, gives the default. *)
Definition ensure_decimal (value : pyval) (default : option Decimal)
  : option Decimal :=
  match value with
  | PyNone => default
  | PyNum d => Some d
  | PyStr s =>
      let cleaned :=
        PyStr.remove_char " "%char
          (PyStr.remove_char ","%char (PyStr.strip s)) in
      if PyStr.truthy cleaned
         && negb (bool_decide (cleaned = "." \/ cleaned = "-"))
      then match PyDecimal.of_str cleaned with
           | Some d => Some d
           | None => default
           end
      else default
  end.

(** [x is None or x == Decimal('0')] *)
Definition none_or_zero (x : option Decimal) : bool :=
  match x with
  | None => true
  | Some d => Qc_eq_bool d 0
  end.

(** [x or Decimal('0')] *)
Definition or_zero (x : option Decimal) : Decimal :=
  match x with
  | Some d => d
  | None => 0%Qc
  end.

(** The subtotal, tax amount and total amount that
    [api_upload_extract_invoice] assigns to the invoice at the end, before
    [inv.save], from the amounts of the extracted header and the line items
    of the saved invoice.  The save rounds each of them to the two decimal
    places of its column, which is not modelled. *)
Definition invoice_totals (extracted_subtotal extracted_tax
    extracted_total : pyval) (line_items : list InvoiceLineItem)
  : Decimal * Decimal * Decimal :=
  let subtotal0 := ensure_decimal extracted_subtotal None in
  let tax0 := ensure_decimal extracted_tax None in
  let total0 := ensure_decimal extracted_total None in
  let line_items_subtotal := dec_sum (li_line_total <$> line_items) in
  let per_item_tax :=
    dec_sum ((fun item => if dec_truthy (li_tax_amount item)
                          then or_zero (li_tax_amount item) else 0%Qc)
             <$> line_items) in
  let from_items :=
    none_or_zero subtotal0
    && negb (bool_decide (line_items = []))
    && dec_pos line_items_subtotal in
  let subtotal1 := if from_items then Some line_items_subtotal else subtotal0 in
  let tax1 :=
    if from_items && none_or_zero tax0 then Some per_item_tax else tax0 in
  let total1 :=
    if none_or_zero total0 then Some (or_zero subtotal1 + or_zero tax1)%Qc
    else total0 in
  let subtotal := or_zero subtotal1 in
  let tax_amount := or_zero tax1 in
  let total_amount :=
    if none_or_zero total1 then (subtotal + tax_amount)%Qc
    else or_zero total1 in
  (subtotal, tax_amount, total_amount).

(** Stored line items of an invoice whose header has no amounts. *)
Definition stored_lines : list InvoiceLineItem :=
  [ mk_line 7 (Some "labour") (dec 100) (Some (dec 18));
    mk_line 7 (Some "sales") (dec 50) (Some 0%Qc) ].

(** ** Order type of an order with several invoices
       (views_invoice_upload.py) *)

(** [[c for c in codes if c]] *)
Definition truthy_codes (codes : list (option string)) : list string :=
  omap (fun c => match c with
                 | Some s => if PyStr.truthy s then Some s else None
                 | None => None
                 end) codes.

(** [sorted(set([c for c in codes if c]))] *)
Definition distinct_codes (codes : list (option string)) : list string :=
  PyStr.sorted (elements (list_to_set (truthy_codes codes) : gset string)).

(** The tag that the loop over the categories of an invoice adds for one
    category. *)
Definition category_type (cat : string) : string :=
  if decide (cat = "sales") then "sales"
  else _normalize_category_to_order_type (Some cat).

(** What one invoice, given by the codes of its line items, adds to
    [agg_types]. *)
Definition invoice_types (registry : list LabourCode)
    (codes : list (option string)) : gset string :=
  let result :=
    determine_order_type_from_codes registry (Some <$> distinct_codes codes) in
  let inv_type := result.1.1 in
  let inv_categories := result.1.2 in
  if PyStr.truthy inv_type then
    match inv_categories with
    | [] => {[ inv_type ]}
    | _ => list_to_set (category_type <$> inv_categories)
    end
  else ∅.

(** What one invoice adds to [agg_categories]. *)
Definition invoice_categories (registry : list LabourCode)
    (codes : list (option string)) : gset string :=
  list_to_set
    (determine_order_type_from_codes registry
       (Some <$> distinct_codes codes)).1.2.

(** The order type and the mixed categories stored on the order: [invoices]
    holds, for each invoice of the order, the codes of its line items;
    [detected_order_type] and [categories] are the result of the detection
    made before on the submitted codes.  The second component is the list
    that is dumped as JSON, [None] when nothing is stored. *)
Definition aggregate_order_type (registry : list LabourCode)
    (invoices : list (list (option string)))
    (detected_order_type : option string) (categories : list string)
  : string * option (list string) :=
  let agg_types0 : gset string := ⋃ (invoice_types registry <$> invoices) in
  let agg_categories0 : gset string :=
    ⋃ (invoice_categories registry <$> invoices) in
  let agg_types :=
    if decide (agg_types0 = ∅)
    then match detected_order_type with
         | Some t => if PyStr.truthy t then {[ t ]} else ∅
         | None => ∅
         end
    else agg_types0 in
  let agg_categories :=
    if decide (agg_types0 = ∅)
    then agg_categories0 ∪ list_to_set categories
    else agg_categories0 in
  let final_type :=
    if decide (size agg_types = 0) then "sales"
    else if decide (size agg_types = 1) then hd "" (elements agg_types)
         else "mixed" in
  let final_categories :=
    if decide (agg_categories = ∅) then []
    else PyStr.sorted (elements agg_categories) in
  (final_type,
   if decide (final_type = "mixed" /\ final_categories <> [])
   then Some final_categories else None).

(** Codes submitted with the upload form, cleaned before the detection:
    [[code.strip() for code in codes if code and code.strip()]], then
    [sorted(set(...))]. *)
Definition preclean_codes (codes : list string) : list string :=
  PyStr.sorted
    (elements
       (list_to_set
          (omap (fun code =>
                   if PyStr.truthy code && PyStr.truthy (PyStr.strip code)
                   then Some (PyStr.strip code) else None) codes)
        : gset string)).

(** Codes of the line items of two invoices of one order. *)
Definition order_invoices : list (list (option string)) :=
  [ [Some "L1"; Some "L1"; None]; [Some "X9"; Some "S1"] ].

(** ** Display of an order type (order_type_detector.py) *)

Section Display.

(** [str.title()], which the code applies to a type it does not know. *)
Variable title : string -> string.

Definition _format_type_name (order_type : string) : string :=
  if decide (order_type = "labour") then "Labour"
  else if decide (order_type = "service") then "Service"
  else if decide (order_type = "sales") then "Sales"
  else if decide (order_type = "inquiry") then "Inquiry"
  else title order_type.

(** [' and '.join(type_names)] for a mixed order whose list of types is
    given and not empty; the name of [order_type] otherwise.  The argument
    [categories] is not used. *)
Definition get_mixed_order_status_display (order_type : string)
    (order_types_found : option (list string))
    (categories : option (list string)) : string :=
  match order_types_found with
  | Some (t :: l) =>
      if decide (order_type = "mixed")
      then String.concat " and " (_format_type_name <$> PyStr.sorted (t :: l))
      else _format_type_name order_type
  | _ => _format_type_name order_type
  end.

End Display.

(** ** The arithmetic of the decimal context *)

(** An addition or a division of [Decimal]s gives the exact result rounded
    to the precision of the context.  The aggregator is modelled a second
    time with this arithmetic, for the properties that depend on it; the
    rounding is a parameter, and [round28] below is the one of the default
    context (28 significant digits, ties to even). *)

Section DecimalContext.

(** The rounding of the context. *)
Variable round : Decimal -> Decimal.

(** [x + y] *)
Definition ctx_add (x y : Decimal) : Decimal := round (x + y)%Qc.

(** [x / y] *)
Definition ctx_div (x y : Decimal) : Decimal := round (x / y)%Qc.

(** [sum(l)]: Python adds from the left, starting at 0. *)
Definition ctx_sum (l : list Decimal) : Decimal := foldl ctx_add 0%Qc l.

(** "Accumulate quantities and values": the updates of [bucket[key]]. *)
Definition bucket_acc_ctx (it : Extracted.item) (e : Bucket.entry)
  : Bucket.entry :=
  {| Bucket.code := Bucket.code e;
     Bucket.description := Bucket.description e;
     Bucket.qty := ctx_add (Bucket.qty e) (item_qty it);
     Bucket.unit :=
       if opt_truthy (item_unit it) && negb (opt_truthy (Bucket.unit e))
       then item_unit it else Bucket.unit e;
     Bucket.rates := append_if_truthy (Bucket.rates e) (item_rate it);
     Bucket.values := append_if_truthy (Bucket.values e) (item_value it) |}.

(** One iteration of [for it in items_list]. *)
Definition aggregate_step_ctx (bucket : list (string * Bucket.entry))
    (it : Extracted.item) : list (string * Bucket.entry) :=
  let key := item_key it in
  let e :=
    match ODict.get key bucket with
    | Some e => e
    | None => bucket_init it
    end in
  ODict.set key (bucket_acc_ctx it e) bucket.

(** The bucket after the first loop. *)
Definition aggregate_bucket_ctx (items_list : list Extracted.item)
  : list (string * Bucket.entry) :=
  foldl aggregate_step_ctx [] items_list.

Definition unit_price_of_ctx (v : Bucket.entry) : Decimal :=
  let final_qty := final_qty_of v in
  match Bucket.rates v, Bucket.values v with
  | _ :: _, _ =>
      ctx_div (ctx_sum (Bucket.rates v))
              (dec (Z.of_nat (length (Bucket.rates v))))
  | [], _ :: _ =>
      let total_value := ctx_sum (Bucket.values v) in
      if dec_pos final_qty then ctx_div total_value final_qty else 0%Qc
  | [], [] => 0%Qc
  end.

(** One iteration of [for v in bucket.values()]: the dict appended to [out]. *)
Definition finalize_ctx (v : Bucket.entry) : Agg.line :=
  {| Agg.code := Bucket.code v;
     Agg.description := Bucket.description v;
     Agg.qty := final_qty_of v;
     Agg.unit := Bucket.unit v;
     Agg.unit_price := unit_price_of_ctx v |}.

(** The output with the bucket key of each element kept next to it. *)
Definition aggregate_keyed_ctx (items_list : list Extracted.item)
  : list (string * Agg.line) :=
  prod_map id finalize_ctx <$> aggregate_bucket_ctx items_list.

(** [_aggregate_items] with the arithmetic of the context. *)
Definition _aggregate_items_ctx (items_list : list Extracted.item)
  : list Agg.line :=
  finalize_ctx <$> ODict.values (aggregate_bucket_ctx items_list).

(** An output line with its unit price rounded. *)
Definition round_price (a : Agg.line) : Agg.line :=
  {| Agg.code := Agg.code a;
     Agg.description := Agg.description a;
     Agg.qty := Agg.qty a;
     Agg.unit := Agg.unit a;
     Agg.unit_price := round (Agg.unit_price a) |}.

(** No addition of numbers of [l] is rounded, in whatever order they are
    added: the exact sum of any of them is left unchanged by the rounding
    (it has no more significant digits than the context keeps). *)
Definition sums_exact (l : list Decimal) : Prop :=
  forall l', l' ⊆+ l -> round (dec_sum l') = dec_sum l'.

End DecimalContext.

(** All the lists made of elements of [l] in the order of [l]. *)
Fixpoint sublists {A : Type} (l : list A) : list (list A) :=
  match l with
  | [] => [[]]
  | x :: l' => sublists l' ++ (cons x <$> sublists l')
  end.

(** [sums_exact] as a test. *)
Definition sums_exactb (round : Decimal -> Decimal) (l : list Decimal) : bool :=
  forallb (fun l' => Qc_eq_bool (round (dec_sum l')) (dec_sum l')) (sublists l).

(** Number of decimal digits of a positive integer. *)
Fixpoint digits_upto (fuel : nat) (m : Z) : Z :=
  match fuel with
  | O => 1
  | S f => if (m <? 10)%Z then 1%Z else (1 + digits_upto f (m / 10))%Z
  end.

Definition num_digits (m : Z) : Z := digits_upto (Z.to_nat (Z.log2 m)) m.

(** The integer nearest to [c], the even one of the two when [c] is half way
    (ROUND_HALF_EVEN); [c] is not negative. *)
Definition round_half_even (c : Q) : Z :=
  let q := (Qnum c / Zpos (Qden c))%Z in
  match ((c - inject_Z q) ?= 1 # 2)%Q with
  | Lt => q
  | Gt => (q + 1)%Z
  | Eq => if Z.even q then q else (q + 1)%Z
  end.

(** [x] rounded to [prec] significant digits: with [fl] the exponent of the
    first digit of [x], the coefficient [|x| / 10^e] for [e = fl - (prec - 1)]
    has [prec] digits before the point and is rounded to an integer. *)
Definition round_prec (prec : Z) (x : Decimal) : Decimal :=
  let a : Q := if Qle_bool 0 x then this x else (- this x)%Q in
  if Qeq_bool a 0 then 0%Qc
  else
    let k0 := (num_digits (Qnum a) - num_digits (Zpos (Qden a)))%Z in
    let fl := if Qle_bool (Qpower (inject_Z 10) k0) a then k0
              else (k0 - 1)%Z in
    let e := (fl - (prec - 1))%Z in
    let m := round_half_even (a / Qpower (inject_Z 10) e) in
    let r := (inject_Z m * Qpower (inject_Z 10) e)%Q in
    Q2Qc (if Qle_bool 0 x then r else (- r)%Q).

(** The rounding of the default context: [prec=28, rounding=ROUND_HALF_EVEN]. *)
Definition round28 : Decimal -> Decimal := round_prec 28.

(** [Decimal('1E+28')] *)
Definition dec_1e28 : Decimal := dec (10 ^ 28).

(** Items of one key whose quantities do not add up exactly in 28 digits. *)
Definition big_qty_items : list Extracted.item :=
  [ mk_item (Some "A") (Some "Part") (PyNum dec_1e28) PyNone PyNone;
    mk_item (Some "A") (Some "Part") (PyNum (dec 4)) PyNone PyNone;
    mk_item (Some "A") (Some "Part") (PyNum (dec 4)) PyNone PyNone ].

Definition big_qty_items_reordered : list Extracted.item :=
  [ mk_item (Some "A") (Some "Part") (PyNum (dec 4)) PyNone PyNone;
    mk_item (Some "A") (Some "Part") (PyNum (dec 4)) PyNone PyNone;
    mk_item (Some "A") (Some "Part") (PyNum dec_1e28) PyNone PyNone ].

(** Items of one key, the first with the text of a zero as quantity. *)
Definition zero_text_items : list Extracted.item :=
  [ mk_item (Some "A") (Some "Part") (PyStr "0") PyNone PyNone;
    mk_item (Some "A") (Some "Part") (PyNum (dec 3)) PyNone PyNone ].

(** * Properties *)

Local Open Scope list_scope.

(** Equalities between closed terms that contain decimals: evaluate, then
    compare the fractions. *)
Ltac dec_compute :=
  vm_compute;
  repeat lazymatch goal with
         | |- @eq Qc _ _ => apply Qc_is_canon; reflexivity
         | |- _ => first [reflexivity | f_equal]
         end.

(** ** Category normalizer *)

Lemma normalize_cases (category : option string) :
  _normalize_category_to_order_type category = "labour"
  \/ _normalize_category_to_order_type category = "service"
  \/ _normalize_category_to_order_type category = "unspecified".
Proof.
  unfold _normalize_category_to_order_type.
  destruct category as [c|]; [|by auto].
  destruct (negb (PyStr.truthy c)); [by auto|].
  destruct (decide _); [by auto|].
  destruct (_ || _); auto.
Qed.

Lemma truthy_nonempty (s : string) : PyStr.truthy s = true <-> s <> "".
Proof.
  unfold PyStr.truthy. destruct s; simpl; split; intros; congruence.
Qed.

Lemma truthy_empty (s : string) : PyStr.truthy s = false <-> s = "".
Proof.
  unfold PyStr.truthy. destruct s; simpl; split; intros; congruence.
Qed.

(** [contains] is the substring test. *)
Lemma prefix_spec (sub s : string) :
  String.prefix sub s = true <-> exists post, s = (sub ++ post)%string.
Proof.
  revert sub. induction s as [|c' s IH]; intros [|c sub]; simpl.
  - split; [intros _; by exists "" | done].
  - split; [done | by intros [? ?]].
  - split; [intros _; by exists (String c' s) | done].
  - destruct (Ascii.ascii_dec c c') as [->|Hne].
    + rewrite IH. split; intros [post H]; exists post.
      * by rewrite H.
      * by injection H.
    + split; [done | intros [post H]; by injection H].
Qed.

Lemma contains_spec (sub s : string) :
  PyStr.contains sub s = true
  <-> exists pre post, s = (pre ++ sub ++ post)%string.
Proof.
  induction s as [|c s IH].
  - change (PyStr.contains sub "") with (String.prefix sub "" || false).
    rewrite orb_true_iff, prefix_spec. split.
    + intros [[post H] | ?]; [by exists "", post | done].
    + intros (pre & post & H). left. exists post.
      destruct pre; [done | discriminate H].
  - change (PyStr.contains sub (String c s))
      with (String.prefix sub (String c s) || PyStr.contains sub s).
    rewrite orb_true_iff, prefix_spec, IH. split.
    + intros [[post H] | (pre & post & ->)].
      * by exists "", post.
      * by exists (String c pre), post.
    + intros (pre & post & H). destruct pre as [|c' pre]; simpl in H.
      * left. by exists post.
      * right. injection H as -> ->. by exists pre, post.
Qed.

(** C5. The normalizer is a total function into {labour, service,
    unspecified}: [None] and the empty string give unspecified; a non-empty
    category whose lower-cased, stripped text is "labour" gives labour;
    otherwise one whose text contains "tyre" or "service" gives service; every
    other non-empty category gives labour ("Brake Pads" among them). *)
Theorem normalize_total_mapping (category : option string) :
  let r := _normalize_category_to_order_type category in
  (r = "labour" \/ r = "service" \/ r = "unspecified")
  /\ (category = None \/ category = Some "" -> r = "unspecified")
  /\ (forall c, category = Some c -> c <> "" ->
      let category_lower := PyStr.strip (PyStr.lower c) in
      (category_lower = "labour" -> r = "labour")
      /\ (category_lower <> "labour" ->
          PyStr.contains "tyre" category_lower = true
          \/ PyStr.contains "service" category_lower = true ->
          r = "service")
      /\ (category_lower <> "labour" ->
          PyStr.contains "tyre" category_lower = false ->
          PyStr.contains "service" category_lower = false ->
          r = "labour"))
  /\ _normalize_category_to_order_type (Some "LABOUR") = "labour"
  /\ _normalize_category_to_order_type (Some "Tyre Service") = "service"
  /\ _normalize_category_to_order_type (Some "Brake Pads") = "labour".
Proof.
  cbv zeta. split; [apply normalize_cases|].
  split; [by intros [-> | ->]|].
  split; [|by vm_compute].
  intros c -> Hc. apply truthy_nonempty in Hc.
  unfold _normalize_category_to_order_type. rewrite Hc. simpl negb. cbv iota.
  repeat split.
  - intros ->. reflexivity.
  - intros Hn Hsub. destruct (decide _); [done|].
    destruct Hsub as [-> | ->]; [reflexivity|].
    by rewrite orb_true_r.
  - intros Hn -> ->. by destruct (decide _).
Qed.

(** ** Ordered dicts *)

Section ODictFacts.
Context {V : Type}.
Implicit Types (d : list (string * V)) (k : string) (v : V).

Lemma odict_get_set_eq k v d : ODict.get k (ODict.set k v d) = Some v.
Proof.
  induction d as [|[k' v'] d IH]; simpl.
  - by rewrite decide_True.
  - destruct (decide (k = k')) as [->|Hne]; simpl.
    + by rewrite decide_True.
    + by rewrite decide_False.
Qed.

Lemma odict_get_set_ne k k' v d :
  k <> k' -> ODict.get k' (ODict.set k v d) = ODict.get k' d.
Proof.
  intros Hne. induction d as [|[k0 v0] d IH]; simpl.
  - by rewrite decide_False.
  - destruct (decide (k = k0)) as [->|Hne0]; simpl.
    + by rewrite !decide_False.
    + by rewrite IH.
Qed.

Lemma odict_get_None k d : ODict.get k d = None <-> k ∉ ODict.keys d.
Proof.
  unfold ODict.keys. induction d as [|[k' v'] d IH]; simpl.
  - split; [intros _; apply not_elem_of_nil | done].
  - rewrite not_elem_of_cons. destruct (decide (k = k')) as [->|Hne].
    + split; [done | by intros [? _]].
    + rewrite IH. tauto.
Qed.

Lemma odict_get_is_Some k d : is_Some (ODict.get k d) <-> k ∈ ODict.keys d.
Proof.
  rewrite <- not_eq_None_Some, odict_get_None.
  split; [apply dec_stable | auto].
Qed.

Lemma odict_set_present k v d :
  k ∈ ODict.keys d -> ODict.keys (ODict.set k v d) = ODict.keys d.
Proof.
  unfold ODict.keys. induction d as [|[k' v'] d IH]; simpl.
  - by intros ?%elem_of_nil.
  - intros Hin. destruct (decide (k = k')) as [->|Hne]; simpl; [done|].
    f_equal. apply IH. by apply elem_of_cons in Hin as [?|?].
Qed.

Lemma odict_set_absent k v d :
  k ∉ ODict.keys d -> ODict.set k v d = d ++ [(k, v)].
Proof.
  unfold ODict.keys. induction d as [|[k' v'] d IH]; simpl; [done|].
  rewrite not_elem_of_cons. intros [Hne Hnin].
  rewrite decide_False by done. by rewrite IH.
Qed.

Lemma odict_set_keys_NoDup k v d :
  NoDup (ODict.keys d) -> NoDup (ODict.keys (ODict.set k v d)).
Proof.
  intros Hnd. destruct (decide (k ∈ ODict.keys d)) as [Hin|Hnin].
  - by rewrite odict_set_present.
  - rewrite odict_set_absent by done. unfold ODict.keys in *.
    rewrite fmap_app. simpl. apply NoDup_app. split; [done|].
    split; [|apply NoDup_singleton].
    intros x Hx ->%list_elem_of_singleton. done.
Qed.

Lemma odict_elem_of_set_keys k k' v d :
  k' ∈ ODict.keys (ODict.set k v d) <-> k' = k \/ k' ∈ ODict.keys d.
Proof.
  rewrite <- !odict_get_is_Some. destruct (decide (k = k')) as [->|Hne].
  - rewrite odict_get_set_eq. split; [auto | by eauto].
  - rewrite odict_get_set_ne by done. split; [auto | by intros [->|?]].
Qed.

Lemma odict_get_elem_of k v d :
  NoDup (ODict.keys d) -> (k, v) ∈ d -> ODict.get k d = Some v.
Proof.
  unfold ODict.keys. induction d as [|[k' v'] d IH]; simpl.
  - by intros _ ?%elem_of_nil.
  - intros [Hnin Hnd]%NoDup_cons [Heq|Hin]%elem_of_cons.
    + injection Heq as -> ->. by rewrite decide_True.
    + rewrite decide_False; [by apply IH|].
      intros ->. apply Hnin. apply list_elem_of_fmap. by exists (k', v).
Qed.

Lemma odict_elem_of_get k v d : ODict.get k d = Some v -> (k, v) ∈ d.
Proof.
  induction d as [|[k' v'] d IH]; simpl; [done|].
  destruct (decide (k = k')) as [->|Hne].
  - intros [= ->]. apply elem_of_cons. by left.
  - intros ?. apply elem_of_cons. right. by apply IH.
Qed.

End ODictFacts.

Lemma odict_get_fmap {V W : Type} (f : V -> W) k (d : list (string * V)) :
  ODict.get k (prod_map id f <$> d) = f <$> ODict.get k d.
Proof.
  induction d as [|[k' v'] d IH]; simpl; [done|].
  destruct (decide (k = k')); [done | apply IH].
Qed.

Lemma odict_keys_fmap {V W : Type} (f : V -> W) (d : list (string * V)) :
  ODict.keys (prod_map id f <$> d) = ODict.keys d.
Proof.
  unfold ODict.keys. rewrite <- list_fmap_compose.
  apply list_fmap_ext. by intros ? [? ?].
Qed.

(** ** The bucket, group by group *)

Lemma aggregate_bucket_snoc items it :
  aggregate_bucket (items ++ [it])
  = aggregate_step (aggregate_bucket items) it.
Proof. unfold aggregate_bucket. apply foldl_snoc. Qed.

Lemma group_snoc k items it :
  group k (items ++ [it])
  = group k items ++ (if decide (item_key it = k) then [it] else []).
Proof.
  unfold group. by rewrite filter_app.
Qed.

Lemma entry_of_group_snoc g it :
  entry_of_group (g ++ [it])
  = Some (bucket_acc it (default (bucket_init it) (entry_of_group g))).
Proof.
  destruct g as [|x g]; simpl; [done|].
  by rewrite foldl_snoc.
Qed.

(** The bucket maps each key to the entry of its group. *)
Lemma aggregate_bucket_get k items :
  ODict.get k (aggregate_bucket items) = entry_of_group (group k items).
Proof.
  induction items as [|it items IH] using rev_ind; [done|].
  rewrite aggregate_bucket_snoc, group_snoc. unfold aggregate_step.
  destruct (decide (item_key it = k)) as [<-|Hne].
  - rewrite odict_get_set_eq, entry_of_group_snoc, <- IH.
    by destruct (ODict.get _ _).
  - rewrite odict_get_set_ne by done. by rewrite app_nil_r.
Qed.

Lemma aggregate_bucket_NoDup items :
  NoDup (ODict.keys (aggregate_bucket items)).
Proof.
  induction items as [|it items IH] using rev_ind; [apply NoDup_nil_2|].
  rewrite aggregate_bucket_snoc. by apply odict_set_keys_NoDup.
Qed.

Lemma aggregate_bucket_keys k items :
  k ∈ ODict.keys (aggregate_bucket items) <-> k ∈ (item_key <$> items).
Proof.
  induction items as [|it items IH] using rev_ind; [done|].
  rewrite aggregate_bucket_snoc. unfold aggregate_step.
  rewrite odict_elem_of_set_keys, IH, fmap_app, elem_of_app.
  simpl. rewrite list_elem_of_singleton. tauto.
Qed.

Lemma aggregate_items_keyed items :
  _aggregate_items items = snd <$> aggregate_keyed items.
Proof.
  unfold _aggregate_items, aggregate_keyed, ODict.values.
  rewrite <- !list_fmap_compose. apply list_fmap_ext. by intros ? [? ?].
Qed.

Lemma aggregate_keyed_get k items :
  ODict.get k (aggregate_keyed items)
  = finalize <$> entry_of_group (group k items).
Proof.
  unfold aggregate_keyed. by rewrite odict_get_fmap, aggregate_bucket_get.
Qed.

(** ** The fields of a group's entry *)

Lemma dec_sum_from (a : Decimal) (l : list Decimal) :
  foldl Qcplus a l = (a + dec_sum l)%Qc.
Proof.
  unfold dec_sum. revert a. induction l as [|x l IH]; intros a; simpl.
  - ring.
  - rewrite (IH (a + x)%Qc), (IH (0 + x)%Qc). ring.
Qed.

Lemma dec_sum_cons (x : Decimal) (l : list Decimal) :
  dec_sum (x :: l) = (x + dec_sum l)%Qc.
Proof. unfold dec_sum at 1. simpl. rewrite dec_sum_from. ring. Qed.

Lemma dec_sum_Permutation (l1 l2 : list Decimal) :
  l1 ≡ₚ l2 -> dec_sum l1 = dec_sum l2.
Proof.
  induction 1 as [|x l1 l2 _ IH|x y l|l1 l2 l3 _ IH1 _ IH2].
  - done.
  - by rewrite !dec_sum_cons, IH.
  - rewrite !dec_sum_cons. ring.
  - by rewrite IH1.
Qed.

Lemma append_if_truthy_nonzero (l : list Decimal) (x : option Decimal) :
  append_if_truthy l x = l ++ option_list (nonzero x).
Proof.
  unfold append_if_truthy, nonzero. destruct x as [d|]; simpl.
  - destruct (negb _); simpl; [done | by rewrite app_nil_r].
  - by rewrite app_nil_r.
Qed.

Section GroupFold.
Implicit Types (e : Bucket.entry) (g : list Extracted.item).

Local Abbreviation acc := (fun e (x : Extracted.item) => bucket_acc x e).

Lemma fold_code e g : Bucket.code (foldl acc e g) = Bucket.code e.
Proof. revert e. induction g as [|x g IH]; intros e; [done|]. simpl. by rewrite IH. Qed.

Lemma fold_description e g :
  Bucket.description (foldl acc e g) = Bucket.description e.
Proof. revert e. induction g as [|x g IH]; intros e; [done|]. simpl. by rewrite IH. Qed.

Lemma fold_qty e g :
  Bucket.qty (foldl acc e g) = (Bucket.qty e + qty_sum g)%Qc.
Proof.
  unfold qty_sum. revert e. induction g as [|x g IH]; intros e.
  - unfold dec_sum. simpl. ring.
  - simpl foldl. rewrite IH, fmap_cons, dec_sum_cons. simpl. ring.
Qed.

Lemma fold_rates e g :
  Bucket.rates (foldl acc e g) = Bucket.rates e ++ collected_rates g.
Proof.
  unfold collected_rates. revert e. induction g as [|x g IH]; intros e.
  - simpl. by rewrite app_nil_r.
  - simpl foldl. rewrite IH. simpl. rewrite append_if_truthy_nonzero.
    rewrite <- app_assoc. f_equal. by destruct (nonzero _).
Qed.

Lemma fold_values e g :
  Bucket.values (foldl acc e g) = Bucket.values e ++ collected_values g.
Proof.
  unfold collected_values. revert e. induction g as [|x g IH]; intros e.
  - simpl. by rewrite app_nil_r.
  - simpl foldl. rewrite IH. simpl. rewrite append_if_truthy_nonzero.
    rewrite <- app_assoc. f_equal. by destruct (nonzero _).
Qed.

End GroupFold.

(** ** The output line of a group *)

Lemma clamp_qty_pos (q : Decimal) : (0 < clamp_qty q)%Qc.
Proof.
  unfold clamp_qty, dec_pos. case_bool_decide; [done | reflexivity].
Qed.

Lemma dec_pos_clamp_qty (q : Decimal) : dec_pos (clamp_qty q) = true.
Proof. apply bool_decide_eq_true, clamp_qty_pos. Qed.

Lemma unit_price_of_eq (e : Bucket.entry) :
  unit_price_of e
  = match Bucket.rates e, Bucket.values e with
    | _ :: _, _ => mean (Bucket.rates e)
    | [], _ :: _ =>
        (dec_sum (Bucket.values e) / clamp_qty (Bucket.qty e))%Qc
    | [], [] => 0%Qc
    end.
Proof.
  unfold unit_price_of, final_qty_of. fold (clamp_qty (Bucket.qty e)).
  rewrite dec_pos_clamp_qty. by destruct (Bucket.rates e), (Bucket.values e).
Qed.

Lemma qty_sum_cons it g : qty_sum (it :: g) = (item_qty it + qty_sum g)%Qc.
Proof. unfold qty_sum. by rewrite fmap_cons, dec_sum_cons. Qed.

Lemma entry_of_group_Some g e :
  entry_of_group g = Some e ->
  exists it g', g = it :: g'
    /\ e = foldl (fun e x => bucket_acc x e) (bucket_init it) g.
Proof.
  destruct g as [|it g']; [done|]. unfold entry_of_group.
  intros H. exists it, g'. split; [done | congruence].
Qed.

Lemma entry_of_group_qty g e :
  entry_of_group g = Some e -> Bucket.qty e = qty_sum g.
Proof.
  intros (it & g' & _ & ->)%entry_of_group_Some.
  rewrite fold_qty. simpl. ring.
Qed.

Lemma entry_of_group_rates g e :
  entry_of_group g = Some e -> Bucket.rates e = collected_rates g.
Proof.
  intros (it & g' & _ & ->)%entry_of_group_Some. by rewrite fold_rates.
Qed.

Lemma entry_of_group_values g e :
  entry_of_group g = Some e -> Bucket.values e = collected_values g.
Proof.
  intros (it & g' & _ & ->)%entry_of_group_Some. by rewrite fold_values.
Qed.

Lemma entry_of_group_head it g e :
  entry_of_group (it :: g) = Some e ->
  Bucket.code e = str_or_none (item_code_of it)
  /\ Bucket.description e = item_desc it.
Proof.
  intros (it' & g' & [= <- <-] & ->)%entry_of_group_Some.
  by rewrite fold_code, fold_description.
Qed.

Lemma item_unit_truthy it u : item_unit it = Some u -> PyStr.truthy u = true.
Proof.
  unfold item_unit, strip_or_none.
  destruct (PyStr.truthy _) eqn:E; [|done]. by intros [= <-].
Qed.

Lemma fold_unit e g :
  (forall u, Bucket.unit e = Some u -> PyStr.truthy u = true) ->
  Bucket.unit (foldl (fun e x => bucket_acc x e) e g)
  = match Bucket.unit e with
    | Some u => Some u
    | None => first_unit g
    end.
Proof.
  unfold first_unit. revert e. induction g as [|x g IH]; intros e He.
  - simpl. by destruct (Bucket.unit e).
  - simpl foldl. rewrite IH.
    + simpl. destruct (Bucket.unit e) as [u|] eqn:Eu.
      * unfold opt_truthy at 2. rewrite (He u eq_refl). simpl.
        by rewrite andb_false_r.
      * simpl. rewrite andb_true_r.
        destruct (item_unit x) as [u|] eqn:Ex; simpl; [|done].
        by rewrite (item_unit_truthy x u Ex).
    + intros u. simpl. destruct (_ && _); [apply item_unit_truthy | apply He].
Qed.

(** The unit of a group's entry is the first unit of the group that is not
    [None]. *)
Lemma entry_of_group_unit g e :
  entry_of_group g = Some e -> Bucket.unit e = first_unit g.
Proof.
  intros (it & g' & -> & ->)%entry_of_group_Some.
  rewrite fold_unit by (simpl; apply item_unit_truthy).
  unfold first_unit. simpl. by destruct (item_unit it).
Qed.

Lemma entry_of_group_is_Some g : g <> [] -> is_Some (entry_of_group g).
Proof. destruct g; [done | by eexists]. Qed.

(** The quantity and the unit price of the line of a group. *)
Lemma group_line_qty g e :
  entry_of_group g = Some e -> Agg.qty (finalize e) = clamp_qty (qty_sum g).
Proof. intros H. simpl. unfold final_qty_of. by rewrite (entry_of_group_qty g e H). Qed.

Lemma group_line_unit_price g e :
  entry_of_group g = Some e ->
  Agg.unit_price (finalize e)
  = match collected_rates g, collected_values g with
    | _ :: _, _ => mean (collected_rates g)
    | [], _ :: _ =>
        (dec_sum (collected_values g) / clamp_qty (qty_sum g))%Qc
    | [], [] => 0%Qc
    end.
Proof.
  intros H. simpl. rewrite unit_price_of_eq.
  by rewrite (entry_of_group_qty g e H), (entry_of_group_rates g e H),
    (entry_of_group_values g e H).
Qed.

(** Every output line is the line of the group of some key. *)
Lemma aggregate_items_elem_of items a :
  a ∈ _aggregate_items items <->
  exists k e, entry_of_group (group k items) = Some e /\ a = finalize e.
Proof.
  unfold _aggregate_items, ODict.values. rewrite list_elem_of_fmap. split.
  - intros (e & -> & [[k e'] [-> Hin]]%list_elem_of_fmap). exists k, e'.
    split; [|done]. rewrite <- aggregate_bucket_get.
    apply odict_get_elem_of; [apply aggregate_bucket_NoDup | done].
  - intros (k & e & He & ->). exists e. split; [done|].
    rewrite <- aggregate_bucket_get in He. apply odict_elem_of_get in He.
    apply list_elem_of_fmap. by exists (k, e).
Qed.

(** ** Unit price *)



(** ** Quantity *)

(** C7, counterexample. Two items of one key with qty 3 and -5 give the
    quantity 1, not 4: the negative quantity enters the sum as it is and the
    sum is clamped. *)
Lemma negative_qty_not_clamped_per_item :
  (Agg.qty <$> _aggregate_items qty_items) = [dec 1]
  /\ spec_qty qty_items = dec 4
  /\ (Agg.qty <$> _aggregate_items qty_items) <> [dec 4].
Proof.
  split; [dec_compute|]. split; [dec_compute|].
  intros H. vm_compute in H. discriminate H.
Qed.

Lemma item_qty_cases (it : Extracted.item) :
  (Extracted.qty it = PyNone \/ Extracted.qty it = PyNum 0%Qc
   \/ Extracted.qty it = PyStr "" -> item_qty it = 1%Qc)
  /\ (forall s, Extracted.qty it = PyStr s -> PyDecimal.of_str s = None ->
      item_qty it = 1%Qc)
  /\ (forall s d, Extracted.qty it = PyStr s -> PyDecimal.of_str s = Some d ->
      item_qty it = d)
  /\ (forall d, Extracted.qty it = PyNum d -> d <> 0%Qc -> item_qty it = d).
Proof.
  unfold item_qty. repeat split.
  - by intros [-> | [-> | ->]].
  - intros s -> Hs. unfold py_or. simpl. destruct (PyStr.truthy s); simpl; by rewrite ?Hs.
  - intros s d -> Hs. unfold py_or. simpl.
    destruct (PyStr.truthy s) eqn:Et; simpl; [by rewrite Hs|].
    apply truthy_empty in Et. by rewrite Et in Hs.
  - intros d -> Hd. unfold py_or. simpl.
    destruct (Qc_eq_bool d 0) eqn:E; [|done].
    by apply Qc_eq_bool_correct in E.
Qed.

Lemma final_qty_of_pos (e : Bucket.entry) : (0 < final_qty_of e)%Qc.
Proof. apply clamp_qty_pos. Qed.

(** C7 (amended). The quantity of an item is 1 when it is absent, a number
    equal to zero, the empty text or a text that is no decimal numeral.  It
    is the parsed number otherwise, for a text as for a number: a negative
    one stays negative, and the text of a zero gives 0, not 1.  It is added
    as it is to the running sum of its group; the quantity of the group's
    line is that sum, or 1 when the sum is zero or negative, so every output
    quantity is positive, with exact sums and with the rounding of the
    context alike.  Two items of one key with qty 3 and -5 give the quantity
    1; with qty '0' and 3 they give 3. *)
Theorem qty_rule (items : list Extracted.item) (k : string) :
  (forall it : Extracted.item,
      (Extracted.qty it = PyNone \/ Extracted.qty it = PyNum 0%Qc
       \/ Extracted.qty it = PyStr "" -> item_qty it = 1%Qc)
      /\ (forall s, Extracted.qty it = PyStr s -> PyDecimal.of_str s = None ->
          item_qty it = 1%Qc)
      /\ (forall s d, Extracted.qty it = PyStr s ->
          PyDecimal.of_str s = Some d -> item_qty it = d)
      /\ (forall d, Extracted.qty it = PyNum d -> d <> 0%Qc -> item_qty it = d))
  /\ (Agg.qty <$> ODict.get k (aggregate_keyed items))
     = match group k items with
       | [] => None
       | _ :: _ =>
           Some (if dec_pos (qty_sum (group k items))
                 then qty_sum (group k items) else 1%Qc)
       end
  /\ Forall (fun a => (0 < Agg.qty a)%Qc) (_aggregate_items items)
  /\ (forall round : Decimal -> Decimal,
        Forall (fun a => (0 < Agg.qty a)%Qc) (_aggregate_items_ctx round items))
  /\ (Agg.qty <$> _aggregate_items qty_items) = [dec 1]
  /\ PyDecimal.of_str "0" = Some 0%Qc
  /\ (item_qty <$> zero_text_items) = [0%Qc; dec 3]
  /\ (Agg.qty <$> _aggregate_items zero_text_items) = [dec 3].
Proof.
  split; [apply item_qty_cases|].
  split; [|split; [|split; [|repeat split; dec_compute]]].
  - rewrite aggregate_keyed_get.
    destruct (group k items) as [|it g'] eqn:Hg; [done|].
    destruct (entry_of_group_is_Some (it :: g')) as [e He]; [done|].
    rewrite He. fold (clamp_qty (qty_sum (it :: g'))).
    by rewrite <- (group_line_qty _ _ He).
  - apply Forall_forall. intros a (k' & e & He & ->)%aggregate_items_elem_of.
    rewrite (group_line_qty _ _ He). apply clamp_qty_pos.
  - intros round. apply Forall_forall.
    intros a (e & -> & _)%list_elem_of_fmap. apply final_qty_of_pos.
Qed.

(** ** Permutations of the input *)

(** C8, counterexample. The description and the unit of a line are those
    seen first in its group, so they change with the order of the input.
    With the arithmetic of the default context the quantity changes too when
    an addition is rounded: 1E+28, 4, 4 add up to 1E+28 and 4, 4, 1E+28 to
    1.000000000000000000000000001E+28. *)
Lemma first_seen_fields_depend_on_order :
  desc_items ≡ₚ reverse desc_items
  /\ (Agg.description <$> _aggregate_items desc_items) = ["Front pad"]
  /\ (Agg.description <$> _aggregate_items (reverse desc_items))
     = ["Rear pad"]
  /\ unit_items ≡ₚ reverse unit_items
  /\ (Agg.unit <$> _aggregate_items unit_items) = [Some "PCS"]
  /\ (Agg.unit <$> _aggregate_items (reverse unit_items)) = [Some "BOX"]
  /\ (Agg.description <$> _aggregate_items_ctx round28 desc_items)
     = ["Front pad"]
  /\ (Agg.description <$> _aggregate_items_ctx round28 (reverse desc_items))
     = ["Rear pad"]
  /\ big_qty_items ≡ₚ big_qty_items_reordered
  /\ (Agg.qty <$> _aggregate_items_ctx round28 big_qty_items) = [dec_1e28]
  /\ (Agg.qty <$> _aggregate_items_ctx round28 big_qty_items_reordered)
     = [(dec_1e28 + dec 10)%Qc].
Proof.
  repeat split; try (by vm_compute); try apply perm_swap; try dec_compute.
  unfold big_qty_items, big_qty_items_reordered.
  etrans; [apply perm_swap|]. apply perm_skip, perm_swap.
Qed.

Lemma mean_Permutation (l1 l2 : list Decimal) : l1 ≡ₚ l2 -> mean l1 = mean l2.
Proof.
  intros H. unfold mean. by rewrite (dec_sum_Permutation _ _ H), H.
Qed.

Lemma qty_sum_Permutation g g' : g ≡ₚ g' -> qty_sum g = qty_sum g'.
Proof. intros H. unfold qty_sum. apply dec_sum_Permutation. by rewrite H. Qed.

Lemma group_line_Permutation g g' e e' :
  g ≡ₚ g' -> entry_of_group g = Some e -> entry_of_group g' = Some e' ->
  qty_and_price (finalize e) = qty_and_price (finalize e').
Proof.
  intros Hp He He'. unfold qty_and_price.
  rewrite (group_line_qty _ _ He), (group_line_qty _ _ He').
  rewrite (group_line_unit_price _ _ He), (group_line_unit_price _ _ He').
  rewrite (qty_sum_Permutation _ _ Hp). f_equal.
  assert (collected_rates g ≡ₚ collected_rates g') as Hr
    by (unfold collected_rates; by rewrite Hp).
  assert (collected_values g ≡ₚ collected_values g') as Hv
    by (unfold collected_values; by rewrite Hp).
  destruct (collected_rates g) as [|r rs] eqn:Er.
  - apply Permutation_nil_l in Hr. rewrite <- Hr.
    destruct (collected_values g) as [|v vs] eqn:Ev.
    + apply Permutation_nil_l in Hv. by rewrite <- Hv.
    + destruct (collected_values g') as [|v' vs'] eqn:Ev'.
      * by apply Permutation_nil_r in Hv.
      * by rewrite (dec_sum_Permutation _ _ Hv).
  - destruct (collected_rates g') as [|r' rs'] eqn:Er'.
    + by apply Permutation_nil_r in Hr.
    + by apply mean_Permutation.
Qed.

Lemma keyed_get_Permutation items items' k :
  items ≡ₚ items' ->
  qty_and_price <$> ODict.get k (aggregate_keyed items)
  = qty_and_price <$> ODict.get k (aggregate_keyed items').
Proof.
  intros Hp. rewrite !aggregate_keyed_get.
  assert (group k items ≡ₚ group k items') as Hg
    by (unfold group; by rewrite Hp).
  destruct (entry_of_group (group k items)) as [e|] eqn:He;
    destruct (entry_of_group (group k items')) as [e'|] eqn:He'; simpl.
  - f_equal. by apply (group_line_Permutation _ _ _ _ Hg).
  - destruct (group k items'); [|done].
    apply Permutation_nil_r in Hg. by rewrite Hg in He.
  - destruct (group k items); [|done].
    apply Permutation_nil_l in Hg. by rewrite <- Hg in He'.
  - done.
Qed.

Lemma aggregate_keyed_keys items :
  ODict.keys (aggregate_keyed items) = ODict.keys (aggregate_bucket items).
Proof. apply odict_keys_fmap. Qed.

Lemma keyed_summary_elem_of items k p :
  (k, p) ∈ (prod_map id qty_and_price <$> aggregate_keyed items) <->
  qty_and_price <$> ODict.get k (aggregate_keyed items) = Some p.
Proof.
  rewrite <- odict_get_fmap. split.
  - apply odict_get_elem_of.
    rewrite odict_keys_fmap, aggregate_keyed_keys.
    apply aggregate_bucket_NoDup.
  - apply odict_elem_of_get.
Qed.

(** With exact sums, a permutation of the items gives the same keys, and for
    each key the same quantity and the same unit price. *)
Lemma qty_and_price_Permutation (items items' : list Extracted.item) :
  items ≡ₚ items' ->
  (forall k,
      qty_and_price <$> ODict.get k (aggregate_keyed items)
      = qty_and_price <$> ODict.get k (aggregate_keyed items'))
  /\ ODict.keys (aggregate_keyed items) ≡ₚ ODict.keys (aggregate_keyed items')
  /\ (qty_and_price <$> _aggregate_items items)
     ≡ₚ (qty_and_price <$> _aggregate_items items').
Proof.
  intros Hp. split; [intros k; by apply keyed_get_Permutation|]. split.
  - rewrite !aggregate_keyed_keys.
    apply NoDup_Permutation; try apply aggregate_bucket_NoDup.
    intros k. rewrite !aggregate_bucket_keys. by rewrite Hp.
  - rewrite !aggregate_items_keyed.
    assert ((prod_map id qty_and_price <$> aggregate_keyed items)
            ≡ₚ (prod_map id qty_and_price <$> aggregate_keyed items')) as H.
    { apply NoDup_Permutation.
      - apply (NoDup_fmap_1 fst). fold (ODict.keys
          (prod_map id qty_and_price <$> aggregate_keyed items)).
        rewrite odict_keys_fmap, aggregate_keyed_keys.
        apply aggregate_bucket_NoDup.
      - apply (NoDup_fmap_1 fst). fold (ODict.keys
          (prod_map id qty_and_price <$> aggregate_keyed items')).
        rewrite odict_keys_fmap, aggregate_keyed_keys.
        apply aggregate_bucket_NoDup.
      - intros [k p]. rewrite !keyed_summary_elem_of.
        by rewrite (keyed_get_Permutation _ _ k Hp). }
    assert (forall l : list (string * Agg.line),
               qty_and_price <$> (snd <$> l)
               = snd <$> (prod_map id qty_and_price <$> l)) as E.
    { intros l. rewrite <- !list_fmap_compose. apply list_fmap_ext.
      by intros ? [? ?]. }
    rewrite !E. by apply fmap_Permutation.
Qed.

(** ** The aggregator in the arithmetic of the context *)

Lemma sublist_omap {A B : Type} (f : A -> option B) (l1 l2 : list A) :
  l1 `sublist_of` l2 -> omap f l1 `sublist_of` omap f l2.
Proof.
  induction 1 as [|x l1 l2 _ IH|x l1 l2 _ IH]; simpl; [done| |].
  - destruct (f x); [by apply sublist_skip | done].
  - destruct (f x); [by apply sublist_cons | done].
Qed.

Lemma elem_of_sublists {A : Type} (l' l : list A) :
  l' `sublist_of` l -> l' ∈ sublists l.
Proof.
  induction 1 as [|x l1 l2 _ IH|x l1 l2 _ IH]; simpl.
  - by left.
  - apply elem_of_app. right. apply list_elem_of_fmap. by exists l1.
  - apply elem_of_app. by left.
Qed.

(** The test is sound. *)
Lemma sums_exactb_spec (round : Decimal -> Decimal) (l : list Decimal) :
  sums_exactb round l = true -> sums_exact round l.
Proof.
  intros Hb l' (l2 & Hp & Hs%elem_of_sublists)%submseteq_sublist_r.
  unfold sums_exactb in Hb. rewrite forallb_forall in Hb.
  rewrite (dec_sum_Permutation _ _ Hp).
  apply Qc_eq_bool_correct, Hb. by apply list_elem_of_In.
Qed.

Section ContextFacts.

Variable round : Decimal -> Decimal.

Lemma sums_exact_mono (l0 l : list Decimal) :
  l0 ⊆+ l -> sums_exact round l -> sums_exact round l0.
Proof. intros H0 H l' Hl'. apply H. by etrans. Qed.

Lemma sums_exact_zero (l : list Decimal) :
  sums_exact round l -> round 0%Qc = 0%Qc.
Proof. intros H. apply (H []). apply submseteq_nil_l. Qed.

Lemma dec_sum_snoc (l : list Decimal) (x : Decimal) :
  dec_sum (l ++ [x]) = (dec_sum l + x)%Qc.
Proof. unfold dec_sum. by rewrite foldl_snoc. Qed.

(** Where no addition is rounded, [sum] gives the exact sum. *)
Lemma ctx_sum_exact (l : list Decimal) :
  sums_exact round l -> ctx_sum round l = dec_sum l.
Proof.
  induction l as [|x l IH] using rev_ind; intros H; [done|].
  unfold ctx_sum. rewrite foldl_snoc. fold (ctx_sum round l).
  rewrite IH by (eapply sums_exact_mono; [|done];
                 by apply submseteq_inserts_r).
  unfold ctx_add. rewrite <- dec_sum_snoc. by apply H.
Qed.

(** Where no addition of quantities is rounded, the bucket is the one of
    the exact sums. *)
Lemma aggregate_bucket_ctx_exact (items : list Extracted.item) :
  sums_exact round (item_qty <$> items) ->
  aggregate_bucket_ctx round items = aggregate_bucket items.
Proof.
  induction items as [|it items IH] using rev_ind; intros H; [done|].
  rewrite fmap_app in H. cbn [fmap list_fmap] in H.
  unfold aggregate_bucket_ctx. rewrite foldl_snoc.
  fold (aggregate_bucket_ctx round items).
  rewrite IH by (eapply sums_exact_mono; [|done];
                 by apply submseteq_inserts_r).
  rewrite aggregate_bucket_snoc.
  unfold aggregate_step_ctx, aggregate_step. cbv zeta. f_equal.
  rewrite aggregate_bucket_get.
  set (g := group (item_key it) items).
  assert (forall e, Bucket.qty e = qty_sum g ->
                    bucket_acc_ctx round it e = bucket_acc it e) as Hacc.
  { intros e He. unfold bucket_acc_ctx, bucket_acc. f_equal.
    unfold ctx_add. rewrite He. unfold qty_sum. rewrite <- dec_sum_snoc.
    apply H. apply submseteq_app; [|done].
    apply sublist_submseteq, fmap_sublist, sublist_filter. }
  destruct (entry_of_group g) as [e|] eqn:He.
  - apply Hacc. by apply entry_of_group_qty.
  - apply Hacc. by destruct g.
Qed.

(** Where no addition of rates or values is rounded, the unit price is the
    exact quotient, rounded once. *)
Lemma unit_price_of_ctx_exact (e : Bucket.entry) :
  sums_exact round (Bucket.rates e) -> sums_exact round (Bucket.values e) ->
  unit_price_of_ctx round e = round (unit_price_of e).
Proof.
  intros Hr Hv. unfold unit_price_of_ctx, unit_price_of. cbv zeta.
  rewrite (ctx_sum_exact _ Hr), (ctx_sum_exact _ Hv).
  assert (dec_pos (final_qty_of e) = true) as ->
    by apply dec_pos_clamp_qty.
  destruct (Bucket.rates e) as [|r rs]; [|done].
  destruct (Bucket.values e) as [|v vs]; [|done].
  symmetry. by apply (sums_exact_zero []).
Qed.

Lemma collected_rates_group k items :
  collected_rates (group k items) ⊆+ collected_rates items.
Proof. apply sublist_submseteq, sublist_omap, sublist_filter. Qed.

Lemma collected_values_group k items :
  collected_values (group k items) ⊆+ collected_values items.
Proof. apply sublist_submseteq, sublist_omap, sublist_filter. Qed.

(** Where no addition is rounded, the output is the one of the exact sums
    with each unit price rounded. *)
Lemma aggregate_keyed_ctx_exact (items : list Extracted.item) :
  sums_exact round (item_qty <$> items) ->
  sums_exact round (collected_rates items) ->
  sums_exact round (collected_values items) ->
  aggregate_keyed_ctx round items
  = prod_map id (round_price round) <$> aggregate_keyed items.
Proof.
  intros Hq Hr Hv. unfold aggregate_keyed_ctx, aggregate_keyed.
  rewrite (aggregate_bucket_ctx_exact _ Hq), <- list_fmap_compose.
  apply Forall_fmap_ext_1, Forall_forall. intros [k e] Hin.
  apply odict_get_elem_of in Hin; [|apply aggregate_bucket_NoDup].
  rewrite aggregate_bucket_get in Hin.
  unfold compose, prod_map. cbn [fst snd]. f_equal.
  unfold finalize_ctx, round_price, finalize. cbn. f_equal.
  apply unit_price_of_ctx_exact.
  - rewrite (entry_of_group_rates _ _ Hin).
    eapply sums_exact_mono; [apply collected_rates_group | done].
  - rewrite (entry_of_group_values _ _ Hin).
    eapply sums_exact_mono; [apply collected_values_group | done].
Qed.

Lemma aggregate_items_ctx_keyed (items : list Extracted.item) :
  _aggregate_items_ctx round items = snd <$> aggregate_keyed_ctx round items.
Proof.
  unfold _aggregate_items_ctx, aggregate_keyed_ctx, ODict.values.
  rewrite <- !list_fmap_compose. apply list_fmap_ext. by intros ? [? ?].
Qed.

Lemma aggregate_items_ctx_exact (items : list Extracted.item) :
  sums_exact round (item_qty <$> items) ->
  sums_exact round (collected_rates items) ->
  sums_exact round (collected_values items) ->
  _aggregate_items_ctx round items
  = round_price round <$> _aggregate_items items.
Proof.
  intros Hq Hr Hv.
  rewrite aggregate_items_ctx_keyed, (aggregate_keyed_ctx_exact _ Hq Hr Hv).
  rewrite aggregate_items_keyed, <- !list_fmap_compose.
  apply list_fmap_ext. by intros ? [? ?].
Qed.

(** The quantities need the additions of quantities only. *)
Lemma aggregate_items_ctx_qty (items : list Extracted.item) :
  sums_exact round (item_qty <$> items) ->
  Agg.qty <$> _aggregate_items_ctx round items
  = Agg.qty <$> _aggregate_items items.
Proof.
  intros Hq. unfold _aggregate_items_ctx, _aggregate_items.
  rewrite (aggregate_bucket_ctx_exact _ Hq), <- !list_fmap_compose.
  by apply list_fmap_ext.
Qed.

End ContextFacts.

(** With the identity for the rounding, the aggregator in the arithmetic of
    the context is the aggregator of the exact sums. *)
Lemma aggregate_items_ctx_id (items : list Extracted.item) :
  _aggregate_items_ctx (fun x => x) items = _aggregate_items items.
Proof.
  rewrite aggregate_items_ctx_exact by done.
  rewrite <- (list_fmap_id (_aggregate_items items)) at 2.
  apply list_fmap_ext. by intros ? [].
Qed.

(** C8 (amended). In the arithmetic of the decimal context, whatever its
    rounding: when no addition of quantities, of collected rates or of
    collected values is rounded (the exact sum of any of them is kept by the
    rounding), aggregating a permutation of the items gives the same keys,
    and for each key the same quantity and the same unit price; the
    description and the unit of a line are those seen first in its group and
    are not covered. *)
Theorem aggregate_permutation (round : Decimal -> Decimal)
    (items items' : list Extracted.item) :
  items ≡ₚ items' ->
  sums_exact round (item_qty <$> items) ->
  sums_exact round (collected_rates items) ->
  sums_exact round (collected_values items) ->
  (forall k,
      qty_and_price <$> ODict.get k (aggregate_keyed_ctx round items)
      = qty_and_price <$> ODict.get k (aggregate_keyed_ctx round items'))
  /\ ODict.keys (aggregate_keyed_ctx round items)
     ≡ₚ ODict.keys (aggregate_keyed_ctx round items')
  /\ (qty_and_price <$> _aggregate_items_ctx round items)
     ≡ₚ (qty_and_price <$> _aggregate_items_ctx round items').
Proof.
  intros Hp Hq Hr Hv.
  assert (sums_exact round (item_qty <$> items')) as Hq'.
  { eapply sums_exact_mono; [|exact Hq].
    apply Permutation_submseteq. by rewrite Hp. }
  assert (sums_exact round (collected_rates items')) as Hr'.
  { eapply sums_exact_mono; [|exact Hr].
    apply Permutation_submseteq. unfold collected_rates. by rewrite Hp. }
  assert (sums_exact round (collected_values items')) as Hv'.
  { eapply sums_exact_mono; [|exact Hv].
    apply Permutation_submseteq. unfold collected_values. by rewrite Hp. }
  destruct (qty_and_price_Permutation items items' Hp) as (Hget & Hkeys & Hl).
  assert (forall a, qty_and_price (round_price round a)
                    = prod_map id round (qty_and_price a)) as E by done.
  split; [|split].
  - intros k.
    rewrite (aggregate_keyed_ctx_exact _ _ Hq Hr Hv),
      (aggregate_keyed_ctx_exact _ _ Hq' Hr' Hv'), !odict_get_fmap.
    specialize (Hget k).
    destruct (ODict.get k (aggregate_keyed items)) as [a|],
      (ODict.get k (aggregate_keyed items')) as [a'|]; try done.
    assert (qty_and_price a = qty_and_price a') as Ha
      by (change (Some (qty_and_price a) = Some (qty_and_price a')) in Hget;
          congruence).
    change (Some (qty_and_price (round_price round a))
            = Some (qty_and_price (round_price round a'))).
    by rewrite !E, Ha.
  - rewrite (aggregate_keyed_ctx_exact _ _ Hq Hr Hv),
      (aggregate_keyed_ctx_exact _ _ Hq' Hr' Hv'), !odict_keys_fmap.
    exact Hkeys.
  - rewrite (aggregate_items_ctx_exact _ _ Hq Hr Hv),
      (aggregate_items_ctx_exact _ _ Hq' Hr' Hv').
    assert (forall l : list Agg.line,
               qty_and_price <$> (round_price round <$> l)
               = prod_map id round <$> (qty_and_price <$> l)) as El.
    { intros l. rewrite <- !list_fmap_compose.
      apply Forall_fmap_ext_1, Forall_forall. intros a _. apply E. }
    rewrite !El. by apply fmap_Permutation.
Qed.

(** C8, witness: the theorem at the two orders of [desc_items], with the
    rounding of the default context. *)
Lemma aggregate_permutation_witness :
  desc_items ≡ₚ reverse desc_items
  /\ (qty_and_price <$> _aggregate_items_ctx round28 desc_items)
     ≡ₚ (qty_and_price <$> _aggregate_items_ctx round28 (reverse desc_items)).
Proof.
  split; [apply perm_swap|].
  apply (aggregate_permutation round28 desc_items (reverse desc_items)).
  - apply perm_swap.
  - apply sums_exactb_spec. vm_compute. reflexivity.
  - apply sums_exactb_spec. vm_compute. reflexivity.
  - apply sums_exactb_spec. vm_compute. reflexivity.
Defined.

(** ** Rows without code and description *)

Lemma or_str_falsy (x : option string) (d : string) :
  opt_truthy x = false -> PyStr.or_str x d = d.
Proof. destruct x as [s|]; simpl; [by intros -> | done]. Qed.

Lemma or_opt_falsy (x y : option string) :
  opt_truthy x = false -> or_opt x y = y.
Proof. destruct x as [s|]; simpl; [by intros -> | done]. Qed.

Lemma is_blank_key (it : Extracted.item) :
  is_blank it = true ->
  item_desc it = "Item" /\ item_code_of it = "" /\ item_key it = "item".
Proof.
  unfold is_blank. rewrite !andb_true_iff, !negb_true_iff.
  intros [[Hic Hc] Hd].
  assert (item_desc it = "Item") as Hdesc
    by (unfold item_desc; by rewrite or_str_falsy).
  assert (item_code_of it = "") as Hcode
    by (unfold item_code_of; by rewrite or_opt_falsy, or_str_falsy).
  repeat split; [done | done |].
  unfold item_key. by rewrite Hcode, Hdesc.
Qed.

(** C10, counterexample. Two rows without code and description, with qty 2
    and -5, collapse into one line; its quantity is 1, not the sum -3 of their quantities. *)
Lemma blank_rows_qty_clamped :
  Forall (fun it => is_blank it = true) blank_negative_items
  /\ (Agg.qty <$> _aggregate_items blank_negative_items) = [dec 1]
  /\ qty_sum blank_negative_items = dec (-3)
  /\ (Agg.qty <$> _aggregate_items blank_negative_items)
     <> [qty_sum blank_negative_items].
Proof.
  split; [by repeat constructor|]. split; [dec_compute|].
  split; [dec_compute|]. intros H. vm_compute in H. discriminate H.
Qed.

(** C10 (amended). An item whose code is empty or absent and whose
    description is empty or missing gets the description "Item" and the key
    "item".  In an invoice with such rows, all of them are in the group of
    that key, which has exactly one output line; the quantity of the line is
    the sum of the quantities of the group, or 1 when that sum is zero or
    negative; when the group holds these rows only, the line has no code and
    the description "Item". *)
Theorem blank_rows_collapse (items : list Extracted.item) :
  let blanks := filter (fun it => is_blank it = true) items in
  blanks <> [] ->
  Forall (fun it => item_desc it = "Item" /\ item_key it = "item") blanks
  /\ blanks ⊆ group "item" items
  /\ NoDup (ODict.keys (aggregate_keyed items))
  /\ exists a,
      ODict.get "item" (aggregate_keyed items) = Some a
      /\ Agg.qty a = (if dec_pos (qty_sum (group "item" items))
                      then qty_sum (group "item" items) else 1%Qc)
      /\ (group "item" items = blanks ->
          Agg.code a = None /\ Agg.description a = "Item").
Proof.
  intros blanks Hne.
  assert (forall it, it ∈ blanks -> is_blank it = true /\ it ∈ items) as Hb
    by (intros it; unfold blanks; by rewrite list_elem_of_filter).
  split; [|split; [|split]].
  - apply Forall_forall. intros it [Hit _]%Hb.
    by destruct (is_blank_key it Hit) as (? & _ & ?).
  - intros it Hit. destruct (Hb it Hit) as [Hbl Hin].
    unfold group. apply list_elem_of_filter. split; [|done].
    by destruct (is_blank_key it Hbl) as (_ & _ & ?).
  - rewrite aggregate_keyed_keys. apply aggregate_bucket_NoDup.
  - assert (group "item" items <> []) as Hg.
    { destruct blanks as [|it ?] eqn:E; [done|].
      destruct (Hb it) as [Hbl Hin]; [by left|].
      intros Hnil. eapply (filter_nil_not_elem_of _ _ it Hnil); [|done].
      by destruct (is_blank_key it Hbl) as (_ & _ & ?). }
    destruct (entry_of_group_is_Some _ Hg) as [e He].
    exists (finalize e). rewrite aggregate_keyed_get, He.
    split; [done|]. split.
    + rewrite (group_line_qty _ _ He). done.
    + intros Heq. destruct (group "item" items) as [|it g] eqn:E; [done|].
      destruct (entry_of_group_head _ _ _ He) as [Hc Hd].
      assert (is_blank it = true) as Hbl
        by (apply Hb; rewrite <- Heq; by left).
      destruct (is_blank_key it Hbl) as (Hdesc & Hcode & _).
      simpl. by rewrite Hc, Hd, Hcode, Hdesc.
Qed.

(** C10, witness: the theorem on an invoice with two such rows and a
    third, coded one. *)
Lemma blank_rows_collapse_witness :
  filter (fun it => is_blank it = true) blank_items <> []
  /\ exists a,
      ODict.get "item" (aggregate_keyed blank_items) = Some a
      /\ Agg.qty a = (if dec_pos (qty_sum (group "item" blank_items))
                      then qty_sum (group "item" blank_items) else 1%Qc)
      /\ (group "item" blank_items
          = filter (fun it => is_blank it = true) blank_items ->
          Agg.code a = None /\ Agg.description a = "Item").
Proof.
  split; [by vm_compute|].
  apply (blank_rows_collapse blank_items). by vm_compute.
Defined.

(** ** Aggregating the aggregator's output *)

(** C2, counterexample. The output carries no rate and no value, so
    aggregating it again gives the unit price 0; and a description of white space only, stripped to the
    empty string in the output, is replaced by "Item". *)
Lemma reaggregation_loses_price :
  (Agg.unit_price <$> _aggregate_items desc_items) = [dec 15]
  /\ (Agg.unit_price
        <$> _aggregate_items (as_item <$> _aggregate_items desc_items))
     = [dec 0]
  /\ _aggregate_items (as_item <$> _aggregate_items desc_items)
     <> _aggregate_items desc_items
  /\ (Agg.description <$> _aggregate_items space_desc_items) = [""]
  /\ (Agg.description
        <$> _aggregate_items (as_item <$> _aggregate_items space_desc_items))
     = ["Item"].
Proof.
  split; [dec_compute|]. split; [dec_compute|].
  split; [|split; by vm_compute].
  intros H. vm_compute in H. discriminate H.
Qed.

(** *** [strip] is idempotent *)

Lemma rstrip_idemp (s : string) : PyStr.rstrip (PyStr.rstrip s) = PyStr.rstrip s.
Proof.
  induction s as [|c r IH]; [done|]. simpl.
  destruct (PyStr.rstrip r) as [|c' r'] eqn:E.
  - destruct (PyStr.isspace c) eqn:Ec; [done|]. simpl. by rewrite Ec.
  - simpl. simpl in IH. by rewrite IH.
Qed.

Lemma lstrip_head (s : string) :
  PyStr.lstrip s = ""
  \/ exists c r, PyStr.lstrip s = String c r /\ PyStr.isspace c = false.
Proof.
  induction s as [|c r IH]; [by left|]. simpl.
  destruct (PyStr.isspace c) eqn:Ec; [done|]. right. by exists c, r.
Qed.

Lemma rstrip_head (c : ascii) (r : string) :
  PyStr.isspace c = false ->
  exists r', PyStr.rstrip (String c r) = String c r'.
Proof.
  intros Hc. simpl. destruct (PyStr.rstrip r); rewrite ?Hc; by eexists.
Qed.

Lemma strip_idemp (s : string) : PyStr.strip (PyStr.strip s) = PyStr.strip s.
Proof.
  unfold PyStr.strip.
  destruct (lstrip_head s) as [-> | (c & r & -> & Hc)]; [done|].
  destruct (rstrip_head c r Hc) as [r' Hr]. rewrite Hr at 1.
  simpl PyStr.lstrip. rewrite Hc, <- Hr. apply rstrip_idemp.
Qed.

Lemma strip_or_none_idemp (x : option string) :
  strip_or_none (strip_or_none x) = strip_or_none x.
Proof.
  unfold strip_or_none at 2 3.
  destruct (PyStr.truthy (PyStr.strip (PyStr.or_str x ""))) eqn:E; [|done].
  unfold strip_or_none. simpl. by rewrite E, strip_idemp, E.
Qed.

(** *** An aggregated line read again as an item *)

Lemma fold_unit_stable (e : Bucket.entry) (g : list Extracted.item) :
  strip_or_none (Bucket.unit e) = Bucket.unit e ->
  strip_or_none (Bucket.unit (foldl (fun e x => bucket_acc x e) e g))
  = Bucket.unit (foldl (fun e x => bucket_acc x e) e g).
Proof.
  revert e. induction g as [|x g IH]; intros e He; [done|].
  simpl foldl. apply IH. simpl.
  destruct (_ && _); [apply strip_or_none_idemp | done].
Qed.

Lemma str_or_none_strip (s : string) :
  PyStr.strip
    (PyStr.or_str (or_opt None (str_or_none (PyStr.strip s))) "")
  = PyStr.strip s.
Proof.
  unfold str_or_none. simpl.
  destruct (PyStr.truthy (PyStr.strip s)) eqn:E; simpl.
  - by rewrite E, strip_idemp.
  - apply truthy_empty in E. by rewrite E.
Qed.

Section Reaggregate.
Context (it : Extracted.item) (g : list Extracted.item).
Context (Hdesc : item_desc it <> "").

Let e := foldl (fun e x => bucket_acc x e) (bucket_init it) (it :: g).
Let it' := as_item (finalize e).

Lemma as_item_code : item_code_of it' = item_code_of it.
Proof.
  unfold it', item_code_of at 1. simpl Extracted.item_code.
  simpl Extracted.code. unfold e. rewrite fold_code. simpl Bucket.code.
  unfold item_code_of. apply str_or_none_strip.
Qed.

Lemma as_item_desc : item_desc it' = item_desc it.
Proof.
  unfold it', item_desc at 1. simpl Extracted.description.
  unfold e. rewrite fold_description. simpl Bucket.description.
  apply truthy_nonempty in Hdesc. simpl. rewrite Hdesc.
  unfold item_desc. apply strip_idemp.
Qed.

Lemma as_item_key : item_key it' = item_key it.
Proof. unfold item_key. by rewrite as_item_code, as_item_desc. Qed.

Lemma as_item_qty : item_qty it' = final_qty_of e.
Proof.
  unfold it', item_qty. simpl Extracted.qty. unfold py_or. simpl.
  destruct (Qc_eq_bool (final_qty_of e) 0) eqn:E; [|done].
  apply Qc_eq_bool_correct in E.
  pose proof (clamp_qty_pos (Bucket.qty e)) as Hpos.
  unfold clamp_qty in Hpos. fold (final_qty_of e) in Hpos.
  apply Qclt_not_eq in Hpos. by rewrite E in Hpos.
Qed.

Lemma as_item_unit : item_unit it' = Bucket.unit e.
Proof.
  unfold it', item_unit. simpl Extracted.unit. unfold e.
  apply fold_unit_stable. simpl. apply strip_or_none_idemp.
Qed.

(** Aggregating the one item [it'] gives the line of [e] with price 0. *)
Lemma as_item_line :
  finalize (bucket_acc it' (bucket_init it')) = zero_price (finalize e).
Proof.
  unfold finalize, zero_price. simpl.
  assert (final_qty_of (bucket_acc it' (bucket_init it')) = final_qty_of e)
    as Hq.
  { unfold final_qty_of at 1. simpl. rewrite as_item_qty.
    assert ((0 + final_qty_of e)%Qc = final_qty_of e) as -> by ring.
    unfold final_qty_of at 1. fold (clamp_qty (Bucket.qty e)).
    fold (clamp_qty (Bucket.qty e)). by rewrite dec_pos_clamp_qty. }
  f_equal.
  - rewrite as_item_code. unfold e. by rewrite fold_code.
  - rewrite as_item_desc. unfold e. by rewrite fold_description.
  - exact Hq.
  - rewrite as_item_unit. by destruct (_ && _).
Qed.

End Reaggregate.

(** Items of pairwise distinct keys are not merged. *)
Lemma aggregate_bucket_distinct (l : list Extracted.item) :
  NoDup (item_key <$> l) ->
  aggregate_bucket l
  = (fun it => (item_key it, bucket_acc it (bucket_init it))) <$> l.
Proof.
  induction l as [|it l IH] using rev_ind; [done|].
  rewrite fmap_app. simpl. intros (Hnd & Hnin & _)%NoDup_app.
  rewrite aggregate_bucket_snoc, fmap_app, <- (IH Hnd). simpl.
  assert (item_key it ∉ ODict.keys (aggregate_bucket l)) as Hk.
  { rewrite aggregate_bucket_keys. intros Hin.
    apply (Hnin _ Hin). by left. }
  unfold aggregate_step.
  rewrite (proj2 (odict_get_None _ _) Hk). by apply odict_set_absent.
Qed.

(** Each entry of the bucket is the entry of a group, whose first item has
    the key of the entry. *)
Lemma aggregate_bucket_entry items k e :
  (k, e) ∈ aggregate_bucket items ->
  exists it g,
    it ∈ items /\ item_key it = k
    /\ e = foldl (fun e x => bucket_acc x e) (bucket_init it) (it :: g).
Proof.
  intros Hin.
  apply (odict_get_elem_of _ _ _ (aggregate_bucket_NoDup items)) in Hin.
  rewrite aggregate_bucket_get in Hin.
  apply entry_of_group_Some in Hin as (it & g & Hg & ->).
  assert (it ∈ group k items) as Hit by (rewrite Hg; by left).
  unfold group in Hit. apply list_elem_of_filter in Hit as [Hk Hit].
  exists it, g. by rewrite Hg.
Qed.

(** C2 (amended). For items none of which has a description of white space
    only, aggregating the aggregator's output again gives the same lines in
    the same order, with the same code, description, quantity and unit, and
    with the unit price 0 in place of the unit price: the output carries no
    rate and no value from which to compute it. *)
Theorem reaggregate_keeps_all_but_price (items : list Extracted.item) :
  Forall (fun it => item_desc it <> "") items ->
  _aggregate_items (as_item <$> _aggregate_items items)
  = zero_price <$> _aggregate_items items.
Proof.
  intros Hdesc. rewrite Forall_forall in Hdesc.
  set (b := aggregate_bucket items).
  set (reread := fun p : string * Bucket.entry => as_item (finalize p.2)).
  assert (as_item <$> _aggregate_items items = reread <$> b) as Hl.
  { unfold _aggregate_items, ODict.values. fold b.
    by rewrite <- !list_fmap_compose. }
  assert (forall p, p ∈ b ->
            item_key (reread p) = p.1
            /\ finalize (bucket_acc (reread p) (bucket_init (reread p)))
               = zero_price (finalize p.2)) as Hentry.
  { intros [k e] (it & g & Hit & Hk & ->)%aggregate_bucket_entry.
    unfold reread. simpl fst. simpl snd. split.
    - rewrite <- Hk. apply as_item_key. by apply Hdesc.
    - apply as_item_line. by apply Hdesc. }
  assert (item_key <$> (reread <$> b) = ODict.keys b) as Hkeys.
  { unfold ODict.keys. rewrite <- list_fmap_compose.
    apply Forall_fmap_ext_1, Forall_forall. intros p Hp.
    by destruct (Hentry p Hp). }
  rewrite Hl. unfold _aggregate_items at 1, ODict.values.
  rewrite aggregate_bucket_distinct
    by (rewrite Hkeys; apply aggregate_bucket_NoDup).
  unfold _aggregate_items, ODict.values. fold b.
  rewrite <- !list_fmap_compose.
  apply Forall_fmap_ext_1, Forall_forall. intros p Hp. simpl.
  by destruct (Hentry p Hp).
Qed.

(** C2, witness: the theorem on the two rows of [desc_items]. *)
Lemma reaggregate_witness :
  Forall (fun it => item_desc it <> "") desc_items
  /\ _aggregate_items (as_item <$> _aggregate_items desc_items)
     = zero_price <$> _aggregate_items desc_items.
Proof.
  assert (Forall (fun it => item_desc it <> "") desc_items) as H
    by (repeat constructor; by vm_compute).
  split; [exact H|].
  apply (reaggregate_keeps_all_but_price desc_items H).
Defined.

(** ** Detector: the final order type *)

Lemma normalize_unspecified (c : string) :
  _normalize_category_to_order_type (Some c) = "unspecified" -> c = "".
Proof.
  unfold _normalize_category_to_order_type.
  destruct (PyStr.truthy c) eqn:E; simpl.
  - destruct (decide _); [done|]. by destruct (_ || _).
  - intros _. by apply truthy_empty.
Qed.

Lemma elem_of_found_rows registry cleaned r :
  r ∈ found_rows registry cleaned <->
  r ∈ registry /\ lc_is_active r = true /\ lc_code r ∈ cleaned.
Proof. unfold found_rows. rewrite list_elem_of_filter. tauto. Qed.

Lemma has_unmapped_iff registry cleaned :
  has_unmapped_of (found_rows registry cleaned) cleaned = true <->
  exists c, c ∈ cleaned
            /\ forall r, r ∈ registry -> lc_is_active r = true ->
                         lc_code r <> c.
Proof.
  unfold has_unmapped_of, unmapped_codes_of, found_code_set_of.
  rewrite bool_decide_eq_true. split.
  - intros Hlen.
    destruct (filter _ cleaned) as [|c l] eqn:E; [simpl in Hlen; lia|].
    assert (c ∈ filter (fun code : string =>
              code ∉ (list_to_set (lc_code <$> found_rows registry cleaned)
                      : gset string)) cleaned) as Hc
      by (rewrite E; by left).
    apply list_elem_of_filter in Hc as [Hnot Hin].
    exists c. split; [done|]. intros r Hr Hact Heq. apply Hnot.
    apply elem_of_list_to_set, list_elem_of_fmap. exists r.
    split; [done|]. apply elem_of_found_rows. by rewrite Heq.
  - intros (c & Hin & Hno).
    assert (c ∈ filter (fun code : string =>
              code ∉ (list_to_set (lc_code <$> found_rows registry cleaned)
                      : gset string)) cleaned) as Hc.
    { apply list_elem_of_filter. split; [|done].
      intros (r & -> & Hr)%elem_of_list_to_set%list_elem_of_fmap.
      apply elem_of_found_rows in Hr as (Hr & Hact & _).
      by apply (Hno r). }
    destruct (filter _ cleaned); [by apply elem_of_nil in Hc | simpl; lia].
Qed.

(** The set computed by the detector holds the tags of the specification. *)
Lemma order_types_found_tags registry item_codes t :
  t ∈ order_types_found_of
        (found_rows registry (clean_codes item_codes))
        (clean_codes item_codes)
  <-> tag_present registry item_codes t.
Proof.
  unfold order_types_found_of, tag_present.
  assert (t ∈ (set_map (fun category =>
                 _normalize_category_to_order_type (Some category))
               (list_to_set (lc_category
                  <$> found_rows registry (clean_codes item_codes))
                : gset string) : gset string)
          <-> exists r, r ∈ registry /\ lc_is_active r = true
                /\ lc_code r ∈ clean_codes item_codes
                /\ _normalize_category_to_order_type
                     (Some (lc_category r)) = t) as Hmapped.
  { rewrite elem_of_map. split.
    - intros (c & -> & (r & -> & Hr)%elem_of_list_to_set%list_elem_of_fmap).
      apply elem_of_found_rows in Hr as (? & ? & ?). by exists r.
    - intros (r & Hr & Hact & Hc & <-). exists (lc_category r).
      split; [done|]. apply elem_of_list_to_set, list_elem_of_fmap.
      exists r. split; [done|]. by apply elem_of_found_rows. }
  destruct (has_unmapped_of _ _) eqn:Hu.
  - apply has_unmapped_iff in Hu.
    rewrite elem_of_union, elem_of_singleton, Hmapped. tauto.
  - rewrite Hmapped. split; [tauto|]. intros [H | [_ H]]; [done|].
    apply has_unmapped_iff in H. congruence.
Qed.

Lemma tag_present_not_mixed registry item_codes t :
  tag_present registry item_codes t -> t <> "mixed".
Proof.
  intros [(r & _ & _ & _ & <-) | [-> _]]; [|done].
  by destruct (normalize_cases (Some (lc_category r))) as [-> | [-> | ->]].
Qed.

Lemma tag_present_nil registry item_codes t :
  clean_codes item_codes = [] -> ~ tag_present registry item_codes t.
Proof.
  intros E [(r & _ & _ & H & _) | (_ & c & H & _)];
    rewrite E in H; by apply elem_of_nil in H.
Qed.

(** The first component of the result, once there is a cleaned code. *)
Lemma detector_order_type_eq registry item_codes :
  clean_codes item_codes <> [] ->
  let order_types_found :=
    order_types_found_of (found_rows registry (clean_codes item_codes))
                         (clean_codes item_codes) in
  (determine_order_type_from_codes registry item_codes).1.1
  = if decide (size order_types_found = 0) then "sales"
    else if decide (size order_types_found = 1)
         then hd "" (elements order_types_found)
         else "mixed".
Proof.
  intros Hne. unfold determine_order_type_from_codes.
  destruct item_codes as [|c0 cs]; [done|].
  destruct (clean_codes (c0 :: cs)) as [|c cl] eqn:E; [done|].
  cbv zeta. by repeat destruct (decide _).
Qed.

(** A set of at least two elements has two distinct elements. *)
Lemma two_elements (X : gset string) :
  size X <> 0 -> size X <> 1 -> exists x y, x <> y /\ x ∈ X /\ y ∈ X.
Proof.
  intros H0 H1.
  destruct (size_pos_elem_of X) as [x Hx]; [lia|].
  destruct (size_pos_elem_of (X ∖ {[x]})) as [y Hy].
  { rewrite size_difference by (by apply singleton_subseteq_l).
    rewrite size_singleton. lia. }
  apply elem_of_difference in Hy as [Hy Hne].
  exists x, y. rewrite not_elem_of_singleton in Hne. by repeat split.
Qed.

(** C3, counterexample. With an active row of empty category for the only
    code, the detector answers unspecified although the code list is not
    empty. *)
Lemma unspecified_with_codes :
  (determine_order_type_from_codes empty_category_registry [Some "X"]).1.1
  = "unspecified"
  /\ [Some "X"] <> ([] : list (option string)).
Proof. split; by vm_compute. Qed.

(** C3 (amended). The detector answers mixed exactly when two distinct
    order-type tags are present (the normalized categories of the mapped
    codes, and sales for unmapped codes); it answers unspecified only when
    the code list is empty or an active registry row with an empty category
    matches one of the codes; it answers sales when sales is the only tag
    present, in particular when the list is not empty and no code is mapped. *)
Theorem detector_order_type (registry : list LabourCode)
    (item_codes : list (option string)) :
  let order_type :=
    (determine_order_type_from_codes registry item_codes).1.1 in
  (order_type = "mixed" <->
   exists t1 t2, t1 <> t2 /\ tag_present registry item_codes t1
                 /\ tag_present registry item_codes t2)
  /\ (order_type = "unspecified" ->
      item_codes = []
      \/ exists r, r ∈ registry /\ lc_is_active r = true
                   /\ lc_code r ∈ clean_codes item_codes
                   /\ lc_category r = "")
  /\ (tag_present registry item_codes "sales" ->
      (forall t, tag_present registry item_codes t -> t = "sales") ->
      order_type = "sales")
  /\ (item_codes <> [] ->
      (forall r, r ∈ registry -> lc_is_active r = true ->
                 lc_code r ∉ clean_codes item_codes) ->
      order_type = "sales").
Proof.
  cbv zeta.
  destruct (decide (clean_codes item_codes = [])) as [E|E].
  { (* no cleaned code: no tag is present *)
    assert (forall t, ~ tag_present registry item_codes t) as Hno
      by (intros t; by apply tag_present_nil).
    assert ((determine_order_type_from_codes registry item_codes).1.1
            = if decide (item_codes = []) then "unspecified" else "sales")
      as ->.
    { unfold determine_order_type_from_codes.
      destruct item_codes; [done|]. by rewrite E. }
    split; [split|split; [|split]].
    - by destruct (decide _).
    - intros (t1 & _ & _ & H & _). by apply Hno in H.
    - destruct (decide _); [by left | done].
    - intros H. by apply Hno in H.
    - intros H _. by rewrite decide_False. }
  rewrite (detector_order_type_eq registry item_codes E). cbv zeta.
  set (S := order_types_found_of _ _).
  assert (forall t, t ∈ S <-> tag_present registry item_codes t) as HS
    by (intros t; apply order_types_found_tags).
  assert (item_codes <> []) as Hcodes by (by intros ->).
  destruct (decide (size S = 0)) as [H0|H0];
    [|destruct (decide (size S = 1)) as [H1|H1]].
  - (* no tag *)
    apply size_empty_iff, leibniz_equiv in H0.
    assert (forall t, ~ tag_present registry item_codes t) as Hno.
    { intros t Ht%HS. rewrite H0 in Ht. by apply not_elem_of_empty in Ht. }
    split; [split|split; [|split]].
    + done.
    + intros (t1 & _ & _ & H & _). by apply Hno in H.
    + done.
    + done.
    + done.
  - (* one tag *)
    destruct (size_1_elem_of S H1) as [x Hx]. apply leibniz_equiv in Hx.
    rewrite Hx, elements_singleton. simpl.
    assert (tag_present registry item_codes x) as Htx
      by (apply HS; rewrite Hx; by apply elem_of_singleton).
    assert (forall t, tag_present registry item_codes t -> t = x) as Hall.
    { intros t Ht%HS. rewrite Hx in Ht. by apply elem_of_singleton in Ht. }
    split; [split|split; [|split]].
    + intros ->. by apply tag_present_not_mixed in Htx.
    + intros (t1 & t2 & Hne & Ht1%Hall & Ht2%Hall). congruence.
    + intros ->. right.
      destruct Htx as [(r & Hr & Hact & Hc & Hn) | [? _]]; [|done].
      exists r. by apply normalize_unspecified in Hn.
    + intros Hs _. symmetry. by apply Hall.
    + intros _ Hnone.
      destruct Htx as [(r & Hr & Hact & Hc & _) | [-> _]]; [|done].
      by apply Hnone in Hc.
  - (* several tags *)
    destruct (two_elements S H0 H1) as (x & y & Hne & Hx%HS & Hy%HS).
    split; [split|split; [|split]].
    + intros _. by exists x, y.
    + done.
    + done.
    + intros _ Hall. apply Hall in Hx, Hy. congruence.
    + intros _ Hnone. exfalso.
      assert (forall t, tag_present registry item_codes t -> t = "sales")
        as Hall.
      { intros t [(r & Hr & Hact & Hc & _) | [-> _]]; [|done].
        by apply Hnone in Hc. }
      apply Hall in Hx, Hy. congruence.
Qed.

(** ** Revenue attribution: the tags that are not keys of the result *)

Lemma dec_sum_nil : dec_sum [] = 0%Qc.
Proof. reflexivity. Qed.

Lemma spec_bucket_cons k item l :
  spec_bucket k (item :: l)
  = ((if decide (spec_bucket_key item = k) then line_value item else 0)
     + spec_bucket k l)%Qc.
Proof.
  unfold spec_bucket. rewrite filter_cons.
  destruct (decide _); simpl.
  - by rewrite dec_sum_cons.
  - ring.
Qed.

Lemma known_keys_result_keys k :
  k ∈ result_keys <-> k ∈ known_keys \/ k = "total" \/ k = "count".
Proof.
  unfold result_keys, known_keys.
  rewrite !elem_of_union, !elem_of_singleton, !elem_of_cons, elem_of_nil.
  tauto.
Qed.

Lemma revenue_init_dom n : dom (revenue_init n) = result_keys.
Proof.
  unfold revenue_init, result_keys. rewrite !dom_insert_L, dom_empty_L.
  apply set_eq. intros k. rewrite !elem_of_union, !elem_of_singleton.
  rewrite elem_of_empty. tauto.
Qed.

Lemma revenue_step_dom result item :
  dom result = result_keys -> dom (revenue_step result item) = result_keys.
Proof.
  intros Hdom. unfold revenue_step.
  destruct (result !! revenue_tag item) as [cur|] eqn:E.
  - rewrite dom_insert_L, <- Hdom. apply elem_of_dom_2 in E.
    apply set_eq. intros k. rewrite elem_of_union, elem_of_singleton.
    split; [by intros [-> | ?] | auto].
  - rewrite dom_insert_L, Hdom.
    apply set_eq. intros k. rewrite elem_of_union, elem_of_singleton.
    split; [|auto]. intros [-> | ?]; [|done].
    apply known_keys_result_keys. left. unfold known_keys.
    rewrite !elem_of_cons. tauto.
Qed.

(** One step, for an item whose tag is neither "total" nor "count". *)
Lemma revenue_step_lookup result item k :
  dom result = result_keys ->
  revenue_tag item <> "total" -> revenue_tag item <> "count" ->
  k ∈ known_keys ->
  revenue_step result item !! k
  = (fun cur => (cur + (if decide (spec_bucket_key item = k)
                        then line_value item else 0))%Qc) <$> result !! k.
Proof.
  intros Hdom Ht Hc Hk. unfold revenue_step, spec_bucket_key.
  assert (is_Some (result !! k)) as [v Hv].
  { apply elem_of_dom. rewrite Hdom. apply known_keys_result_keys. by left. }
  destruct (result !! revenue_tag item) as [cur|] eqn:E.
  - assert (revenue_tag item ∈ known_keys) as Hin.
    { apply elem_of_dom_2 in E. rewrite Hdom in E.
      apply known_keys_result_keys in E as [?|[?|?]]; done. }
    destruct (decide (revenue_tag item ∈ known_keys)) as [_|?]; [|done].
    rewrite lookup_insert.
    destruct (decide (revenue_tag item = k)) as [Heq|Hne].
    + rewrite <- Heq, E. done.
    + rewrite Hv. simpl. f_equal. ring.
  - assert (revenue_tag item ∉ known_keys) as Hnin.
    { apply not_elem_of_dom in E. rewrite Hdom in E. intros Hin. apply E.
      apply known_keys_result_keys. by left. }
    destruct (decide (revenue_tag item ∈ known_keys)) as [?|_]; [done|].
    rewrite lookup_insert.
    destruct (decide ("unknown" = k)) as [Heq|Hne].
    + rewrite <- Heq in Hv. rewrite <- Heq, Hv. done.
    + rewrite Hv. simpl. f_equal. ring.
Qed.

Lemma revenue_fold_lookup line_items result k v :
  dom result = result_keys ->
  Forall (fun item => revenue_tag item <> "total"
                      /\ revenue_tag item <> "count") line_items ->
  k ∈ known_keys -> result !! k = Some v ->
  foldl revenue_step result line_items !! k
  = Some (v + spec_bucket k line_items)%Qc.
Proof.
  intros Hdom Hall Hk. revert result v Hdom.
  induction Hall as [|item l [Ht Hc] _ IH]; intros result v Hdom Hv.
  - simpl. unfold spec_bucket. simpl. rewrite dec_sum_nil, Hv.
    f_equal. ring.
  - simpl foldl. erewrite IH; [| by apply revenue_step_dom |].
    2:{ rewrite revenue_step_lookup by done. by rewrite Hv. }
    rewrite spec_bucket_cons. f_equal. ring.
Qed.

(** For line items whose order type is neither "total" nor "count", each of
    the four buckets holds the sum of the values of its items, unrecognized
    and missing order types going to unknown, and total is the sum of the
    four buckets. *)
Lemma revenue_buckets_without_total_count (invoice_ids : list Z)
    (table : list InvoiceLineItem) :
  invoice_ids <> [] ->
  let line_items :=
    filter (fun item => li_invoice_id item ∈ invoice_ids) table in
  let result := get_revenue_by_order_type invoice_ids table in
  Forall (fun item => revenue_tag item <> "total"
                      /\ revenue_tag item <> "count") line_items ->
  (forall k, k ∈ known_keys -> result !! k = Some (spec_bucket k line_items))
  /\ result !! "total"
     = Some (spec_bucket "sales" line_items + spec_bucket "service" line_items
             + spec_bucket "labour" line_items
             + spec_bucket "unknown" line_items)%Qc.
Proof.
  intros Hne line_items result Hall.
  unfold result, get_revenue_by_order_type.
  destruct invoice_ids as [|i ids]; [done|]. fold line_items.
  set (n := length (i :: ids)).
  assert (forall k, k ∈ known_keys ->
            foldl revenue_step (revenue_init n) line_items !! k
            = Some (spec_bucket k line_items)) as Hb.
  { intros k Hk.
    rewrite (revenue_fold_lookup _ _ k 0%Qc);
      [f_equal; ring | apply revenue_init_dom | done | done |].
    unfold known_keys in Hk.
    repeat (apply elem_of_cons in Hk as [-> | Hk]; [done|]).
    by apply elem_of_nil in Hk. }
  split.
  - intros k Hk. rewrite lookup_insert_ne; [by apply Hb|].
    intros <-. unfold known_keys in Hk.
    repeat (apply elem_of_cons in Hk as [? | Hk]; [done|]).
    by apply elem_of_nil in Hk.
  - rewrite lookup_insert_eq. unfold bucket_of.
    rewrite !Hb by (unfold known_keys; rewrite !elem_of_cons; tauto). done.
Qed.

(** ** Detector: empty and blank inputs *)

(** C4. With no code at all the detector answers unspecified.  A code of
    white space only passes the filter [if code], is stripped to the empty
    string and stays in the cleaned list: the registry is queried for the
    empty code, which is reported as unmapped, and the categories are
    ["sales"], not the empty list; a registry row for the empty code even
    changes the answer. *)
Theorem detect_blank_code_is_looked_up :
  (forall registry,
     determine_order_type_from_codes registry []
     = ("unspecified", [], empty_mapping_info))
  /\ clean_codes [Some "   "] = [""]
  /\ determine_order_type_from_codes [] [Some "   "]
     = ("sales", ["sales"],
        {| mapped := ∅; unmapped := [""]; categories_found := ["sales"];
           order_types_found := ["sales"] |})
  /\ determine_order_type_from_codes
       [ {| lc_code := ""; lc_category := "labour"; lc_is_active := true |} ]
       [Some "   "]
     = ("labour", ["labour"],
        {| mapped := {[ "" := "labour" ]}; unmapped := [];
           categories_found := ["labour"]; order_types_found := ["labour"] |}).
Proof.
  split; [reflexivity|].
  split; [reflexivity|].
  split; by vm_compute.
Qed.

(** ** End-to-end scenario *)

(** C1, counterexample. The end-to-end scenario as the specification words
    it does not hold: the codeless line is not classified as sales and the
    invoice is not mixed. *)
Lemma scenario_not_sales_not_mixed :
  ~ (exists l1 l2,
       extracted_line_items scenario_registry 1 scenario_items = [l1; l2]
       /\ li_order_type l1 = Some "labour" /\ li_line_total l1 = dec 50000
       /\ li_order_type l2 = Some "sales" /\ li_line_total l2 = dec 150000
       /\ (determine_order_type_from_codes scenario_registry
             scenario_codes).1.1 = "mixed"
       /\ (determine_order_type_from_codes scenario_registry
             scenario_codes).1.2 = ["labour"; "sales"]).
Proof.
  intros (l1 & l2 & _ & _ & _ & _ & _ & Hmixed & _).
  vm_compute in Hmixed. discriminate Hmixed.
Qed.

(** C1 (amended). The scenario items aggregate to two lines; the first is
    classified labour with line total 50000, the second, which has no code,
    keeps the default order type unspecified with line total 150000; the
    detector, given the codes of the lines, finds the single tag labour, with
    categories ["labour"]. *)
Theorem scenario_end_to_end :
  length (_aggregate_items scenario_items) = 2
  /\ (li_order_type <$> extracted_line_items scenario_registry 1 scenario_items)
     = [Some "labour"; Some "unspecified"]
  /\ (li_line_total <$> extracted_line_items scenario_registry 1 scenario_items)
     = [dec 50000; dec 150000]
  /\ scenario_codes = [Some "L100"; None]
  /\ (determine_order_type_from_codes scenario_registry scenario_codes).1
     = ("labour", ["labour"])
  /\ (determine_order_type_from_codes scenario_registry
        (codes_of (_aggregate_items scenario_items))).1
     = ("labour", ["labour"]).
Proof.
  repeat split; dec_compute.
Qed.

(** ** Revenue attribution *)

(** C9. A line item whose order type is "total" or "count" passes the test
    [order_type in result], because the result dict also has these two keys.
    Its value is added to that entry and not to the unknown bucket: for
    "total" it is then overwritten by the final sum, for "count" it changes
    the invoice count. *)
Theorem revenue_total_count_tags_miss_unknown :
  let r1 := get_revenue_by_order_type [1%Z]
              [mk_line 1 (Some "total") (dec 100) (Some 0%Qc)] in
  let r2 := get_revenue_by_order_type [1%Z]
              [mk_line 1 (Some "count") (dec 100) (Some 0%Qc)] in
  let r3 := get_revenue_by_order_type [1%Z]
              [mk_line 1 (Some "bogus") (dec 100) (Some 0%Qc)] in
  (r1 !! "unknown" = Some (dec 0) /\ r1 !! "total" = Some (dec 0)
   /\ r1 !! "count" = Some (dec 1))
  /\ (r2 !! "unknown" = Some (dec 0) /\ r2 !! "total" = Some (dec 0)
      /\ r2 !! "count" = Some (dec 101))
  /\ (r3 !! "unknown" = Some (dec 100) /\ r3 !! "total" = Some (dec 100)
      /\ r3 !! "count" = Some (dec 1)).
Proof.
  repeat split; dec_compute.
Qed.

(** * Further properties *)

(** ** Sorting of strings *)

Lemma string_compare_trans (s1 s2 s3 : string) :
  String.compare s1 s2 <> Gt -> String.compare s2 s3 <> Gt ->
  String.compare s1 s3 <> Gt.
Proof.
  revert s2 s3.
  induction s1 as [|c1 s1 IH]; intros [|c2 s2] [|c3 s3]; simpl; try done.
  unfold Ascii.compare.
  destruct (N.compare_spec (N_of_ascii c1) (N_of_ascii c2)) as [E12|L12|G12];
    [| |done];
    (destruct (N.compare_spec (N_of_ascii c2) (N_of_ascii c3))
       as [E23|L23|G23]; [| |done]);
    destruct (N.compare_spec (N_of_ascii c1) (N_of_ascii c3))
      as [E13|L13|G13]; try done; try lia.
  apply IH.
Qed.

#[global] Instance str_le_total : Total PyStr.str_le.
Proof. intros a b. apply String.leb_total. Qed.

#[global] Instance str_le_antisymm : AntiSymm (=) PyStr.str_le.
Proof. intros a b. apply String.leb_antisym. Qed.

#[global] Instance str_le_trans : Transitive PyStr.str_le.
Proof.
  intros a b c. unfold PyStr.str_le, String.leb. intros Hab Hbc.
  pose proof (string_compare_trans a b c) as H.
  destruct (String.compare a b); destruct (String.compare b c);
    destruct (String.compare a c); try done; by exfalso; apply H.
Qed.

Lemma sorted_Permutation (l : list string) : PyStr.sorted l ≡ₚ l.
Proof. apply merge_sort_Permutation. Qed.

Lemma sorted_StronglySorted (l : list string) :
  StronglySorted PyStr.str_le (PyStr.sorted l).
Proof. apply (StronglySorted_merge_sort _). Qed.

Lemma sorted_elem_of (l : list string) x : x ∈ PyStr.sorted l <-> x ∈ l.
Proof. by rewrite sorted_Permutation. Qed.

Lemma sorted_NoDup (l : list string) : NoDup l -> NoDup (PyStr.sorted l).
Proof. by rewrite sorted_Permutation. Qed.

(** The sorted list depends on the elements only, not on their order. *)
Lemma sorted_proper (l1 l2 : list string) :
  l1 ≡ₚ l2 -> PyStr.sorted l1 = PyStr.sorted l2.
Proof.
  intros H. apply (StronglySorted_unique PyStr.str_le);
    try apply sorted_StronglySorted.
  by rewrite !sorted_Permutation.
Qed.

(** ** Detector: the whole result *)

(** The result once there is a cleaned code. *)
Lemma detector_result_eq registry item_codes :
  clean_codes item_codes <> [] ->
  let cleaned := clean_codes item_codes in
  let found := found_rows registry cleaned in
  let types := order_types_found_of found cleaned in
  let cats := categories_found_of found cleaned in
  let final : string * list string :=
    if decide (size types = 0) then ("sales", ["sales"])
    else if decide (size types = 1)
         then (hd "" (elements types), PyStr.sorted (elements cats))
         else ("mixed", PyStr.sorted (elements cats)) in
  determine_order_type_from_codes registry item_codes
  = (final.1, final.2,
     {| mapped := code_to_category_of found;
        unmapped := unmapped_codes_of found cleaned;
        categories_found := final.2;
        order_types_found := PyStr.sorted (elements types) |}).
Proof.
  intros Hne. unfold determine_order_type_from_codes.
  destruct item_codes as [|c0 cs]; [done|].
  destruct (clean_codes (c0 :: cs)) as [|c cl] eqn:E; [done|].
  cbv zeta. by repeat destruct (decide _).
Qed.

Lemma elem_of_unmapped registry cleaned c :
  c ∈ unmapped_codes_of (found_rows registry cleaned) cleaned <->
  c ∈ cleaned
  /\ forall r, r ∈ registry -> lc_is_active r = true -> lc_code r <> c.
Proof.
  unfold unmapped_codes_of, found_code_set_of.
  rewrite list_elem_of_filter, elem_of_list_to_set, list_elem_of_fmap.
  split.
  - intros [Hno Hin]. split; [done|]. intros r Hr Hact Heq. apply Hno.
    exists r. split; [done|]. apply elem_of_found_rows. by rewrite Heq.
  - intros [Hin Hno]. split; [|done].
    intros (r & -> & (Hr & Hact & _)%elem_of_found_rows). by apply (Hno r).
Qed.

(** Every cleaned code is mapped by an active row or unmapped, so a tag is
    always found. *)
Lemma order_types_found_nonempty registry item_codes :
  clean_codes item_codes <> [] ->
  size (order_types_found_of
          (found_rows registry (clean_codes item_codes))
          (clean_codes item_codes)) <> 0.
Proof.
  intros Hne Hsize. apply size_empty_iff, leibniz_equiv in Hsize.
  destruct (clean_codes item_codes) as [|c cl] eqn:E; [done|].
  assert (c ∈ clean_codes item_codes) as Hc by (rewrite E; by left).
  assert (forall t, ~ tag_present registry item_codes t) as Hno.
  { intros t Ht. apply order_types_found_tags in Ht. rewrite E in Ht.
    rewrite Hsize in Ht. by apply not_elem_of_empty in Ht. }
  destruct (decide (Exists (fun r => lc_is_active r = true /\ lc_code r = c)
                           registry)) as [Hex|Hnex].
  - apply Exists_exists in Hex as (r & Hr & Hact & Hcode).
    apply (Hno (_normalize_category_to_order_type (Some (lc_category r)))).
    left. exists r. by rewrite Hcode.
  - apply (Hno "sales"). right. split; [done|]. exists c. split; [done|].
    intros r Hr Hact Hcode. apply Hnex, Exists_exists. by exists r.
Qed.

Lemma categories_found_elem_of registry cleaned c :
  c ∈ categories_found_of (found_rows registry cleaned) cleaned <->
  (exists r, r ∈ registry /\ lc_is_active r = true /\ lc_code r ∈ cleaned
             /\ lc_category r = c)
  \/ (c = "sales"
      /\ exists code, code ∈ cleaned
           /\ forall r, r ∈ registry -> lc_is_active r = true ->
                        lc_code r <> code).
Proof.
  unfold categories_found_of.
  assert (c ∈ (list_to_set (lc_category <$> found_rows registry cleaned)
               : gset string)
          <-> exists r, r ∈ registry /\ lc_is_active r = true
                /\ lc_code r ∈ cleaned /\ lc_category r = c) as Hm.
  { rewrite elem_of_list_to_set, list_elem_of_fmap. split.
    - intros (r & -> & (? & ? & ?)%elem_of_found_rows). by exists r.
    - intros (r & Hr & Hact & Hc & <-). exists r. split; [done|].
      by apply elem_of_found_rows. }
  destruct (has_unmapped_of _ _) eqn:Hu.
  - apply has_unmapped_iff in Hu.
    rewrite elem_of_union, elem_of_singleton, Hm. tauto.
  - rewrite Hm. split; [tauto|]. intros [H | [_ H]]; [done|].
    apply has_unmapped_iff in H. congruence.
Qed.

Lemma tag_present_tags registry item_codes t :
  tag_present registry item_codes t -> t ∈ order_type_tags.
Proof.
  unfold order_type_tags. rewrite !elem_of_cons.
  intros [(r & _ & _ & _ & <-) | [-> _]]; [|tauto].
  destruct (normalize_cases (Some (lc_category r))) as [-> | [-> | ->]];
    tauto.
Qed.

Lemma detector_result_empty registry item_codes :
  clean_codes item_codes = [] ->
  determine_order_type_from_codes registry item_codes
  = (if decide (item_codes = []) then "unspecified" else "sales", [],
     empty_mapping_info).
Proof.
  intros E. unfold determine_order_type_from_codes.
  destruct item_codes; [done|]. by rewrite E.
Qed.

(** X1. The order type returned is one of labour, service, sales,
    unspecified and mixed.  The tags listed in [order_types_found] are among
    labour, service, sales and unspecified, sorted and without repetition;
    with at least one cleaned code the list is not empty (the fallback for
    zero tags is never taken), it is the one-element list of the order type
    unless the order type is mixed, and mixed is returned exactly when it has
    two or more elements. *)
Theorem detector_result_invariant (registry : list LabourCode)
    (item_codes : list (option string)) :
  let result := determine_order_type_from_codes registry item_codes in
  let order_type := result.1.1 in
  let found := order_types_found result.2 in
  order_type ∈ order_types
  /\ Forall (fun t => t ∈ order_type_tags) found
  /\ StronglySorted PyStr.str_le found /\ NoDup found
  /\ (clean_codes item_codes = [] -> found = [])
  /\ (clean_codes item_codes <> [] ->
      found <> []
      /\ (order_type = "mixed" <-> 2 <= length found)
      /\ (order_type <> "mixed" -> found = [order_type])).
Proof.
  cbv zeta.
  destruct (decide (clean_codes item_codes = [])) as [E|E].
  { rewrite (detector_result_empty _ _ E). simpl.
    repeat split; try done; try constructor.
    unfold order_types. rewrite !elem_of_cons. destruct (decide _); tauto. }
  rewrite (detector_result_eq registry item_codes E). cbv zeta.
  pose proof (order_types_found_nonempty registry item_codes E) as Hsize.
  set (S := order_types_found_of _ _) in *.
  assert (forall t, t ∈ S -> t ∈ order_type_tags) as Htags.
  { intros t Ht%order_types_found_tags. by eapply tag_present_tags. }
  assert (length (PyStr.sorted (elements S)) = size S) as Hlen
    by (by rewrite sorted_Permutation).
  destruct (decide (size S = 0)) as [?|_]; [done|]. simpl.
  split; [|split; [|split; [|split; [|split; [done|]]]]].
  - destruct (decide (size S = 1)) as [H1|H1]; simpl.
    + destruct (size_1_elem_of S H1) as [x Hx]. apply leibniz_equiv in Hx.
      rewrite Hx, elements_singleton. simpl.
      assert (x ∈ order_type_tags) as Hin
        by (apply Htags; rewrite Hx; by apply elem_of_singleton).
      unfold order_type_tags, order_types in *.
      rewrite !elem_of_cons in Hin. rewrite !elem_of_cons. tauto.
    + unfold order_types. rewrite !elem_of_cons. tauto.
  - apply Forall_forall. intros t Ht%sorted_elem_of%elem_of_elements.
    by apply Htags.
  - apply sorted_StronglySorted.
  - apply sorted_NoDup, NoDup_elements.
  - intros _. split; [|split].
    + intros Hnil. rewrite Hnil in Hlen. simpl in Hlen. lia.
    + rewrite Hlen. destruct (decide (size S = 1)) as [H1|H1]; simpl.
      * split; [|intros; lia]. intros Hm.
        destruct (size_1_elem_of S H1) as [x Hx]. apply leibniz_equiv in Hx.
        rewrite Hx, elements_singleton in Hm. simpl in Hm. subst x.
        assert ("mixed" ∈ order_type_tags) as Hin
          by (apply Htags; rewrite Hx; by apply elem_of_singleton).
        unfold order_type_tags in Hin.
        rewrite !elem_of_cons, elem_of_nil in Hin.
        by destruct Hin as [? | [? | [? | [? | ?]]]].
      * split; [lia | done].
    + destruct (decide (size S = 1)) as [H1|H1]; simpl; [|done]. intros _.
      destruct (size_1_elem_of S H1) as [x Hx]. apply leibniz_equiv in Hx.
      rewrite Hx, elements_singleton. simpl.
      apply Permutation_singleton_r. apply sorted_Permutation.
Qed.

(** X2. With at least one cleaned code, the categories returned are the
    list [categories_found] of the mapping information; they are sorted and
    without repetition, and they are exactly the categories of the active
    registry rows whose code is among the cleaned codes, with "sales" added
    when some cleaned code has no active row. *)
Theorem detector_categories (registry : list LabourCode)
    (item_codes : list (option string)) :
  clean_codes item_codes <> [] ->
  let result := determine_order_type_from_codes registry item_codes in
  let categories := result.1.2 in
  categories_found result.2 = categories
  /\ StronglySorted PyStr.str_le categories /\ NoDup categories
  /\ forall c,
      c ∈ categories <->
      (exists r, r ∈ registry /\ lc_is_active r = true
                 /\ lc_code r ∈ clean_codes item_codes /\ lc_category r = c)
      \/ (c = "sales"
          /\ exists code, code ∈ clean_codes item_codes
               /\ forall r, r ∈ registry -> lc_is_active r = true ->
                            lc_code r <> code).
Proof.
  intros E. cbv zeta.
  rewrite (detector_result_eq registry item_codes E). cbv zeta.
  pose proof (order_types_found_nonempty registry item_codes E) as Hsize.
  destruct (decide (size _ = 0)) as [?|_]; [done|].
  assert (forall b : bool,
            (if b then (hd "" (elements (order_types_found_of
                      (found_rows registry (clean_codes item_codes))
                      (clean_codes item_codes))),
                        PyStr.sorted (elements (categories_found_of
                      (found_rows registry (clean_codes item_codes))
                      (clean_codes item_codes))))
             else ("mixed", PyStr.sorted (elements (categories_found_of
                      (found_rows registry (clean_codes item_codes))
                      (clean_codes item_codes))))).2
            = PyStr.sorted (elements (categories_found_of
                      (found_rows registry (clean_codes item_codes))
                      (clean_codes item_codes)))) as Hcats
    by (by intros []).
  destruct (decide (size _ = 1)); simpl;
    (split; [done|]; split; [apply sorted_StronglySorted|];
     split; [apply sorted_NoDup, NoDup_elements|];
     intros c; rewrite sorted_elem_of, elem_of_elements;
     apply categories_found_elem_of).
Qed.

(** X2, witness. *)
Lemma detector_categories_witness :
  clean_codes sample_codes <> []
  /\ StronglySorted PyStr.str_le
       (determine_order_type_from_codes sample_registry sample_codes).1.2.
Proof.
  assert (clean_codes sample_codes <> []) as H by (by vm_compute).
  split; [exact H|].
  apply (detector_categories sample_registry sample_codes H).
Defined.

(** ** Detector: mapped and unmapped codes *)

Lemma code_to_category_snoc rows r :
  code_to_category_of (rows ++ [r])
  = <[lc_code r := lc_category r]> (code_to_category_of rows).
Proof. unfold code_to_category_of. by rewrite foldl_snoc. Qed.

Lemma code_to_category_Some rows c cat :
  code_to_category_of rows !! c = Some cat ->
  exists r, r ∈ rows /\ lc_code r = c /\ lc_category r = cat.
Proof.
  induction rows as [|r rows IH] using rev_ind; [done|].
  rewrite code_to_category_snoc, lookup_insert.
  destruct (decide (lc_code r = c)) as [<-|Hne].
  - intros [= <-]. exists r. split; [|done]. apply elem_of_app. right.
    by left.
  - intros (r' & Hr' & ?)%IH. exists r'. split; [|done].
    apply elem_of_app. by left.
Qed.

Lemma code_to_category_None rows c :
  code_to_category_of rows !! c = None <-> c ∉ (lc_code <$> rows).
Proof.
  induction rows as [|r rows IH] using rev_ind.
  - split; [intros _; apply not_elem_of_nil | done].
  - rewrite code_to_category_snoc, fmap_app, not_elem_of_app.
    simpl. rewrite not_elem_of_cons.
    destruct (decide (lc_code r = c)) as [Heq|Hne].
    + rewrite Heq, lookup_insert_eq. split; [done | by intros [_ [? _]]].
    + rewrite lookup_insert_ne by done. split.
      * intros H%IH. split; [done|]. split; [by intros -> |].
        apply not_elem_of_nil.
      * intros [H _]. by apply IH.
Qed.

(** X3. The mapping information splits the cleaned codes in two: a code is
    listed in [unmapped] exactly when it is a cleaned code that [mapped] has
    no entry for; every entry of [mapped] is for a cleaned code and holds the
    category of an active registry row with that code. *)
Theorem detector_mapped_unmapped (registry : list LabourCode)
    (item_codes : list (option string)) :
  let info := (determine_order_type_from_codes registry item_codes).2 in
  (forall c, c ∈ unmapped info <->
             c ∈ clean_codes item_codes /\ mapped info !! c = None)
  /\ (forall c cat, mapped info !! c = Some cat ->
        c ∈ clean_codes item_codes
        /\ exists r, r ∈ registry /\ lc_is_active r = true
                     /\ lc_code r = c /\ lc_category r = cat).
Proof.
  cbv zeta.
  destruct (decide (clean_codes item_codes = [])) as [E|E].
  { rewrite (detector_result_empty _ _ E), E. simpl. split; [|done].
    intros c. split; [by intros ?%elem_of_nil | by intros [?%elem_of_nil _]]. }
  rewrite (detector_result_eq registry item_codes E). cbv zeta. simpl.
  split.
  - intros c. rewrite elem_of_unmapped, code_to_category_None.
    rewrite list_elem_of_fmap. split.
    + intros [Hin Hno]. split; [done|].
      intros (r & -> & (Hr & Hact & _)%elem_of_found_rows). by apply (Hno r).
    + intros [Hin Hno]. split; [done|]. intros r Hr Hact Heq. apply Hno.
      exists r. split; [done|]. apply elem_of_found_rows. by rewrite Heq.
  - intros c cat (r & (Hr & Hact & Hc)%elem_of_found_rows & <- & <-)
      %code_to_category_Some.
    split; [done|]. by exists r.
Qed.

(** ** Detector: independence of order and repetition *)

Lemma tag_present_proper registry registry' item_codes item_codes' t :
  (forall c, c ∈ clean_codes item_codes <-> c ∈ clean_codes item_codes') ->
  (forall r, r ∈ registry /\ lc_is_active r = true
             <-> r ∈ registry' /\ lc_is_active r = true) ->
  tag_present registry item_codes t -> tag_present registry' item_codes' t.
Proof.
  intros Hc Hr [(r & Hin & Hact & Hcode & Hn) | (-> & c & Hin & Hno)].
  - left. exists r. destruct (proj1 (Hr r) (conj Hin Hact)) as [? ?].
    repeat split; try done. by apply Hc.
  - right. split; [done|]. exists c. split; [by apply Hc|].
    intros r Hr' Hact. destruct (proj2 (Hr r) (conj Hr' Hact)) as [? ?].
    by apply Hno.
Qed.

(** X4. The order type and the categories depend only on whether the code
    list is empty, on the set of its cleaned codes and on the set of active
    registry rows: the order of the codes, repeated codes, the order of the
    rows and inactive rows make no difference. *)
Theorem detector_order_independent
    (registry registry' : list LabourCode)
    (item_codes item_codes' : list (option string)) :
  (item_codes = [] <-> item_codes' = []) ->
  (forall c, c ∈ clean_codes item_codes <-> c ∈ clean_codes item_codes') ->
  (forall r, r ∈ registry /\ lc_is_active r = true
             <-> r ∈ registry' /\ lc_is_active r = true) ->
  (determine_order_type_from_codes registry item_codes).1
  = (determine_order_type_from_codes registry' item_codes').1.
Proof.
  intros Hnil Hc Hr.
  destruct (decide (clean_codes item_codes = [])) as [E|E].
  { assert (clean_codes item_codes' = []) as E'.
    { destruct (clean_codes item_codes') as [|c l]; [done|].
      assert (c ∈ clean_codes item_codes) as H by (apply Hc; by left).
      rewrite E in H. by apply elem_of_nil in H. }
    rewrite (detector_result_empty _ _ E), (detector_result_empty _ _ E').
    simpl. destruct (decide (item_codes = [])) as [H|H];
      destruct (decide (item_codes' = [])) as [H'|H']; try done; tauto. }
  assert (clean_codes item_codes' <> []) as E'.
  { intros E'. destruct (clean_codes item_codes) as [|c l]; [done|].
    assert (c ∈ clean_codes item_codes') as H by (apply Hc; by left).
    rewrite E' in H. by apply elem_of_nil in H. }
  rewrite (detector_result_eq _ _ E), (detector_result_eq _ _ E').
  cbv zeta. simpl.
  assert (order_types_found_of
            (found_rows registry (clean_codes item_codes))
            (clean_codes item_codes)
          = order_types_found_of
              (found_rows registry' (clean_codes item_codes'))
              (clean_codes item_codes')) as ->.
  { apply set_eq. intros t. rewrite !order_types_found_tags.
    split; by apply tag_present_proper. }
  assert (categories_found_of
            (found_rows registry (clean_codes item_codes))
            (clean_codes item_codes)
          = categories_found_of
              (found_rows registry' (clean_codes item_codes'))
              (clean_codes item_codes')) as ->.
  { apply set_eq. intros c. rewrite !categories_found_elem_of.
    split.
    - intros [(r & Hin & Hact & Hcode & Hcat) | (-> & code & Hin & Hno)].
      + left. exists r. destruct (proj1 (Hr r) (conj Hin Hact)) as [? ?].
        repeat split; try done. by apply Hc.
      + right. split; [done|]. exists code. split; [by apply Hc|].
        intros r Hr' Hact.
        destruct (proj2 (Hr r) (conj Hr' Hact)) as [? ?]. by apply Hno.
    - intros [(r & Hin & Hact & Hcode & Hcat) | (-> & code & Hin & Hno)].
      + left. exists r. destruct (proj2 (Hr r) (conj Hin Hact)) as [? ?].
        repeat split; try done. by apply Hc.
      + right. split; [done|]. exists code. split; [by apply Hc|].
        intros r Hr' Hact.
        destruct (proj1 (Hr r) (conj Hr' Hact)) as [? ?]. by apply Hno. }
  done.
Qed.

(** X4, witness: the sample codes in another order, with a repetition, and
    the registry without its inactive row and in another order. *)
Lemma detector_order_independent_witness :
  (sample_codes = [] <-> sample_codes_reordered = [])
  /\ (determine_order_type_from_codes sample_registry sample_codes).1
     = (determine_order_type_from_codes sample_registry_active
          sample_codes_reordered).1.
Proof.
  assert (sample_codes = [] <-> sample_codes_reordered = []) as H1
    by (by split).
  split; [exact H1|].
  apply (detector_order_independent sample_registry sample_registry_active
           sample_codes sample_codes_reordered H1).
  - intros c. vm_compute clean_codes. rewrite !elem_of_cons. tauto.
  - intros r. unfold sample_registry, sample_registry_active.
    rewrite !elem_of_cons, !elem_of_nil.
    split; intros [H Hact]; (split; [|done]);
      repeat destruct H as [H|H]; subst; try done; auto.
Defined.

(** ** The map of [_get_item_code_categories] *)

Lemma mixed_iff_two_tags registry item_codes :
  (determine_order_type_from_codes registry item_codes).1.1 = "mixed" <->
  exists t1 t2, t1 <> t2 /\ tag_present registry item_codes t1
                /\ tag_present registry item_codes t2.
Proof.
  destruct (decide (clean_codes item_codes = [])) as [E|E].
  { rewrite (detector_result_empty _ _ E). simpl. split.
    - by destruct (decide _).
    - intros (t1 & _ & _ & H & _). by apply tag_present_nil in H. }
  rewrite (detector_order_type_eq registry item_codes E). cbv zeta.
  pose proof (order_types_found_nonempty registry item_codes E) as H0.
  set (S := order_types_found_of _ _) in *.
  assert (forall t, t ∈ S <-> tag_present registry item_codes t) as HS
    by (intros t; apply order_types_found_tags).
  destruct (decide (size S = 0)) as [?|_]; [done|].
  destruct (decide (size S = 1)) as [H1|H1].
  - destruct (size_1_elem_of S H1) as [x Hx]. apply leibniz_equiv in Hx.
    assert (forall t, tag_present registry item_codes t -> t = x) as Hall.
    { intros t Ht%HS. rewrite Hx in Ht. by apply elem_of_singleton in Ht. }
    split.
    + intros Hm. exfalso.
      assert (tag_present registry item_codes x) as Htx
        by (apply HS; rewrite Hx; by apply elem_of_singleton).
      apply tag_present_not_mixed in Htx. apply Htx.
      rewrite <- Hm, Hx, elements_singleton. done.
    + intros (t1 & t2 & Hne & Ht1%Hall & Ht2%Hall). congruence.
  - split; [|done]. intros _.
    destruct (two_elements S H0 H1) as (x & y & Hne & Hx%HS & Hy%HS).
    by exists x, y.
Qed.

Section CodeCategories.
Context (registry : list LabourCode) (item_codes : list (option string)).

Local Abbreviation cleaned := (clean_codes item_codes).
Local Abbreviation found := (found_rows registry (clean_codes item_codes)).
Local Abbreviation add_row :=
  (fun (result : gmap string code_info) row =>
     let order_type :=
       _normalize_category_to_order_type (Some (lc_category row)) in
     <[lc_code row :=
         {| ci_category := lc_category row;
            ci_order_type := order_type;
            ci_color_class := color_class_of order_type |}]> result).
Local Abbreviation add_sales :=
  (fun (result : gmap string code_info) code =>
     if decide (code ∉ (list_to_set (lc_code <$> found) : gset string))
     then <[code := {| ci_category := "Sales";
                       ci_order_type := "sales";
                       ci_color_class := "badge-sales" |}]> result
     else result).

Lemma item_code_categories_eq :
  clean_codes item_codes <> [] ->
  _get_item_code_categories registry item_codes
  = foldl add_sales (foldl add_row ∅ found) cleaned.
Proof.
  intros E. unfold _get_item_code_categories.
  destruct item_codes as [|c0 cs]; [done|].
  by destruct (clean_codes (c0 :: cs)).
Qed.

Lemma add_row_lookup rows c :
  foldl add_row ∅ rows !! c = None /\ c ∉ (lc_code <$> rows)
  \/ exists r, r ∈ rows /\ lc_code r = c
               /\ foldl add_row ∅ rows !! c = Some (info_of_row r).
Proof.
  induction rows as [|r rows IH] using rev_ind.
  - left. split; [done | apply not_elem_of_nil].
  - rewrite foldl_snoc, fmap_app. cbv beta zeta.
    destruct (decide (lc_code r = c)) as [Heq|Hne].
    + right. exists r. rewrite Heq, lookup_insert_eq.
      split; [apply elem_of_app; right; by left|]. by rewrite <- Heq.
    + rewrite lookup_insert_ne by done.
      destruct IH as [[Hn Hnin] | (r' & Hr' & Hc & Hl)].
      * left. split; [done|]. rewrite not_elem_of_app. split; [done|].
        simpl. rewrite not_elem_of_cons. split; [by intros ->|].
        apply not_elem_of_nil.
      * right. exists r'. split; [apply elem_of_app; by left | done].
Qed.

Lemma add_sales_lookup (m : gmap string code_info) codes c :
  foldl add_sales m codes !! c
  = if decide (c ∈ codes
               /\ c ∉ (list_to_set (lc_code <$> found) : gset string))
    then Some sales_info else m !! c.
Proof.
  revert m. induction codes as [|code codes IH]; intros m.
  - cbn [foldl].
    destruct (decide _) as [[H _]|_]; [by apply elem_of_nil in H | done].
  - cbn [foldl]. rewrite IH. cbv beta.
    destruct (decide (c ∈ codes /\ _)) as [[Hin Hno]|Hn];
      destruct (decide (c ∈ code :: codes /\ _)) as [[Hin' Hno']|Hn'].
    + done.
    + exfalso. apply Hn'. split; [by right | done].
    + apply elem_of_cons in Hin' as [->|Hin']; [|tauto].
      destruct (decide (code ∉ _)) as [_|?]; [|done].
      by rewrite lookup_insert_eq.
    + destruct (decide (code ∉ _)) as [Hcode|_]; [|done].
      rewrite lookup_insert_ne; [done|]. intros ->. apply Hn'.
      split; [by left | done].
Qed.

End CodeCategories.

Lemma item_code_categories_empty registry item_codes :
  clean_codes item_codes = [] ->
  _get_item_code_categories registry item_codes = ∅.
Proof.
  intros E. unfold _get_item_code_categories.
  destruct item_codes; [done|]. by rewrite E.
Qed.

Lemma not_found_code_iff registry cleaned c :
  (c ∉ (list_to_set (lc_code <$> found_rows registry cleaned) : gset string))
  <-> forall r, r ∈ registry -> lc_is_active r = true ->
                lc_code r ∈ cleaned -> lc_code r <> c.
Proof.
  rewrite elem_of_list_to_set, list_elem_of_fmap. split.
  - intros Hno r Hr Hact Hc Heq. apply Hno. exists r.
    split; [done|]. by apply elem_of_found_rows.
  - intros Hno (r & -> & (Hr & Hact & Hc)%elem_of_found_rows).
    by apply (Hno r).
Qed.

(** What the map holds for a code: nothing when it is not a cleaned code,
    the sales information when no active row has it, and otherwise the
    information of an active row that has it. *)
Lemma item_code_categories_cases registry item_codes c :
  let m := _get_item_code_categories registry item_codes in
  ((c ∉ clean_codes item_codes) /\ m !! c = None)
  \/ (c ∈ clean_codes item_codes
      /\ (forall r, r ∈ registry -> lc_is_active r = true -> lc_code r <> c)
      /\ m !! c = Some sales_info)
  \/ (c ∈ clean_codes item_codes
      /\ exists r, r ∈ registry /\ lc_is_active r = true /\ lc_code r = c
                   /\ m !! c = Some (info_of_row r)).
Proof.
  cbv zeta.
  destruct (decide (clean_codes item_codes = [])) as [E|E].
  { left. rewrite (item_code_categories_empty _ _ E), E.
    split; [apply not_elem_of_nil | done]. }
  rewrite (item_code_categories_eq _ _ E), add_sales_lookup.
  destruct (decide (c ∈ clean_codes item_codes /\ _)) as [[Hin Hno]|Hn].
  - right. left. split; [done|]. split; [|done].
    intros r Hr Hact Heq. rewrite not_found_code_iff in Hno.
    apply (Hno r); try done. by rewrite Heq.
  - destruct (add_row_lookup
                (found_rows registry (clean_codes item_codes)) c)
      as [[Hnone Hnin] | (r & Hfound & Heq & Hl)].
    + left. split; [|done]. intros Hin. apply Hn. split; [done|].
      by rewrite elem_of_list_to_set.
    + apply elem_of_found_rows in Hfound as (Hr & Hact & Hc).
      right. right. rewrite <- Heq. split; [done|]. exists r.
      by rewrite Heq.
Qed.

(** X5. The map of [_get_item_code_categories] has an entry exactly for the
    cleaned codes.  A cleaned code that no active registry row has gets
    category "Sales", order type sales and the sales badge; any other entry
    holds the category of an active row with that code, the order type the
    normalizer gives to that category and the badge of that order type. *)
Theorem item_code_categories_lookup (registry : list LabourCode)
    (item_codes : list (option string)) (c : string) :
  let m := _get_item_code_categories registry item_codes in
  (is_Some (m !! c) <-> c ∈ clean_codes item_codes)
  /\ (c ∈ clean_codes item_codes ->
      (forall r, r ∈ registry -> lc_is_active r = true -> lc_code r <> c) ->
      m !! c = Some {| ci_category := "Sales"; ci_order_type := "sales";
                       ci_color_class := "badge-sales" |})
  /\ (forall info, m !! c = Some info ->
      info <> {| ci_category := "Sales"; ci_order_type := "sales";
                 ci_color_class := "badge-sales" |} ->
      exists r, r ∈ registry /\ lc_is_active r = true /\ lc_code r = c
        /\ ci_category info = lc_category r
        /\ ci_order_type info
           = _normalize_category_to_order_type (Some (lc_category r))
        /\ ci_color_class info = color_class_of (ci_order_type info)).
Proof.
  cbv zeta.
  destruct (item_code_categories_cases registry item_codes c)
    as [[Hnin Hm] | [(Hin & Hno & Hm) | (Hin & r & Hr & Hact & Hc & Hm)]];
    rewrite Hm.
  - split; [split; [by intros [? ?] | done]|]. split; [done|]. done.
  - split; [split; [done | by eexists]|]. split; [done|].
    by intros info [= <-] Hne.
  - split; [split; [done | by eexists]|]. split.
    + intros _ Hno. by destruct (Hno r Hr Hact).
    + intros info [= <-] _. by exists r.
Qed.

Lemma NoDup_fmap_eq {A B} (f : A -> B) (l : list A) x y :
  NoDup (f <$> l) -> x ∈ l -> y ∈ l -> f x = f y -> x = y.
Proof.
  induction l as [|a l IH]; simpl; [by intros _ ?%elem_of_nil|].
  intros [Hnin Hnd]%NoDup_cons [->|Hx]%elem_of_cons [->|Hy]%elem_of_cons Hf.
  - done.
  - exfalso. apply Hnin. rewrite Hf. by apply list_elem_of_fmap_2.
  - exfalso. apply Hnin. rewrite <- Hf. by apply list_elem_of_fmap_2.
  - by apply IH.
Qed.

(** With one active row per code, the order types in the map are the tags
    of the detector. *)
Lemma item_code_categories_tags registry item_codes t :
  NoDup (lc_code <$> filter (fun r => lc_is_active r = true) registry) ->
  tag_present registry item_codes t <->
  exists c info, _get_item_code_categories registry item_codes !! c
                 = Some info /\ ci_order_type info = t.
Proof.
  intros Hnd. split.
  - intros [(r & Hr & Hact & Hc & <-) | (-> & c & Hin & Hno)].
    + destruct (item_code_categories_cases registry item_codes (lc_code r))
        as [[Hnin _] | [(_ & Hno & _) | (_ & r' & Hr' & Hact' & Hc' & Hm)]].
      * done.
      * by destruct (Hno r Hr Hact).
      * exists (lc_code r), (info_of_row r'). split; [done|].
        assert (r' = r) as ->; [|done].
        apply (NoDup_fmap_eq lc_code _ _ _ Hnd); try done;
          by apply list_elem_of_filter.
    + destruct (item_code_categories_cases registry item_codes c)
        as [[Hnin _] | [(_ & _ & Hm) | (_ & r & Hr & Hact & Hc & _)]].
      * done.
      * by exists c, sales_info.
      * by destruct (Hno r Hr Hact).
  - intros (c & info & Hm & <-).
    destruct (item_code_categories_cases registry item_codes c)
      as [[_ Hm'] | [(Hin & Hno & Hm') | (Hin & r & Hr & Hact & Hc & Hm')]];
      rewrite Hm' in Hm.
    + done.
    + injection Hm as <-. right. split; [done|]. by exists c.
    + injection Hm as <-. left. exists r. by rewrite Hc.
Qed.

(** X6. When no two active registry rows have the same code, the detector
    answers mixed exactly when [_get_item_code_categories], on the same
    codes, gives two codes different order types. *)
Theorem mixed_iff_codes_classified_differently (registry : list LabourCode)
    (item_codes : list (option string)) :
  NoDup (lc_code <$> filter (fun r => lc_is_active r = true) registry) ->
  (determine_order_type_from_codes registry item_codes).1.1 = "mixed" <->
  exists c1 c2 info1 info2,
    _get_item_code_categories registry item_codes !! c1 = Some info1
    /\ _get_item_code_categories registry item_codes !! c2 = Some info2
    /\ ci_order_type info1 <> ci_order_type info2.
Proof.
  intros Hnd. rewrite mixed_iff_two_tags. split.
  - intros (t1 & t2 & Hne & Ht1 & Ht2).
    apply (item_code_categories_tags _ _ _ Hnd) in Ht1 as (c1 & i1 & H1 & <-).
    apply (item_code_categories_tags _ _ _ Hnd) in Ht2 as (c2 & i2 & H2 & <-).
    by exists c1, c2, i1, i2.
  - intros (c1 & c2 & i1 & i2 & H1 & H2 & Hne).
    exists (ci_order_type i1), (ci_order_type i2). split; [done|].
    split; apply (item_code_categories_tags _ _ _ Hnd); eauto.
Qed.

(** X6, witness. *)
Lemma mixed_iff_codes_classified_differently_witness :
  NoDup (lc_code <$> filter (fun r => lc_is_active r = true) sample_registry)
  /\ ((determine_order_type_from_codes sample_registry sample_codes).1.1
      = "mixed" <->
      exists c1 c2 info1 info2,
        _get_item_code_categories sample_registry sample_codes !! c1
        = Some info1
        /\ _get_item_code_categories sample_registry sample_codes !! c2
           = Some info2
        /\ ci_order_type info1 <> ci_order_type info2).
Proof.
  assert (NoDup (lc_code <$> filter (fun r => lc_is_active r = true)
                               sample_registry)) as H.
  { vm_compute. apply (bool_decide_unpack _). by vm_compute. }
  split; [exact H|].
  apply (mixed_iff_codes_classified_differently sample_registry sample_codes H).
Defined.

(** ** Aggregator: number of lines *)

Lemma odict_set_length {V} k (v : V) d :
  length (ODict.set k v d) <= S (length d).
Proof.
  induction d as [|[k' v'] d IH]; simpl; [lia|].
  destruct (decide (k = k')); simpl; lia.
Qed.

Lemma aggregate_items_length items :
  length (_aggregate_items items) = length (ODict.keys (aggregate_bucket items)).
Proof.
  unfold _aggregate_items, ODict.values, ODict.keys.
  by rewrite !length_fmap.
Qed.

Lemma aggregate_bucket_length_le items :
  length (aggregate_bucket items) <= length items.
Proof.
  induction items as [|it items IH] using rev_ind; [simpl; lia|].
  rewrite aggregate_bucket_snoc, length_app. simpl.
  unfold aggregate_step. cbv zeta.
  etrans; [apply odict_set_length | lia].
Qed.

(** X7. The aggregator gives one line per distinct key: the number of
    output lines is the number of distinct keys of the input, so it is at
    most the number of items and it is zero only for an empty input. *)
Theorem aggregate_lines_count (items : list Extracted.item) :
  length (_aggregate_items items)
  = size (list_to_set (item_key <$> items) : gset string)
  /\ length (_aggregate_items items) <= length items
  /\ (_aggregate_items items = [] <-> items = []).
Proof.
  rewrite aggregate_items_length.
  assert (length (ODict.keys (aggregate_bucket items))
          = size (list_to_set (item_key <$> items) : gset string)) as Hsize.
  { rewrite <- (size_list_to_set (C := gset string))
      by apply aggregate_bucket_NoDup.
    f_equal. apply set_eq. intros k.
    by rewrite !elem_of_list_to_set, aggregate_bucket_keys. }
  split; [done|]. split.
  - unfold ODict.keys. rewrite length_fmap. apply aggregate_bucket_length_le.
  - split.
    + intros Hnil. destruct items as [|it items]; [done|]. exfalso.
      assert (item_key it ∈ ODict.keys (aggregate_bucket (it :: items)))
        as Hk by (apply aggregate_bucket_keys; by left).
      assert (length (_aggregate_items (it :: items)) = 0) as Hl
        by (by rewrite Hnil).
      rewrite aggregate_items_length in Hl.
      destruct (ODict.keys _); [by apply elem_of_nil in Hk | done].
    + by intros ->.
Qed.

(** ** Aggregator: what the bucket conserves *)

Lemma dec_sum_app (l1 l2 : list Decimal) :
  dec_sum (l1 ++ l2) = (dec_sum l1 + dec_sum l2)%Qc.
Proof.
  induction l1 as [|x l1 IH]; simpl.
  - rewrite dec_sum_nil. ring.
  - rewrite !dec_sum_cons, IH. ring.
Qed.

Section BucketSum.
Context (mu : Bucket.entry -> Decimal) (w : Extracted.item -> Decimal).
Context (Hinit : forall it, mu (bucket_init it) = 0%Qc).
Context (Hacc : forall it e, mu (bucket_acc it e) = (mu e + w it)%Qc).

Lemma odict_set_sum k v (d : list (string * Bucket.entry)) :
  dec_sum (mu <$> ODict.values (ODict.set k v d))
  = (dec_sum (mu <$> ODict.values d)
     - default 0%Qc (mu <$> ODict.get k d) + mu v)%Qc.
Proof.
  unfold ODict.values. induction d as [|[k' v'] d IH]; cbn -[dec_sum].
  - rewrite dec_sum_cons, dec_sum_nil. ring.
  - destruct (decide (k = k')); cbn -[dec_sum]; rewrite !dec_sum_cons.
    + ring.
    + rewrite IH. ring.
Qed.

(** The sum of a measure over the entries is the sum of what each item
    adds to it. *)
Lemma bucket_sum items :
  dec_sum (mu <$> ODict.values (aggregate_bucket items))
  = dec_sum (w <$> items).
Proof.
  induction items as [|it items IH] using rev_ind; [done|].
  rewrite aggregate_bucket_snoc, fmap_app, dec_sum_app. simpl.
  unfold aggregate_step. rewrite odict_set_sum, IH, Hacc.
  rewrite dec_sum_cons, dec_sum_nil.
  destruct (ODict.get (item_key it) (aggregate_bucket items)); simpl.
  - ring.
  - rewrite Hinit. ring.
Qed.

End BucketSum.

Lemma qty_sum_pos g :
  g <> [] -> Forall (fun it => (0 < item_qty it)%Qc) g -> (0 < qty_sum g)%Qc.
Proof.
  intros Hne Hall. destruct Hall as [|it g Hit Hall]; [done|].
  rewrite qty_sum_cons. apply Qcplus_pos_nonneg; [done|].
  clear Hne Hit. induction Hall as [|x g Hx _ IH].
  - unfold qty_sum. simpl. by rewrite dec_sum_nil.
  - rewrite qty_sum_cons. apply Qcplus_nonneg_nonneg; [|done].
    by apply Qclt_le_weak.
Qed.

(** With exact sums and positive quantities, the quantities of the output
    lines add up to the quantities of the items. *)
Lemma aggregate_qty_sum (items : list Extracted.item) :
  Forall (fun it => (0 < item_qty it)%Qc) items ->
  dec_sum (Agg.qty <$> _aggregate_items items) = dec_sum (item_qty <$> items).
Proof.
  intros Hpos.
  rewrite <- (bucket_sum Bucket.qty item_qty); [|done|done].
  f_equal. unfold _aggregate_items. rewrite <- list_fmap_compose.
  apply Forall_fmap_ext_1, Forall_forall.
  intros e (p & -> & Hp)%list_elem_of_fmap. destruct p as [k e]. simpl.
  apply (odict_get_elem_of _ _ _ (aggregate_bucket_NoDup items)) in Hp.
  rewrite aggregate_bucket_get in Hp.
  unfold final_qty_of. rewrite (entry_of_group_qty _ _ Hp).
  assert (0 < qty_sum (group k items))%Qc as Hq.
  { apply qty_sum_pos.
    - intros Hnil. by rewrite Hnil in Hp.
    - apply Forall_forall. intros it [_ Hit]%list_elem_of_filter.
      rewrite Forall_forall in Hpos. by apply Hpos. }
  unfold dec_pos. by rewrite bool_decide_eq_true_2.
Qed.

(** X8. In the arithmetic of the decimal context, whatever its rounding:
    when every item has a positive quantity (as parsed, 1 when absent or
    unparsable) and no addition of quantities is rounded (the exact sum of
    any of them is kept by the rounding), aggregation conserves the
    quantity: the quantities of the output lines add up to the quantities of
    the input items. *)
Theorem aggregate_conserves_qty (round : Decimal -> Decimal)
    (items : list Extracted.item) :
  Forall (fun it => (0 < item_qty it)%Qc) items ->
  sums_exact round (item_qty <$> items) ->
  dec_sum (Agg.qty <$> _aggregate_items_ctx round items)
  = dec_sum (item_qty <$> items).
Proof.
  intros Hpos Hq. rewrite (aggregate_items_ctx_qty _ _ Hq).
  by apply aggregate_qty_sum.
Qed.

(** X8, witness, with the rounding of the default context. *)
Lemma aggregate_conserves_qty_witness :
  Forall (fun it => (0 < item_qty it)%Qc) value_items
  /\ dec_sum (Agg.qty <$> _aggregate_items_ctx round28 value_items)
     = dec_sum (item_qty <$> value_items).
Proof.
  assert (Forall (fun it => (0 < item_qty it)%Qc) value_items) as H
    by (repeat constructor).
  split; [exact H|].
  apply (aggregate_conserves_qty round28 value_items H).
  apply sums_exactb_spec. vm_compute. reflexivity.
Defined.

(** ** Line items created from the aggregated lines *)

Lemma extracted_line_items_eq registry inv items :
  extracted_line_items registry inv items
  = line_item_of inv
      (_get_item_code_categories registry (codes_of (_aggregate_items items)))
    <$> _aggregate_items items.
Proof. unfold extracted_line_items. by destruct items. Qed.


(** ** Classification of the created line items *)

Lemma elem_of_clean_codes item_codes c :
  c ∈ clean_codes item_codes <->
  exists s, Some s ∈ item_codes /\ PyStr.truthy s = true /\ c = PyStr.strip s.
Proof.
  unfold clean_codes. rewrite list_elem_of_omap. split.
  - intros ([s|] & Hin & H); [|done]. exists s.
    destruct (PyStr.truthy s); [|done]. by injection H as <-.
  - intros (s & Hin & Ht & ->). exists (Some s). by rewrite Ht.
Qed.

Lemma item_code_of_strip it : PyStr.strip (item_code_of it) = item_code_of it.
Proof. unfold item_code_of. apply strip_idemp. Qed.

Lemma line_item_of_code inv m a :
  (Agg.code a = None ->
   li_code (line_item_of inv m a) = None
   /\ li_order_type (line_item_of inv m a) = Some "unspecified")
  /\ (forall c, Agg.code a = Some c -> PyStr.truthy c = true ->
       li_code (line_item_of inv m a) = Some c
       /\ li_order_type (line_item_of inv m a)
          = Some match m !! c with
                 | Some info => ci_order_type info
                 | None => "unspecified"
                 end).
Proof.
  unfold line_item_of. cbn [li_code li_order_type]. split.
  - by intros ->.
  - intros c -> Ht. unfold str_or_none. by rewrite Ht.
Qed.

(** X9. Every created line item belongs to the invoice and has tax amount
    0.  A line without code gets the order type unspecified.  A line with a
    code has a code that is not empty and has no surrounding white space;
    its order type is sales when no active registry row has the code, and
    otherwise it is the order type the normalizer gives to the category of
    an active row with that code. *)
Theorem line_items_classified (registry : list LabourCode) (inv : Z)
    (items : list Extracted.item) :
  Forall (fun li =>
    li_invoice_id li = inv /\ li_tax_amount li = Some 0%Qc
    /\ match li_code li with
       | None => li_order_type li = Some "unspecified"
       | Some c =>
           c <> "" /\ PyStr.strip c = c
           /\ ((forall r, r ∈ registry -> lc_is_active r = true ->
                          lc_code r <> c) ->
               li_order_type li = Some "sales")
           /\ ((forall r, r ∈ registry -> lc_is_active r = true ->
                          lc_code r <> c)
               \/ exists r, r ∈ registry /\ lc_is_active r = true
                    /\ lc_code r = c
                    /\ li_order_type li
                       = Some (_normalize_category_to_order_type
                                 (Some (lc_category r))))
       end)
    (extracted_line_items registry inv items).
Proof.
  rewrite extracted_line_items_eq. apply Forall_forall.
  intros li (a & -> & Ha)%list_elem_of_fmap.
  split; [done|]. split; [done|].
  pose proof Ha as Ha'.
  apply aggregate_items_elem_of in Ha' as (k & e & He & Hae).
  apply entry_of_group_Some in He as (it & g & _ & ->).
  assert (Agg.code a = str_or_none (item_code_of it)) as Hcode.
  { rewrite Hae. cbn [finalize Agg.code]. by rewrite fold_code. }
  unfold str_or_none in Hcode.
  destruct (PyStr.truthy (item_code_of it)) eqn:Ht.
  2:{ by destruct (proj1 (line_item_of_code inv
              (_get_item_code_categories registry
                 (codes_of (_aggregate_items items))) a) Hcode) as [-> ->]. }
  destruct (proj2 (line_item_of_code inv
              (_get_item_code_categories registry
                 (codes_of (_aggregate_items items))) a)
              (item_code_of it) Hcode Ht) as [-> ->].
  split; [by apply truthy_nonempty|]. split; [apply item_code_of_strip|].
  assert (item_code_of it ∈ clean_codes (codes_of (_aggregate_items items)))
    as Hclean.
  { apply elem_of_clean_codes. exists (item_code_of it).
    split; [|by rewrite item_code_of_strip].
    unfold codes_of. apply list_elem_of_filter. split; [done|].
    apply list_elem_of_fmap. exists a. by rewrite Hcode. }
  destruct (item_code_categories_cases registry
              (codes_of (_aggregate_items items)) (item_code_of it))
    as [[Hnin _] | [(_ & Hno & Hm) | (_ & r & Hr & Hact & Hc & Hm)]];
    [done | |]; rewrite Hm.
  - split; [done | by left].
  - split; [intros Hno; by destruct (Hno r Hr Hact)|].
    right. by exists r.
Qed.

(** ** Revenue: every key of the result *)

Lemma revenue_step_lookup_any result item k :
  dom result = result_keys -> k ∈ result_keys ->
  revenue_step result item !! k
  = (fun cur => (cur + (if decide (revenue_target item = k)
                        then line_value item else 0))%Qc) <$> result !! k.
Proof.
  intros Hdom Hk. unfold revenue_step, revenue_target.
  assert (is_Some (result !! k)) as [v Hv]
    by (apply elem_of_dom; by rewrite Hdom).
  destruct (result !! revenue_tag item) as [cur|] eqn:E.
  - assert (revenue_tag item ∈ result_keys) as Hin
      by (apply elem_of_dom_2 in E; by rewrite Hdom in E).
    destruct (decide (revenue_tag item ∈ result_keys)) as [_|?]; [|done].
    destruct (decide (revenue_tag item = k)) as [Heq|Hne].
    + rewrite <- Heq, lookup_insert_eq, E. done.
    + rewrite lookup_insert_ne by done. rewrite Hv. simpl. f_equal. ring.
  - assert (revenue_tag item ∉ result_keys) as Hnin
      by (apply not_elem_of_dom in E; by rewrite Hdom in E).
    destruct (decide (revenue_tag item ∈ result_keys)) as [?|_]; [done|].
    destruct (decide ("unknown" = k)) as [Heq|Hne].
    + rewrite <- Heq in Hv. rewrite <- Heq, lookup_insert_eq, Hv. done.
    + rewrite lookup_insert_ne by done. rewrite Hv. simpl. f_equal. ring.
Qed.

Lemma revenue_fold_dom line_items result :
  dom result = result_keys ->
  dom (foldl revenue_step result line_items) = result_keys.
Proof.
  revert result. induction line_items as [|item l IH]; intros result Hdom;
    [done|]. simpl. by apply IH, revenue_step_dom.
Qed.

Lemma revenue_fold_lookup_any line_items result k v :
  dom result = result_keys -> k ∈ result_keys -> result !! k = Some v ->
  foldl revenue_step result line_items !! k
  = Some (v + dec_sum (line_value
                         <$> filter (fun item => revenue_target item = k)
                                    line_items))%Qc.
Proof.
  intros Hdom Hk. revert result v Hdom.
  induction line_items as [|item l IH]; intros result v Hdom Hv.
  - cbn -[dec_sum]. rewrite dec_sum_nil, Hv. f_equal. ring.
  - cbn [foldl]. erewrite IH; [| by apply revenue_step_dom |].
    2:{ rewrite revenue_step_lookup_any by done. by rewrite Hv. }
    rewrite filter_cons. destruct (decide (revenue_target item = k)).
    + rewrite fmap_cons, dec_sum_cons. f_equal. ring.
    + f_equal. ring.
Qed.

Lemma revenue_fold_Permutation l1 l2 result :
  dom result = result_keys -> l1 ≡ₚ l2 ->
  foldl revenue_step result l1 = foldl revenue_step result l2.
Proof.
  intros Hdom Hp. apply map_eq. intros k.
  destruct (decide (k ∈ result_keys)) as [Hk|Hk].
  - assert (is_Some (result !! k)) as [v Hv]
      by (apply elem_of_dom; by rewrite Hdom).
    rewrite !(revenue_fold_lookup_any _ _ k v) by done.
    f_equal. f_equal. apply dec_sum_Permutation. by rewrite Hp.
  - rewrite <- (revenue_fold_dom l1 result Hdom) in Hk.
    pose proof Hk as Hk'.
    rewrite (revenue_fold_dom l1 result Hdom),
      <- (revenue_fold_dom l2 result Hdom) in Hk'.
    apply not_elem_of_dom in Hk, Hk'. by rewrite Hk, Hk'.
Qed.

(** X10. The revenue report depends only on the selected invoices and on
    the line items of these invoices, whatever their order: line items of
    other invoices contribute nothing, and a permutation of the rows of the
    table does not change any entry of the result. *)
Theorem revenue_rows_order_irrelevant (invoice_ids : list Z)
    (table table' : list InvoiceLineItem) :
  table ≡ₚ table' ->
  get_revenue_by_order_type invoice_ids table
  = get_revenue_by_order_type invoice_ids table'
  /\ get_revenue_by_order_type invoice_ids table
     = get_revenue_by_order_type invoice_ids
         (filter (fun item => li_invoice_id item ∈ invoice_ids) table).
Proof.
  intros Hp. unfold get_revenue_by_order_type.
  destruct invoice_ids as [|i ids]; [done|].
  set (ids' := i :: ids). split.
  - rewrite (revenue_fold_Permutation
               (filter (fun item => li_invoice_id item ∈ ids') table)
               (filter (fun item => li_invoice_id item ∈ ids') table'));
      [done | apply revenue_init_dom | by rewrite Hp].
  - by rewrite list_filter_filter_l by tauto.
Qed.

(** X10, witness. *)
Lemma revenue_rows_order_irrelevant_witness :
  revenue_table ≡ₚ reverse revenue_table
  /\ get_revenue_by_order_type [1%Z] revenue_table
     = get_revenue_by_order_type [1%Z] (reverse revenue_table).
Proof.
  assert (revenue_table ≡ₚ reverse revenue_table) as H
    by (symmetry; apply reverse_Permutation).
  split; [exact H|].
  apply (revenue_rows_order_irrelevant [1%Z] revenue_table
           (reverse revenue_table) H).
Defined.

(** ** Revenue: nothing is lost *)

Lemma spec_bucket_key_known item : spec_bucket_key item ∈ known_keys.
Proof.
  unfold spec_bucket_key. destruct (decide _); [done|].
  unfold known_keys. rewrite !elem_of_cons. tauto.
Qed.

Lemma spec_buckets_total line_items :
  (spec_bucket "sales" line_items + spec_bucket "service" line_items
   + spec_bucket "labour" line_items + spec_bucket "unknown" line_items)%Qc
  = dec_sum (line_value <$> line_items).
Proof.
  induction line_items as [|item l IH].
  - unfold spec_bucket. cbn -[dec_sum]. rewrite dec_sum_nil. ring.
  - rewrite !spec_bucket_cons, fmap_cons, dec_sum_cons, <- IH.
    pose proof (spec_bucket_key_known item) as Hk. unfold known_keys in Hk.
    rewrite !elem_of_cons, elem_of_nil in Hk.
    destruct Hk as [-> | [-> | [-> | [-> | []]]]]; simpl; ring.
Qed.

(** X11. When no selected line item has the order type "total" or "count",
    the total of the report is the sum of the values (line total plus tax
    amount) of all line items of the selected invoices: every item is counted
    once, under its own bucket or under unknown. *)
Theorem revenue_total_conserved (invoice_ids : list Z)
    (table : list InvoiceLineItem) :
  invoice_ids <> [] ->
  let line_items :=
    filter (fun item => li_invoice_id item ∈ invoice_ids) table in
  Forall (fun item => revenue_tag item <> "total"
                      /\ revenue_tag item <> "count") line_items ->
  get_revenue_by_order_type invoice_ids table !! "total"
  = Some (dec_sum (line_value <$> line_items)).
Proof.
  intros Hne line_items Hall.
  destruct (revenue_buckets_without_total_count invoice_ids table Hne Hall)
    as [_ Ht].
  rewrite Ht. f_equal. apply spec_buckets_total.
Qed.

(** X11, witness. *)
Lemma revenue_total_conserved_witness :
  [1%Z] <> []
  /\ get_revenue_by_order_type [1%Z] revenue_table !! "total"
     = Some (dec_sum (line_value
               <$> filter (fun item => li_invoice_id item ∈ [1%Z])
                          revenue_table)).
Proof.
  assert ([1%Z] <> []) as H by done.
  split; [exact H|].
  apply (revenue_total_conserved [1%Z] revenue_table H).
  vm_compute. repeat constructor; done.
Defined.

(** ** Invoice totals *)

Lemma none_or_zero_false x :
  none_or_zero x = false <-> exists d, x = Some d /\ d <> 0%Qc.
Proof.
  destruct x as [d|]; simpl.
  - split.
    + intros E. exists d. split; [done|]. intros ->. by vm_compute in E.
    + intros (d' & [= <-] & Hd). destruct (Qc_eq_bool d 0) eqn:E; [|done].
      by apply Qc_eq_bool_correct in E.
  - split; [done | by intros (? & ? & _)].
Qed.

Lemma none_or_zero_or_zero x : none_or_zero x = true -> or_zero x = 0%Qc.
Proof.
  destruct x as [d|]; simpl; [|done]. intros E.
  by apply Qc_eq_bool_correct in E.
Qed.

(** X12. The amounts assigned to the invoice before it is saved keep the
    amounts of the extracted header: a subtotal, tax or total that is
    extracted as a decimal other than zero is assigned as it is, whatever the
    line items are.  When no total other than zero is extracted, the total
    assigned is the subtotal assigned plus the tax assigned.  (The save then
    rounds each amount to the two decimal places of its column.) *)
Theorem invoice_totals_keep_extracted
    (extracted_subtotal extracted_tax extracted_total : pyval)
    (line_items : list InvoiceLineItem) :
  let totals := invoice_totals extracted_subtotal extracted_tax
                  extracted_total line_items in
  (forall d, ensure_decimal extracted_subtotal None = Some d -> d <> 0%Qc ->
             totals.1.1 = d)
  /\ (forall d, ensure_decimal extracted_tax None = Some d -> d <> 0%Qc ->
                totals.1.2 = d)
  /\ (forall d, ensure_decimal extracted_total None = Some d -> d <> 0%Qc ->
                totals.2 = d)
  /\ (none_or_zero (ensure_decimal extracted_total None) = true ->
      totals.2 = (totals.1.1 + totals.1.2)%Qc).
Proof.
  cbv zeta. unfold invoice_totals. cbn [fst snd].
  set (s0 := ensure_decimal extracted_subtotal None).
  set (t0 := ensure_decimal extracted_tax None).
  set (tot0 := ensure_decimal extracted_total None).
  set (from_items := none_or_zero s0 && _ && _).
  split; [|split; [|split]].
  - intros d Hs Hd.
    assert (none_or_zero s0 = false) as Hz
      by (apply none_or_zero_false; by exists d).
    unfold from_items. rewrite Hz, Hs. done.
  - intros d Ht Hd.
    assert (none_or_zero t0 = false) as Hz
      by (apply none_or_zero_false; by exists d).
    rewrite Hz, andb_false_r, Ht. done.
  - intros d Ht Hd.
    assert (none_or_zero tot0 = false) as Hz
      by (apply none_or_zero_false; by exists d).
    rewrite Hz, Ht. simpl.
    destruct (Qc_eq_bool d 0) eqn:E; [|done].
    by apply Qc_eq_bool_correct in E.
  - intros ->.
    destruct (none_or_zero (Some _)) eqn:E; [done|].
    by simpl.
Qed.

(** X13. When no subtotal other than zero is extracted and the stored line
    items have a positive sum of line totals, the stored subtotal is that
    sum, so it is not zero; if moreover no tax other than zero is extracted,
    the stored tax is the sum of the tax amounts of the line items. *)
Theorem invoice_totals_from_line_items
    (extracted_subtotal extracted_tax extracted_total : pyval)
    (line_items : list InvoiceLineItem) :
  none_or_zero (ensure_decimal extracted_subtotal None) = true ->
  (0 < dec_sum (li_line_total <$> line_items))%Qc ->
  let totals := invoice_totals extracted_subtotal extracted_tax
                  extracted_total line_items in
  totals.1.1 = dec_sum (li_line_total <$> line_items)
  /\ totals.1.1 <> 0%Qc
  /\ (none_or_zero (ensure_decimal extracted_tax None) = true ->
      totals.1.2
      = dec_sum ((fun item => or_zero (li_tax_amount item)) <$> line_items)).
Proof.
  intros Hs Hpos. cbv zeta. unfold invoice_totals. cbn [fst snd].
  assert (line_items <> []) as Hne.
  { intros ->. by vm_compute in Hpos. }
  rewrite Hs. rewrite (bool_decide_eq_false_2 _ Hne).
  unfold dec_pos. rewrite (bool_decide_eq_true_2 _ Hpos). cbn [andb negb].
  split; [done|]. split.
  - cbn [or_zero]. intros H. rewrite H in Hpos. by vm_compute in Hpos.
  - intros ->. cbn [or_zero]. f_equal.
    apply list_fmap_ext. intros _ item _.
    destruct (li_tax_amount item) as [d|]; simpl; [|done].
    destruct (Qc_eq_bool d 0) eqn:E; simpl; [|done].
    by apply Qc_eq_bool_correct in E.
Qed.

(** X13, witness. *)
Lemma invoice_totals_from_line_items_witness :
  none_or_zero (ensure_decimal PyNone None) = true
  /\ (0 < dec_sum (li_line_total <$> stored_lines))%Qc
  /\ (invoice_totals PyNone (PyStr "") PyNone stored_lines).1.1
     = dec_sum (li_line_total <$> stored_lines).
Proof.
  assert (none_or_zero (ensure_decimal PyNone None) = true) as H1 by done.
  assert (0 < dec_sum (li_line_total <$> stored_lines))%Qc as H2 by done.
  split; [exact H1|]. split; [exact H2|].
  apply (invoice_totals_from_line_items PyNone (PyStr "") PyNone
           stored_lines H1 H2).
Defined.

(** ** The order type of an order with several invoices *)

Lemma elem_of_truthy_codes codes s :
  s ∈ truthy_codes codes <-> Some s ∈ codes /\ PyStr.truthy s = true.
Proof.
  unfold truthy_codes. rewrite list_elem_of_omap. split.
  - intros ([x|] & Hin & H); [|done].
    destruct (PyStr.truthy x) eqn:E; [|done]. by injection H as <-.
  - intros [Hin Ht]. exists (Some s). by rewrite Ht.
Qed.

Lemma elem_of_distinct_codes codes s :
  s ∈ distinct_codes codes <-> Some s ∈ codes /\ PyStr.truthy s = true.
Proof.
  unfold distinct_codes.
  by rewrite sorted_elem_of, elem_of_elements, elem_of_list_to_set,
    elem_of_truthy_codes.
Qed.

Lemma clean_distinct_codes codes c :
  c ∈ clean_codes (Some <$> distinct_codes codes) <-> c ∈ clean_codes codes.
Proof.
  rewrite !elem_of_clean_codes. split.
  - intros (s & (x & [= <-] & Hx)%list_elem_of_fmap & Ht & ->).
    apply elem_of_distinct_codes in Hx as [Hx _]. by exists s.
  - intros (s & Hin & Ht & ->). exists s. split; [|done].
    apply list_elem_of_fmap. exists s. split; [done|].
    by apply elem_of_distinct_codes.
Qed.

Lemma tag_present_distinct registry codes t :
  tag_present registry (Some <$> distinct_codes codes) t
  <-> tag_present registry codes t.
Proof.
  split; apply tag_present_proper; try done; intros c;
    by rewrite clean_distinct_codes.
Qed.

Lemma clean_codes_nonempty codes :
  truthy_codes codes <> [] -> clean_codes codes <> [].
Proof.
  intros Hne Hnil. destruct (truthy_codes codes) as [|s l] eqn:E; [done|].
  assert (s ∈ truthy_codes codes) as Hs by (rewrite E; by left).
  apply elem_of_truthy_codes in Hs as [Hin Ht].
  assert (PyStr.strip s ∈ clean_codes codes) as H
    by (apply elem_of_clean_codes; by exists s).
  rewrite Hnil in H. by apply elem_of_nil in H.
Qed.

Lemma distinct_codes_nil codes :
  truthy_codes codes = [] -> distinct_codes codes = [].
Proof. intros E. unfold distinct_codes. by rewrite E. Qed.

(** The type and the categories of the detector's result, by cases on the
    number of tags. *)
Lemma detector_type_cases registry item_codes :
  clean_codes item_codes <> [] ->
  let types :=
    order_types_found_of (found_rows registry (clean_codes item_codes))
                         (clean_codes item_codes) in
  let cats :=
    categories_found_of (found_rows registry (clean_codes item_codes))
                        (clean_codes item_codes) in
  let result := determine_order_type_from_codes registry item_codes in
  result.1.2 = PyStr.sorted (elements cats)
  /\ ((exists x, types = {[ x ]} /\ result.1.1 = x
                 /\ tag_present registry item_codes x)
      \/ (size types <> 0 /\ size types <> 1 /\ result.1.1 = "mixed")).
Proof.
  intros E. cbv zeta. rewrite (detector_result_eq _ _ E). cbv zeta.
  pose proof (order_types_found_nonempty registry item_codes E) as H0.
  set (S := order_types_found_of _ _) in *.
  destruct (decide (size S = 0)) as [?|_]; [done|].
  destruct (decide (size S = 1)) as [H1|H1]; simpl.
  - split; [done|]. left.
    destruct (size_1_elem_of S H1) as [x Hx]. apply leibniz_equiv in Hx.
    exists x. rewrite Hx, elements_singleton. repeat split.
    apply order_types_found_tags. fold S. rewrite Hx.
    by apply elem_of_singleton.
  - split; [done|]. by right.
Qed.

Lemma tag_present_truthy registry item_codes t :
  tag_present registry item_codes t -> PyStr.truthy t = true.
Proof.
  intros [(r & _ & _ & _ & <-) | [-> _]]; [|done].
  by destruct (normalize_cases (Some (lc_category r))) as [-> | [-> | ->]].
Qed.

Lemma invoice_types_no_codes registry codes :
  truthy_codes codes = [] -> invoice_types registry codes = {[ "unspecified" ]}.
Proof.
  intros E. unfold invoice_types. by rewrite (distinct_codes_nil _ E).
Qed.

Lemma category_type_row (r : LabourCode) :
  lc_category r <> "sales" ->
  category_type (lc_category r)
  = _normalize_category_to_order_type (Some (lc_category r)).
Proof. intros H. unfold category_type. by rewrite decide_False. Qed.

(** With a code on the invoice and no registry category "sales", an invoice
    adds the tags of its codes. *)
Lemma invoice_types_tags registry codes t :
  truthy_codes codes <> [] ->
  (forall r, r ∈ registry -> lc_is_active r = true ->
             lc_category r <> "sales") ->
  t ∈ invoice_types registry codes <-> tag_present registry codes t.
Proof.
  intros Hne Hsales. rewrite <- tag_present_distinct.
  assert (clean_codes (Some <$> distinct_codes codes) <> []) as E.
  { intros Hnil. apply (clean_codes_nonempty codes Hne).
    destruct (clean_codes codes) as [|c l] eqn:Ec; [done|].
    assert (c ∈ clean_codes (Some <$> distinct_codes codes)) as H
      by (apply clean_distinct_codes; rewrite Ec; by left).
    rewrite Hnil in H. by apply elem_of_nil in H. }
  unfold invoice_types.
  destruct (detector_type_cases registry _ E) as [Hcats Htype].
  set (l := Some <$> distinct_codes codes) in *.
  set (C := categories_found_of _ _) in *.
  assert (PyStr.truthy (determine_order_type_from_codes registry l).1.1
          = true) as ->.
  { destruct Htype as [(x & _ & -> & Hx) | (_ & _ & ->)]; [|done].
    by eapply tag_present_truthy. }
  assert (forall t', t' ∈ (list_to_set (category_type
                             <$> PyStr.sorted (elements C)) : gset string)
                     <-> tag_present registry l t') as Hset.
  { intros t'. rewrite elem_of_list_to_set, list_elem_of_fmap. split.
    - intros (cat & -> & Hcat%sorted_elem_of%elem_of_elements).
      apply categories_found_elem_of in Hcat
        as [(r & Hr & Hact & Hc & <-) | (-> & c & Hc & Hno)].
      + left. exists r. rewrite category_type_row by by apply Hsales. done.
      + right. split; [done|]. by exists c.
    - intros [(r & Hr & Hact & Hc & <-) | (-> & c & Hc & Hno)].
      + exists (lc_category r). split.
        * by rewrite category_type_row by by apply Hsales.
        * apply sorted_elem_of, elem_of_elements, categories_found_elem_of.
          left. by exists r.
      + exists "sales". split; [done|].
        apply sorted_elem_of, elem_of_elements, categories_found_elem_of.
        right. split; [done|]. by exists c. }
  rewrite Hcats.
  destruct (PyStr.sorted (elements C)) as [|c0 cl] eqn:Es; [|apply Hset].
  (* the categories cannot be empty *)
  exfalso.
  assert (exists x, tag_present registry l x) as [x Hx].
  { destruct Htype as [(x & _ & _ & Hx) | (H0 & H1 & _)]; [by exists x|].
    destruct (two_elements _ H0 H1) as (x & _ & _ & Hx & _).
    exists x. by apply order_types_found_tags. }
  apply Hset in Hx. simpl in Hx. by apply elem_of_empty in Hx.
Qed.

Lemma tag_present_join registry (invoices : list (list (option string))) t :
  tag_present registry (mjoin invoices) t
  <-> exists codes, codes ∈ invoices /\ tag_present registry codes t.
Proof.
  assert (forall c, c ∈ clean_codes (mjoin invoices)
                    <-> exists codes, codes ∈ invoices
                                      /\ c ∈ clean_codes codes) as Hc.
  { intros c. rewrite elem_of_clean_codes. split.
    - intros (s & (codes & Hs & Hin)%list_elem_of_join & Ht & ->).
      exists codes. split; [done|]. apply elem_of_clean_codes. by exists s.
    - intros (codes & Hin & (s & Hs & Ht & ->)%elem_of_clean_codes).
      exists s. split; [|done]. apply list_elem_of_join. by exists codes. }
  unfold tag_present. split.
  - intros [(r & Hr & Hact & (codes & Hin & Hcode)%Hc & Hn)
           | (-> & c & (codes & Hin & Hcode)%Hc & Hno)];
      exists codes; (split; [done|]).
    + left. by exists r.
    + right. split; [done|]. by exists c.
  - intros (codes & Hin & [(r & Hr & Hact & Hcode & Hn)
                          | (-> & c & Hcode & Hno)]).
    + left. exists r. repeat split; try done. apply Hc. by exists codes.
    + right. split; [done|]. exists c. split; [|done]. apply Hc.
      by exists codes.
Qed.

(** X14. When every invoice of the order has a line item with a code and
    no active registry row has the category "sales", the order type stored
    on the order is the order type the detector gives to the codes of all
    the invoices taken together. *)
Theorem order_type_of_invoices (registry : list LabourCode)
    (invoices : list (list (option string)))
    (detected_order_type : option string) (categories : list string) :
  invoices <> [] ->
  Forall (fun codes => truthy_codes codes <> []) invoices ->
  (forall r, r ∈ registry -> lc_is_active r = true ->
             lc_category r <> "sales") ->
  (aggregate_order_type registry invoices detected_order_type categories).1
  = (determine_order_type_from_codes registry (mjoin invoices)).1.1.
Proof.
  intros Hne Hcodes Hsales. rewrite Forall_forall in Hcodes.
  assert (clean_codes (mjoin invoices) <> []) as E.
  { destruct invoices as [|codes invs]; [done|].
    assert (clean_codes codes <> []) as Hc
      by (apply clean_codes_nonempty, Hcodes; by left).
    intros Hnil. destruct (clean_codes codes) as [|c l] eqn:Ec; [done|].
    assert (c ∈ clean_codes (mjoin (codes :: invs))) as H.
    { unfold clean_codes. simpl. rewrite omap_app. apply elem_of_app. left.
      fold (clean_codes codes). rewrite Ec. by left. }
    rewrite Hnil in H. by apply elem_of_nil in H. }
  rewrite (detector_order_type_eq _ _ E). cbv zeta.
  unfold aggregate_order_type. cbn [fst].
  assert (⋃ (invoice_types registry <$> invoices)
          = order_types_found_of
              (found_rows registry (clean_codes (mjoin invoices)))
              (clean_codes (mjoin invoices))) as ->.
  { apply set_eq. intros t.
    rewrite elem_of_union_list, order_types_found_tags, tag_present_join.
    split.
    - intros (X & (codes & -> & Hin)%list_elem_of_fmap & Ht).
      exists codes. split; [done|].
      by apply invoice_types_tags; [apply Hcodes | |].
    - intros (codes & Hin & Ht). exists (invoice_types registry codes).
      split; [apply list_elem_of_fmap; by exists codes|].
      by apply invoice_types_tags; [apply Hcodes | |]. }
  pose proof (order_types_found_nonempty registry _ E) as H0.
  set (S := order_types_found_of _ _) in *.
  destruct (decide (S = ∅)) as [Hempty|_]; [|done].
  rewrite Hempty in H0. by rewrite size_empty in H0.
Qed.

(** X14, witness. *)
Lemma order_type_of_invoices_witness :
  order_invoices <> []
  /\ (aggregate_order_type sample_registry order_invoices None []).1
     = (determine_order_type_from_codes sample_registry
          (mjoin order_invoices)).1.1.
Proof.
  assert (order_invoices <> []) as H1 by done.
  split; [exact H1|].
  apply (order_type_of_invoices sample_registry order_invoices None [] H1).
  - repeat constructor; by vm_compute.
  - intros r. unfold sample_registry. rewrite !elem_of_cons, elem_of_nil.
    intros [-> | [-> | [-> | []]]]; by vm_compute.
Defined.

(** X15. An invoice none of whose line items has a code adds the tag
    unspecified: an order with such an invoice is stored as unspecified or
    as mixed, never as labour, service or sales. *)
Theorem order_type_with_codeless_invoice (registry : list LabourCode)
    (invoices : list (list (option string)))
    (detected_order_type : option string) (categories : list string)
    (codes : list (option string)) :
  codes ∈ invoices -> truthy_codes codes = [] ->
  (aggregate_order_type registry invoices detected_order_type categories).1
  = "unspecified"
  \/ (aggregate_order_type registry invoices detected_order_type
        categories).1 = "mixed".
Proof.
  intros Hin Hnone. unfold aggregate_order_type. cbn [fst].
  set (S := ⋃ (invoice_types registry <$> invoices)).
  assert ("unspecified" ∈ S) as Hu.
  { apply elem_of_union_list. exists (invoice_types registry codes).
    split; [apply list_elem_of_fmap; by exists codes|].
    rewrite (invoice_types_no_codes _ _ Hnone). by apply elem_of_singleton. }
  destruct (decide (S = ∅)) as [Hempty|_].
  { rewrite Hempty in Hu. by apply elem_of_empty in Hu. }
  destruct (decide (size S = 0)) as [H0|H0].
  { apply size_empty_iff, leibniz_equiv in H0. rewrite H0 in Hu.
    by apply elem_of_empty in Hu. }
  destruct (decide (size S = 1)) as [H1|H1]; [|by right].
  left. destruct (size_1_elem_of S H1) as [x Hx]. apply leibniz_equiv in Hx.
  rewrite Hx in Hu. apply elem_of_singleton in Hu as <-.
  by rewrite Hx, elements_singleton.
Qed.

(** X15, witness. *)
Lemma order_type_with_codeless_invoice_witness :
  [None; Some ""] ∈ [[Some "L1"]; [None; Some ""]]
  /\ ((aggregate_order_type sample_registry [[Some "L1"]; [None; Some ""]]
         None []).1 = "unspecified"
      \/ (aggregate_order_type sample_registry
            [[Some "L1"]; [None; Some ""]] None []).1 = "mixed").
Proof.
  assert ([None; Some ""] ∈ [[Some "L1"]; [None; Some ""]]) as H
    by (right; left).
  split; [exact H|].
  apply (order_type_with_codeless_invoice sample_registry
           [[Some "L1"]; [None; Some ""]] None [] [None; Some ""] H).
  reflexivity.
Defined.

(** ** Codes of the upload form, cleaned before the detection *)

Lemma elem_of_preclean_codes raw c :
  c ∈ preclean_codes raw
  <-> exists s, s ∈ raw /\ PyStr.truthy s = true
                /\ PyStr.truthy (PyStr.strip s) = true /\ c = PyStr.strip s.
Proof.
  unfold preclean_codes.
  rewrite sorted_elem_of, elem_of_elements, elem_of_list_to_set,
    list_elem_of_omap.
  split.
  - intros (s & Hin & H). exists s.
    destruct (PyStr.truthy s); [|done].
    destruct (PyStr.truthy (PyStr.strip s)); [|done].
    by injection H as <-.
  - intros (s & Hin & H1 & H2 & ->). exists s. by rewrite H1, H2.
Qed.

Lemma clean_codes_clean (l : list string) :
  Forall (fun s => PyStr.truthy s = true /\ PyStr.strip s = s) l ->
  clean_codes (Some <$> l) = l.
Proof.
  induction 1 as [|s l [Ht Hs] _ IH]; [done|].
  unfold clean_codes in *. cbn [fmap list_fmap omap list_omap].
  by rewrite Ht, Hs, IH.
Qed.

Lemma unmapped_codes_NoDup rows cleaned :
  NoDup cleaned -> NoDup (unmapped_codes_of rows cleaned).
Proof. apply NoDup_filter. Qed.

(** X16. The codes of the upload form are stripped, the blank ones dropped,
    and the rest deduplicated and sorted before the detection.  On such
    codes the detector's own cleaning changes nothing; without any such code
    the detected type is unspecified; and the unmapped codes it reports are
    distinct and never hold the empty code. *)
Theorem upload_codes_precleaned (registry : list LabourCode)
    (raw : list string) :
  let pre := preclean_codes raw in
  let result := determine_order_type_from_codes registry (Some <$> pre) in
  clean_codes (Some <$> pre) = pre
  /\ (pre = [] -> result = ("unspecified", [], empty_mapping_info))
  /\ ("" ∉ unmapped result.2)
  /\ NoDup (unmapped result.2).
Proof.
  cbv zeta.
  assert (clean_codes (Some <$> preclean_codes raw) = preclean_codes raw)
    as Hclean.
  { apply clean_codes_clean, Forall_forall. intros c Hc.
    apply elem_of_preclean_codes in Hc as (s & _ & _ & Ht & ->).
    split; [done|]. apply strip_idemp. }
  assert ("" ∉ preclean_codes raw) as Hblank.
  { intros (s & _ & _ & Ht & Hs)%elem_of_preclean_codes.
    by rewrite <- Hs in Ht. }
  assert (NoDup (preclean_codes raw)) as Hnd
    by apply sorted_NoDup, NoDup_elements.
  split; [done|]. split; [by intros ->|].
  destruct (preclean_codes raw) as [|c l] eqn:E.
  { split; [apply not_elem_of_nil | constructor]. }
  rewrite <- E in *.
  rewrite detector_result_eq by (rewrite Hclean, E; done).
  cbv zeta. cbn [snd unmapped]. rewrite Hclean. split.
  - by intros [H _]%elem_of_unmapped.
  - by apply unmapped_codes_NoDup.
Qed.

(** ** The display of a detected order type *)

Lemma sorted_sorted (l : list string) :
  PyStr.sorted (PyStr.sorted l) = PyStr.sorted l.
Proof. apply sorted_proper, sorted_Permutation. Qed.

Lemma sorted_singleton (x : string) : PyStr.sorted [x] = [x].
Proof.
  apply Permutation_singleton_r. apply sorted_Permutation.
Qed.

(** X17. For codes of which one at least is not empty, the display string
    made from the detector's result (its type and its list of order types)
    is the names of the order types found, joined by " and ": for a single
    type this is the name of the order type itself. *)
Theorem display_of_detector_result (title : string -> string)
    (registry : list LabourCode) (item_codes : list (option string)) :
  clean_codes item_codes <> [] ->
  let result := determine_order_type_from_codes registry item_codes in
  get_mixed_order_status_display title result.1.1
    (Some (order_types_found result.2)) (Some result.1.2)
  = String.concat " and "
      (_format_type_name title <$> order_types_found result.2).
Proof.
  intros E. cbv zeta. rewrite (detector_result_eq _ _ E). cbv zeta.
  pose proof (order_types_found_nonempty registry item_codes E) as H0.
  set (S := order_types_found_of _ _) in *.
  destruct (decide (size S = 0)) as [?|_]; [done|].
  destruct (decide (size S = 1)) as [H1|H1];
    cbn [fst snd order_types_found].
  - destruct (size_1_elem_of S H1) as [x Hx]. apply leibniz_equiv in Hx.
    rewrite Hx, elements_singleton, sorted_singleton.
    unfold get_mixed_order_status_display. cbn [hd].
    destruct (decide (x = "mixed")) as [->|_]; [|done].
    by rewrite sorted_singleton.
  - unfold get_mixed_order_status_display.
    destruct (PyStr.sorted (elements S)) as [|t l] eqn:Es.
    + apply (f_equal length) in Es.
      rewrite (Permutation_length (sorted_Permutation _)) in Es.
      exfalso. by apply H0.
    + rewrite <- Es, sorted_sorted. by rewrite decide_True.
Qed.

(** X17, witness. *)
Lemma display_of_detector_result_witness :
  clean_codes sample_codes <> []
  /\ get_mixed_order_status_display (fun s => s)
       (determine_order_type_from_codes sample_registry sample_codes).1.1
       (Some (order_types_found
                (determine_order_type_from_codes sample_registry
                   sample_codes).2))
       (Some (determine_order_type_from_codes sample_registry
                sample_codes).1.2)
     = String.concat " and "
         (_format_type_name (fun s => s)
            <$> order_types_found
                  (determine_order_type_from_codes sample_registry
                     sample_codes).2).
Proof.
  assert (clean_codes sample_codes <> []) as H by done.
  split; [exact H|].
  exact (display_of_detector_result (fun s => s) sample_registry
           sample_codes H).
Defined.
